(** * Selective PDF extraction, its cache and its options parser

    A shallow embedding of the parts of the repository that the checked
    properties are about:

    - [SelectivePDFParser] (extraction strategies, page selection, the
      content formatter, fuzzy chapter matching),
    - the structural page parser of [SelectivePDFParser] (sections, combined
      text and metadata of a page) and [LocalPDFParser],
    - [PDFCache] and [PDFParser] (the per-file cache and the parsing facade),
    - [FileParserManager] with the markdown, canvas and project parsers,
    - [ContextProcessor] (the inline options syntax and the context notes).

    JavaScript strings are modelled as Rocq strings (sequences of 8-bit code
    units), integers as [Z], the scores stored in a page as rationals, thrown
    exceptions as the [Throw] case of a result type, and the vault adapter as
    an explicit state that is threaded through the calls. *)

From Stdlib Require Import ZArith QArith Ascii String List Lia.
From stdpp Require Import base tactics option list list_numbers strings gmap sorting.

Local Open Scope Z_scope.

(** ** JavaScript string built-ins *)

Module JS.

(** The line feed that the source writes as a backslash followed by n. *)
Definition LF : string := String (ascii_of_nat 10) EmptyString.

(** [String.prototype.toLowerCase] on code units below 256: the letters A-Z
    and the capital letters of Latin-1 (all of 192-222 but the
    multiplication sign, 215) move up by 32. *)
Definition lower_ascii (c : ascii) : ascii :=
  let n := nat_of_ascii c in
  if ((65 <=? n)%nat && (n <=? 90)%nat
      || (192 <=? n)%nat && (n <=? 222)%nat && negb (n =? 215)%nat)%bool
  then ascii_of_nat (n + 32) else c.

Fixpoint toLowerCase (s : string) : string :=
  match s with
  | EmptyString => EmptyString
  | String c r => String (lower_ascii c) (toLowerCase r)
  end.

(** White space and line terminators removed by [trim]: TAB, LF, VT, FF,
    CR, SP and NBSP. *)
Definition is_space (c : ascii) : bool :=
  let n := nat_of_ascii c in
  ((9 <=? n)%nat && (n <=? 13)%nat || (n =? 32)%nat || (n =? 160)%nat)%bool.

Fixpoint trimStart (s : string) : string :=
  match s with
  | EmptyString => EmptyString
  | String c r => if is_space c then trimStart r else s
  end.

Fixpoint trimEnd (s : string) : string :=
  match s with
  | EmptyString => EmptyString
  | String c r =>
      match trimEnd r with
      | EmptyString => if is_space c then EmptyString else String c EmptyString
      | r' => String c r'
      end
  end.

Definition trim (s : string) : string := trimEnd (trimStart s).

(** [s.startsWith(p)] *)
Fixpoint startsWith (p s : string) : bool :=
  match p, s with
  | EmptyString, _ => true
  | String a p', String b s' => if Ascii.eqb a b then startsWith p' s' else false
  | String _ _, EmptyString => false
  end.

(** [s.includes(p)] *)
Fixpoint includes (s p : string) : bool :=
  if startsWith p s then true
  else match s with
       | EmptyString => false
       | String _ r => includes r p
       end.

(** [s.indexOf(p)]; [None] stands for [-1]. *)
Fixpoint indexOf (s p : string) : option nat :=
  if startsWith p s then Some 0%nat
  else match s with
       | EmptyString => None
       | String _ r => S <$> indexOf r p
       end.

(** [s.split(sep)] for a one-character separator. *)
Fixpoint split (sep : ascii) (s : string) : list string :=
  match s with
  | EmptyString => [EmptyString]
  | String c r =>
      if Ascii.eqb c sep then EmptyString :: split sep r
      else match split sep r with
           | h :: t => String c h :: t
           | [] => [String c EmptyString]
           end
  end.

Definition is_digit (c : ascii) : bool :=
  let n := nat_of_ascii c in ((48 <=? n)%nat && (n <=? 57)%nat)%bool.

Definition digit_val (c : ascii) : Z := Z.of_nat (nat_of_ascii c) - 48.

(** The longest prefix of decimal digits and what follows it. *)
Fixpoint span_digits (s : string) : string * string :=
  match s with
  | String c r =>
      if is_digit c then let '(d, rest) := span_digits r in (String c d, rest)
      else (EmptyString, s)
  | EmptyString => (EmptyString, EmptyString)
  end.

Fixpoint decimal_value (acc : Z) (s : string) : Z :=
  match s with
  | EmptyString => acc
  | String c r => decimal_value (10 * acc + digit_val c) r
  end.

(** Decimal rendering of an integer, as template literals and
    [Number.prototype.toString] print integers below 10^21. *)
Fixpoint pos_digits (fuel : nat) (n : Z) (acc : string) : string :=
  match fuel with
  | O => acc
  | S f =>
      let acc' := String (ascii_of_nat (Z.to_nat (48 + n mod 10))) acc in
      if n <? 10 then acc' else pos_digits f (n / 10) acc'
  end.

Definition string_of_Z (z : Z) : string :=
  if z <? 0 then String "-"%char (pos_digits (Z.to_nat (Z.log2 (- z)) + 1) (- z) EmptyString)
  else pos_digits (Z.to_nat (Z.log2 z) + 1) z EmptyString.

End JS.

(** ** Exceptions

    A computation that can throw returns [Throw message]; [try_catch] is a
    [try { ... } catch (error) { ... }] block whose handler receives
    [error.message]. *)

Inductive Result (A : Type) : Type :=
  | Ok (a : A)
  | Throw (message : string).
Arguments Ok {A} a.
Arguments Throw {A} message.

Global Instance Result_ret : MRet Result := fun _ a => Ok a.

Global Instance Result_bind : MBind Result := fun _ _ k r =>
  match r with
  | Ok a => k a
  | Throw m => Throw m
  end.

Global Instance Result_fmap : FMap Result := fun _ _ f r =>
  match r with
  | Ok a => Ok (f a)
  | Throw m => Throw m
  end.

Definition try_catch {A} (body : Result A) (handler : string → Result A) : Result A :=
  match body with
  | Ok a => Ok a
  | Throw m => handler m
  end.

(** ** Numbers

    Integer-valued option fields hold what [parseInt] can return. *)

Inductive jsint : Type :=
  | NaN
  | Int (z : Z).

(** [v || dflt] for an optional number: [undefined], [NaN] and [0] are falsy. *)
Definition or_default (v : option jsint) (dflt : Z) : Z :=
  match v with
  | Some (Int z) => if z =? 0 then dflt else z
  | _ => dflt
  end.

Definition or_defaultQ (v : option Q) (dflt : Q) : Q :=
  match v with
  | Some q => if Qeq_bool q 0 then dflt else q
  | None => dflt
  end.

(** [flag ? ... : ...] and [!flag] for an optional boolean. *)
Definition truthy (v : option bool) : bool :=
  match v with
  | Some b => b
  | None => false
  end.

(** [x.toFixed(3)]: the integer [n] closest to [1000 x], the larger one on a
    tie, printed with three decimals; the sign is split off first. *)
Definition pad3 (n : Z) : string :=
  let d := JS.string_of_Z n in
  if n <? 10 then "00" +:+ d else if n <? 100 then "0" +:+ d else d.

Definition toFixed3_nonneg (x : Q) : string :=
  let n := (2000 * Qnum x + Zpos (Qden x)) / (2 * Zpos (Qden x)) in
  JS.string_of_Z (n / 1000) +:+ "." +:+ pad3 (n mod 1000).

Definition toFixed3 (x : Q) : string :=
  if Qle_bool 0 x then toFixed3_nonneg x else "-" +:+ toFixed3_nonneg (Qopp x).

(** ** Data model of [SelectivePDFParser] *)

Record PageRange : Type := { start : Z; end_ : Z }.

(** [PDFProcessingOptions]; every field is optional. ([sectionPattern] is
    declared by the interface and read nowhere.) *)
Record PDFProcessingOptions : Type := {
  pageRange : option PageRange;
  maxPages : option jsint;
  searchTerms : option (list string);
  chapters : option (list string);
  maxCharacters : option jsint;
  contextWindow : option jsint;
  minRelevanceScore : option Q;
  extractImages : option bool;
  preserveStructure : option bool
}.

Definition no_options : PDFProcessingOptions :=
  {| pageRange := None; maxPages := None; searchTerms := None; chapters := None;
     maxCharacters := None; contextWindow := None; minRelevanceScore := None;
     extractImages := None; preserveStructure := None |}.

Record PDFSection : Type := {
  title : string;
  startPage : Z;
  endPage : Z;
  sec_content : string;
  confidence : Q
}.

Inductive SectionType : Type := header | paragraph | list_ | table | footer.

Global Instance SectionType_eq_dec : EqDecision SectionType.
Proof. solve_decision. Defined.

Record Position : Type := { pos_x : Q; pos_y : Q; pos_width : Q; pos_height : Q }.

Record TextSection : Type := {
  type : SectionType;
  ts_content : string;
  level : option Z;
  position : Position
}.

Record PageMetadata : Type := {
  wordCount : Z;
  avgWordLength : Q;
  hasNumbers : bool;
  hasReferences : bool;
  textDensity : Q
}.

Record PageContent : Type := {
  pageNum : Z;
  content : string;
  relevance : Q;
  sections : list TextSection;
  hasImages : bool;
  metadata : PageMetadata
}.

(** What [extractPageWithStructure] returns for one page. *)
Record PageStructure : Type := {
  ps_content : string;
  ps_sections : list TextSection;
  ps_hasImages : bool;
  ps_metadata : PageMetadata
}.

(** ** The document-rendering collaborator

    A loaded document, as [pdfjsLib.getDocument] hands it over.
    [textItems n] is the [str] of every item of
    [getPage(n).getTextContent()] (the empty string for an item without
    one), or [Throw] when the page cannot be read. The positioned items are
    consumed by the structural page parser ([parseTextStructure],
    [combineTextSections], [analyzePageMetadata]); [textStructure n preserve]
    is what that chain returns for page [n], or [None] when [getPage],
    [getTextContent] or the parser throws. [paintsImage n] is the answer of
    [hasImages] for the page. *)

Inductive OutlineDest : Type :=
  | DestArray (pageIndex : Result Z)   (* [getPageIndex(dest[0])] *)
  | DestOther.

Record OutlineItem : Type := { o_title : string; o_dest : OutlineDest }.

Record PDFDoc : Type := {
  numPages : Z;
  textItems : Z → Result (list string);
  textStructure : Z → bool → option (string * list TextSection * PageMetadata);
  paintsImage : Z → bool;
  getOutline : Result (option (list OutlineItem))
}.

(** ** Array built-ins *)

(** [arr.slice(0, n)]: a negative [n] counts from the end of the array. *)
Definition slice0 {A} (n : Z) (l : list A) : list A :=
  if n <? 0 then take (Z.to_nat (Z.of_nat (length l) + n)) l
  else take (Z.to_nat n) l.

(** [arr.sort(cmp)] is stable: [before y x] says that the comparator puts [y]
    strictly before [x]; an element moves left only past elements that come
    strictly after it. *)
Fixpoint sort_insert {A} (before : A → A → bool) (x : A) (l : list A) : list A :=
  match l with
  | [] => [x]
  | y :: r => if before y x then y :: sort_insert before x r else x :: y :: r
  end.

Definition stable_sort {A} (before : A → A → bool) (l : list A) : list A :=
  foldr (sort_insert before) [] l.

(** [set.add(x)] on a [Set<number>], kept in insertion order. *)
Definition set_add (x : Z) (s : list Z) : list Z :=
  if decide (x ∈ s) then s else s ++ [x].

(** ** [SelectivePDFParser] *)

Module SelectivePDFParser.

(** *** Page extraction, formatting and the strategies without scores *)

Definition DEFAULT_MAX_PAGES : Z := 50.
Definition DEFAULT_MAX_CHARACTERS : Z := 100000.
Definition DEFAULT_CONTEXT_WINDOW : Z := 2.
Definition DEFAULT_MIN_RELEVANCE : Q := 1 # 100.

(** [extractPageWithStructure]: [null] (here [None]) when anything throws. *)
Definition extractPageWithStructure
    (pdf : PDFDoc) (pageNum : Z) (options : PDFProcessingOptions) : option PageStructure :=
  match textStructure pdf pageNum (truthy (preserveStructure options)) with
  | Some (content, sections, metadata) =>
      let hasImages := if truthy (extractImages options) then paintsImage pdf pageNum else false in
      Some {| ps_content := content; ps_sections := sections;
              ps_hasImages := hasImages; ps_metadata := metadata |}
  | None => None
  end.

Definition mkPage (pageNum : Z) (relevance : Q) (p : PageStructure) : PageContent :=
  {| pageNum := pageNum; content := ps_content p; relevance := relevance;
     sections := ps_sections p; hasImages := ps_hasImages p; metadata := ps_metadata p |}.

(** [for (pageNum = startPage; pageNum <= endPage; pageNum++)] *)
Definition page_loop (startPage endPage : Z) : list Z :=
  seqZ startPage (endPage - startPage + 1).

Definition extractPagesWithStructure
    (pdf : PDFDoc) (startPage endPage : Z) (options : PDFProcessingOptions) : list PageContent :=
  omap (fun pageNum => mkPage pageNum 1 <$> extractPageWithStructure pdf pageNum options)
       (page_loop startPage endPage).

Definition pageHeader (page : PageContent) : string :=
  let h0 := JS.LF +:+ JS.LF +:+ "--- Page " +:+ JS.string_of_Z (pageNum page) in
  let h1 := if negb (Qle_bool 1 (relevance page))
            then h0 +:+ " (Relevance: " +:+ toFixed3 (relevance page) +:+ ")" else h0 in
  let h2 := if hasImages page then h1 +:+ " [Contains Images]" else h1 in
  h2 +:+ " ---" +:+ JS.LF.

Definition formatExtractedContent (pages : list PageContent) (options : PDFProcessingOptions) : string :=
  match pages with
  | [] => ""
  | _ => JS.trim (String.concat "" (map (fun page => pageHeader page +:+ content page) pages))
  end.

Definition extractByPageRange
    (pdf : PDFDoc) (pageRange : PageRange) (options : PDFProcessingOptions) : string :=
  let actualEnd := Z.min (end_ pageRange) (numPages pdf) in
  let actualStart := Z.max 1 (start pageRange) in
  let pages := extractPagesWithStructure pdf actualStart actualEnd options in
  formatExtractedContent pages options.

(** [selectPagesWithContext] *)
Definition add_with_context (contextWindow : Z) (selected : list Z) (page : PageContent) : list Z :=
  foldl (fun sel i => set_add (pageNum page + i) (set_add (pageNum page - i) sel))
        (set_add (pageNum page) selected)
        (seqZ 1 contextWindow).

Definition selectPagesWithContext
    (pageAnalysis : list PageContent) (maxPages contextWindow : Z) : list PageContent :=
  let topPages := slice0 (Z.min maxPages (Z.of_nat (length pageAnalysis))) pageAnalysis in
  let selected := foldl (add_with_context contextWindow) [] topPages in
  let allPageNums := stable_sort Z.ltb (filter (fun num => 0 < num) selected) in
  let result :=
    omap (fun num => List.find (fun p => pageNum p =? num) pageAnalysis)
         (slice0 maxPages allPageNums) in
  stable_sort (fun a b => pageNum a <? pageNum b) result.

(** [extractWithIntelligentLimits]: the state of the loop when it ends.
    [reached] is the page at which the loop logged "Reached character
    limit" and broke off. *)
Record LimitsLoop : Type := {
  ll_pages : list PageContent;
  ll_charCount : Z;
  ll_reached : option Z
}.

Fixpoint limits_loop (pdf : PDFDoc) (maxChars : Z) (options : PDFProcessingOptions)
    (todo : list Z) (pages : list PageContent) (charCount : Z) : LimitsLoop :=
  match todo with
  | [] => {| ll_pages := pages; ll_charCount := charCount; ll_reached := None |}
  | pageNum :: rest =>
      match extractPageWithStructure pdf pageNum options with
      | None => limits_loop pdf maxChars options rest pages charCount
      | Some pageContent =>
          let pageSize := Z.of_nat (String.length (ps_content pageContent)) in
          if maxChars <? charCount + pageSize
          then {| ll_pages := pages; ll_charCount := charCount; ll_reached := Some pageNum |}
          else limits_loop pdf maxChars options rest
                 (pages ++ [mkPage pageNum 1 pageContent]) (charCount + pageSize)
      end
  end.

Definition truncation_notice (maxChars total : Z) : string :=
  JS.LF +:+ JS.LF +:+ "[... Truncated at " +:+ JS.string_of_Z maxChars
    +:+ " characters. Total pages in PDF: " +:+ JS.string_of_Z total +:+ " ...]".

Definition extractWithIntelligentLimits
    (pdf : PDFDoc) (maxPages maxChars : Z) (options : PDFProcessingOptions) : string :=
  let actualMaxPages := Z.min maxPages (numPages pdf) in
  let st := limits_loop pdf maxChars options (page_loop 1 actualMaxPages) [] 0 in
  let result := formatExtractedContent (ll_pages st) options in
  if maxChars <=? ll_charCount st
  then result +:+ truncation_notice maxChars (numPages pdf)
  else result.

(** [levenshteinDistance]: the matrix has one row per prefix of [str2] and
    one column per prefix of [str1]; cells start as [null]. Every index the
    loops use lies inside the matrix. *)
Abbreviation Matrix := (list (list (option Z))).

Definition cell (matrix : Matrix) (j i : nat) : Z :=
  match matrix !! j with
  | Some row => match row !! i with Some (Some v) => v | _ => 0 end
  | None => 0
  end.

Definition set_cell (j i : nat) (v : Z) (matrix : Matrix) : Matrix :=
  match matrix !! j with
  | Some row => <[j := <[i := Some v]> row]> matrix
  | None => matrix
  end.

Definition charAt (s : string) (i : nat) : option ascii := String.get i s.

(** The body of the double loop: [matrix[j][i] = Math.min(...)]. *)
Definition fill_cell (str1 str2 : string) (j : nat) (matrix : Matrix) (i : nat) : Matrix :=
  let substitutionCost :=
    if decide (charAt str1 (i - 1) = charAt str2 (j - 1)) then 0 else 1 in
  set_cell j i
    (Z.min (Z.min (cell matrix j (i - 1) + 1)         (* deletion *)
                  (cell matrix (j - 1) i + 1))         (* insertion *)
           (cell matrix (j - 1) (i - 1) + substitutionCost))
    matrix.

Definition levenshteinDistance (str1 str2 : string) : Z :=
  let n1 := String.length str1 in
  let n2 := String.length str2 in
  let matrix : Matrix := replicate (n2 + 1) (replicate (n1 + 1) None) in
  let matrix := foldl (fun m i => set_cell 0 i (Z.of_nat i) m) matrix (seq 0 (n1 + 1)) in
  let matrix := foldl (fun m j => set_cell j 0 (Z.of_nat j) m) matrix (seq 0 (n2 + 1)) in
  let matrix :=
    foldl (fun m j => foldl (fill_cell str1 str2 j) m (seq 1 n1)) matrix (seq 1 n2) in
  cell matrix n2 n1.

(** [fuzzyMatch]. The comparison [similarity >= threshold] is made on
    doubles in the source; with [threshold = 0.6] and a quotient
    [distance / maxLen] of two integers below 2^50 it has the same outcome
    as the comparison of the exact rationals, which is what is written
    here. *)
Definition similarity (distance maxLen : Z) : Q := 1 - (distance # 1) / (maxLen # 1).

Definition fuzzyMatchAt (threshold : Q) (text1 text2 : string) : bool :=
  let t1 := JS.trim (JS.toLowerCase text1) in
  let t2 := JS.trim (JS.toLowerCase text2) in
  if (JS.includes t1 t2 || JS.includes t2 t1)%bool then true
  else
    let maxLen := Z.max (Z.of_nat (String.length t1)) (Z.of_nat (String.length t2)) in
    let distance := levenshteinDistance t1 t2 in
    Qle_bool threshold (similarity distance maxLen).

Definition fuzzyMatch : string → string → bool := fuzzyMatchAt (6 # 10).

(** *** Strategies that score pages or read the outline

    Built-ins of the platform that this code calls and that have no
    counterpart here are variables of the section:
    - [regexCount text pattern] is
      [(text.match(new RegExp(pattern, "g")) || []).length], and throws
      when [pattern] is not a regular expression;
    - [Math_log n] is [Math.log(n)] for an integer [n];
    - [fl] rounds a rational to the nearest double, so that the product of
      two doubles is [fl (a * b)];
    - [sectionPatternTest s] is
      [SECTION_PATTERNS.some((pattern) => pattern.test(s))];
    - [getDocument bytes] is [pdfjsLib.getDocument({data}).promise]. *)
Section Scoring.

Variable regexCount : string → string → Result nat.
Variable Math_log : Z → Q.
Variable fl : Q → Q.
Variable sectionPatternTest : string → bool.
Variable getDocument : string → Result PDFDoc.

Definition fmul (a b : Q) : Q := fl (a * b).
Definition fadd (a b : Q) : Q := fl (a + b).
Definition fsub (a b : Q) : Q := fl (a - b).
Definition fdiv (a b : Q) : Q := fl (a / b).
Definition ofZ (z : Z) : Q := z # 1.
Definition ofnat (n : nat) : Q := Z.of_nat n # 1.

Definition headers (sections : list TextSection) : list TextSection :=
  filter (fun s => type s = header) sections.

(** The body of [for (const term of searchTerms)]: the score of one
    term; [Ok None] is [NaN] (the position boost of an empty term on an
    empty page divides zero by zero). *)
Definition termScore (text : string) (sections : list TextSection) (term : string)
    : Result (option Q) :=
  let lowerTerm := JS.toLowerCase term in
  matches ← regexCount text lowerTerm;
  let termScore := fmul (ofnat matches) (Math_log (Z.of_nat (String.length term) + 1)) in
  termScore ←
    (if JS.includes term " "
     then phraseMatches ← regexCount text lowerTerm;
          mret (fadd termScore (fmul (ofnat phraseMatches) 2))
     else mret termScore);
  headerMatches ←
    foldl (fun count section =>
             c ← count;
             m ← regexCount (JS.toLowerCase (ts_content section)) lowerTerm;
             mret (c + m)%nat)
          (Ok 0%nat) (headers sections);
  let termScore := fadd termScore (fmul (ofnat headerMatches) 3) in
  match JS.indexOf text lowerTerm with
  | Some firstMatchIndex =>
      if (String.length text =? 0)%nat then mret None
      else
        let positionBoost :=
          fsub 1 (fmul (fdiv (ofnat firstMatchIndex) (ofnat (String.length text))) (1 # 2)) in
        mret (Some (fmul termScore positionBoost))
  | None => mret (Some termScore)
  end.

Definition calculateEnhancedRelevance (pageContent : PageStructure) (searchTerms : list string)
    : Result (option Q) :=
  let text := JS.toLowerCase (ps_content pageContent) in
  score ←
    foldl (fun score term =>
             s ← score;
             t ← termScore text (ps_sections pageContent) term;
             mret (match s, t with
                   | Some s, Some t => Some (fadd s t)
                   | _, _ => None
                   end))
          (Ok (Some 0%Q)) searchTerms;
  mret (normalizedScore ← score;
        let normalizedScore :=
          fdiv normalizedScore (ofZ (Z.max (Z.of_nat (String.length text)) 1)) in
        let md := ps_metadata pageContent in
        let normalizedScore :=
          if hasReferences md then fmul normalizedScore (fl (12 # 10)) else normalizedScore in
        let normalizedScore :=
          if negb (Qle_bool (textDensity md) (1 # 2))
          then fmul normalizedScore (fl (11 # 10)) else normalizedScore in
        let normalizedScore :=
          if 100 <? wordCount md then fmul normalizedScore (fl (11 # 10)) else normalizedScore in
        Some normalizedScore).

(** First pass of [extractByIntelligentSearch]: the pages whose score
    reaches [minRelevance], in page order. *)
Definition analysePage (pdf : PDFDoc) (searchTerms : list string) (minRelevance : Q)
    (options : PDFProcessingOptions) (pageAnalysis : Result (list PageContent)) (pageNum : Z)
    : Result (list PageContent) :=
  acc ← pageAnalysis;
  match extractPageWithStructure pdf pageNum options with
  | None => mret acc
  | Some pageContent =>
      relevance ← calculateEnhancedRelevance pageContent searchTerms;
      match relevance with
      | Some r => if Qle_bool minRelevance r
                  then mret (acc ++ [mkPage pageNum r pageContent]) else mret acc
      | None => mret acc
      end
  end.

Definition extractByIntelligentSearch
    (pdf : PDFDoc) (searchTerms : list string) (options : PDFProcessingOptions) : Result string :=
  let maxPages := or_default (maxPages options) DEFAULT_MAX_PAGES in
  let contextWindow := or_default (contextWindow options) DEFAULT_CONTEXT_WINDOW in
  let minRelevance := or_defaultQ (minRelevanceScore options) DEFAULT_MIN_RELEVANCE in
  pageAnalysis ←
    foldl (analysePage pdf searchTerms minRelevance options) (Ok [])
          (page_loop 1 (numPages pdf));
  let pageAnalysis :=
    stable_sort (fun a b => negb (Qle_bool (relevance a) (relevance b))) pageAnalysis in
  let selectedPages := selectPagesWithContext pageAnalysis maxPages contextWindow in
  mret (formatExtractedContent selectedPages options).

Definition getPageFromDest (dest : OutlineDest) : Z :=
  match dest with
  | DestArray (Ok pageIndex) => pageIndex + 1
  | DestArray (Throw _) => 1
  | DestOther => 1
  end.

Fixpoint outline_sections (pdf : PDFDoc) (outline : list OutlineItem) : list PDFSection :=
  match outline with
  | [] => []
  | item :: rest =>
      let startPage := getPageFromDest (o_dest item) in
      let endPage := match rest with
                     | nextItem :: _ => getPageFromDest (o_dest nextItem) - 1
                     | [] => numPages pdf
                     end in
      {| title := o_title item; startPage := startPage; endPage := endPage;
         sec_content := ""; confidence := 1 |} :: outline_sections pdf rest
  end.

Definition extractEnhancedOutline (pdf : PDFDoc) : list PDFSection :=
  match getOutline pdf with
  | Ok (Some outline) => outline_sections pdf outline
  | Ok None => []
  | Throw _ => []
  end.

Definition sectionTitle (section : PDFSection) (text : string) : string :=
  JS.LF +:+ JS.LF +:+ "=== " +:+ title section +:+ " ===" +:+ JS.LF +:+ text.

(** [detectSectionsFromText]: the state is the list of closed sections
    and the section that is still open. *)
Definition open_section (pdf : PDFDoc) (pageNum : Z)
    (st : list PDFSection * option PDFSection) (hd : TextSection)
    : list PDFSection * option PDFSection :=
  if sectionPatternTest (ts_content hd) then
    let closed := match st.2 with
                  | Some cur => st.1 ++ [{| title := title cur; startPage := startPage cur;
                                            endPage := pageNum - 1;
                                            sec_content := sec_content cur;
                                            confidence := confidence cur |}]
                  | None => st.1
                  end in
    (closed, Some {| title := ts_content hd; startPage := pageNum; endPage := numPages pdf;
                     sec_content := ""; confidence := 8 # 10 |})
  else st.

Definition detectSectionsFromText (pdf : PDFDoc) (options : PDFProcessingOptions)
    : list PDFSection :=
  let maxSamplePages := Z.min 20 (numPages pdf) in
  let st :=
    foldl (fun st pageNum =>
             match extractPageWithStructure pdf pageNum options with
             | None => st
             | Some pageContent =>
                 foldl (open_section pdf pageNum) st (headers (ps_sections pageContent))
             end)
          ([], None) (page_loop 1 maxSamplePages) in
  match st.2 with
  | Some cur => st.1 ++ [cur]
  | None => st.1
  end.

(** [analyzeDocumentStructure]: of the structure it returns, only
    [hasOutline] is read afterwards. *)
Definition analyzeDocumentStructure (pdf : PDFDoc) : bool :=
  match extractEnhancedOutline pdf with
  | [] => false
  | _ :: _ => true
  end.

Definition identifyKeySections (pdf : PDFDoc) (hasOutline : bool)
    (options : PDFProcessingOptions) : list PDFSection :=
  if hasOutline then extractEnhancedOutline pdf else detectSectionsFromText pdf options.

(** [extractByIntelligentSections]: the loop carries [processedPages]
    and [fullText]; [break] leaves both as they are. *)
Fixpoint sections_loop (pdf : PDFDoc) (maxPages : Z) (options : PDFProcessingOptions)
    (todo : list PDFSection) (processedPages : Z) (fullText : string) : string :=
  match todo with
  | [] => fullText
  | section :: rest =>
      if maxPages <=? processedPages then fullText
      else
        let sectionPages := endPage section - startPage section + 1 in
        let pagesToProcess := Z.min sectionPages (maxPages - processedPages) in
        let sectionContent :=
          extractPagesWithStructure pdf (startPage section)
            (startPage section + pagesToProcess - 1) options in
        let formattedContent := formatExtractedContent sectionContent options in
        sections_loop pdf maxPages options rest (processedPages + pagesToProcess)
          (fullText +:+ sectionTitle section formattedContent)
  end.

Definition extractByIntelligentSections (pdf : PDFDoc) (sections : list PDFSection)
    (options : PDFProcessingOptions) : string :=
  let maxPages := or_default (maxPages options) DEFAULT_MAX_PAGES in
  JS.trim (sections_loop pdf maxPages options sections 0 "").

Definition intelligentExtraction (pdf : PDFDoc) (options : PDFProcessingOptions) : string :=
  let maxPages := or_default (maxPages options) DEFAULT_MAX_PAGES in
  let maxChars := or_default (maxCharacters options) DEFAULT_MAX_CHARACTERS in
  let hasOutline := analyzeDocumentStructure pdf in
  let keySections := identifyKeySections pdf hasOutline options in
  match keySections with
  | _ :: _ => extractByIntelligentSections pdf keySections options
  | [] => extractWithIntelligentLimits pdf maxPages maxChars options
  end.

Definition detectChaptersInText (pdf : PDFDoc) (chapters : list string)
    (options : PDFProcessingOptions) : list PDFSection :=
  let maxScanPages := Z.min 50 (numPages pdf) in
  pageNum ← page_loop 1 maxScanPages;
  match extractPageWithStructure pdf pageNum options with
  | None => []
  | Some pageContent =>
      hd ← headers (ps_sections pageContent);
      chapter ← chapters;
      if fuzzyMatch (ts_content hd) chapter
      then [{| title := ts_content hd; startPage := pageNum; endPage := pageNum + 10;
               sec_content := ""; confidence := 7 # 10 |}]
      else []
  end.

Definition extractChapterContent (pdf : PDFDoc) (chapters : list PDFSection)
    (options : PDFProcessingOptions) : string :=
  JS.trim
    (foldl (fun fullText chapter =>
              let chapterContent :=
                extractPagesWithStructure pdf (startPage chapter) (endPage chapter) options in
              fullText +:+ sectionTitle chapter (formatExtractedContent chapterContent options))
           "" chapters).

Definition with_maxPages (options : PDFProcessingOptions) (n : Z) : PDFProcessingOptions :=
  {| pageRange := pageRange options; maxPages := Some (Int n);
     searchTerms := searchTerms options; chapters := chapters options;
     maxCharacters := maxCharacters options; contextWindow := contextWindow options;
     minRelevanceScore := minRelevanceScore options;
     extractImages := extractImages options;
     preserveStructure := preserveStructure options |}.

Definition extractByChapters (pdf : PDFDoc) (chapters : list string)
    (options : PDFProcessingOptions) : Result string :=
  let outline := extractEnhancedOutline pdf in
  let matchingChapters :=
    List.filter (fun section =>
              existsb (fun chapter =>
                         fuzzyMatch (title section) chapter
                         || JS.includes (JS.toLowerCase (title section)) (JS.toLowerCase chapter))
                      chapters)
           outline in
  match matchingChapters with
  | _ :: _ => mret (extractChapterContent pdf matchingChapters options)
  | [] =>
      match detectChaptersInText pdf chapters options with
      | (_ :: _) as detectedChapters => mret (extractChapterContent pdf detectedChapters options)
      | [] => extractByIntelligentSearch pdf chapters (with_maxPages options 20)
      end
  end.

(** The entry point. Anything thrown inside is caught and thrown again
    under the message "Selective PDF parsing failed: ...". *)
Definition extractTextFromPDF (binaryContent : string) (options : PDFProcessingOptions)
    : Result string :=
  try_catch
    (pdf ← getDocument binaryContent;
     match chapters options, searchTerms options, pageRange options with
     | Some (c :: cs), _, _ => extractByChapters pdf (c :: cs) options
     | _, Some (t :: ts), _ => extractByIntelligentSearch pdf (t :: ts) options
     | _, _, Some range => mret (extractByPageRange pdf range options)
     | _, _, None => mret (intelligentExtraction pdf options)
     end)
    (fun message => Throw ("Selective PDF parsing failed: " +:+ message)).

End Scoring.

End SelectivePDFParser.

(** ** [LocalPDFParser] *)

Module LocalPDFParser.

(** [s.replace(/\s+/g, " ")]: [inRun] says that the previous character was
    white space, whose run has been replaced already. *)
Fixpoint collapse (inRun : bool) (s : string) : string :=
  match s with
  | EmptyString => EmptyString
  | String c r =>
      if JS.is_space c
      then (if inRun then collapse true r else String " " (collapse true r))
      else String c (collapse false r)
  end.

Definition normalizeWhitespace (s : string) : string := collapse false s.

Definition pageText (items : list string) : string :=
  JS.trim (normalizeWhitespace
             (String.concat " "
                (List.filter (fun text => negb (String.length (JS.trim text) =? 0)%nat) items))).

Definition pageMarker (pageNum : Z) : string :=
  JS.LF +:+ JS.LF +:+ "--- Page " +:+ JS.string_of_Z pageNum +:+ " ---" +:+ JS.LF.

Definition extractPage (pdf : PDFDoc) (fullText : string) (pageNum : Z) : string :=
  match textItems pdf pageNum with
  | Ok items =>
      let pageText := pageText items in
      if (String.length pageText =? 0)%nat then fullText
      else fullText +:+ pageMarker pageNum +:+ pageText
  | Throw _ =>
      fullText +:+ pageMarker pageNum +:+ "[Error: Could not extract text from this page]"
  end.

Section Renderer.

Variable getDocument : string → Result PDFDoc.

Definition extractTextFromPDF (binaryContent : string) : Result string :=
  try_catch
    (pdf ← getDocument binaryContent;
     let fullText := foldl (extractPage pdf) "" (seqZ 1 (numPages pdf)) in
     if (String.length (JS.trim fullText) =? 0)%nat
     then mret "[No text content found in PDF - may be image-based or encrypted]"
     else mret (JS.trim fullText))
    (fun message => Throw ("Local PDF parsing failed: " +:+ message)).

End Renderer.

End LocalPDFParser.

(** ** The structural page parser of [SelectivePDFParser]

    [parseTextStructure], [isNewSection] and [combineTextSections], on the
    text items of one page. An item is read through [str] (absent on a
    marked-content item), [transform], [width], [height] and [fontName].
    [detectSectionType], which classifies an item by regular expressions and
    upper-casing, is a variable of the section, and so is the rounding [fl]
    of a difference of two doubles. *)

Module PageParser.

Record TextItem : Type := {
  str : option string;
  transform0 : Q;     (* [item.transform[0]] *)
  transform4 : Q;     (* [item.transform[4]] *)
  transform5 : Q;     (* [item.transform[5]] *)
  width : Q;
  height : Q;
  fontName : option string
}.

(** [item.str?.trim() || ""] *)
Definition itemText (item : TextItem) : string :=
  match str item with
  | Some s => JS.trim s
  | None => ""
  end.

(** What [LocalPDFParser] reads of an item: [item.str], or the empty
    string. *)
Definition itemStr (item : TextItem) : string := default "" (str item).

Definition itemPosition (item : TextItem) : Position :=
  {| pos_x := transform4 item; pos_y := transform5 item;
     pos_width := width item; pos_height := height item |}.

(** [Math.abs] *)
Definition Math_abs (q : Q) : Q := if Qle_bool 0 q then q else Qopp q.

Section Parser.

Variable fl : Q → Q.
Variable detectSectionType : string → TextItem → bool → option TextSection → SectionType.

Definition isNewSection (text : string) (pos : Position)
    (currentSection : option TextSection) : bool :=
  match currentSection with
  | None => true
  | Some cur =>
      let yGap := Math_abs (fl (pos_y pos - pos_y (position cur))) in
      if negb (Qle_bool yGap 20) then true
      else
        let xGap := Math_abs (fl (pos_x pos - pos_x (position cur))) in
        negb (Qle_bool xGap 50)
  end.

(** [currentSection.content = currentText.trim(); sections.push(currentSection)],
    done when there is a current section and the trimmed text is not
    empty. *)
Definition pushSection (sections : list TextSection) (currentSection : option TextSection)
    (currentText : string) : list TextSection :=
  match currentSection, JS.trim currentText with
  | Some cur, String c r =>
      sections ++ [{| type := type cur; ts_content := String c r;
                      level := level cur; position := position cur |}]
  | _, _ => sections
  end.

(** The state of the loop of [parseTextStructure]. *)
Record ParserState : Type := {
  st_sections : list TextSection;
  st_currentSection : option TextSection;
  st_currentText : string
}.

(** The body of the loop, for item [i]. *)
Definition parseItem (st : ParserState) (i : nat) (item : TextItem) : ParserState :=
  match itemText item with
  | EmptyString => st
  | text =>
      let pos := itemPosition item in
      let sectionType := detectSectionType text item (i =? 0)%nat (st_currentSection st) in
      if match st_currentSection st with
         | None => true
         | Some cur =>
             negb (bool_decide (sectionType = type cur))
             || isNewSection text pos (st_currentSection st)
         end
      then
        {| st_sections := pushSection (st_sections st) (st_currentSection st) (st_currentText st);
           st_currentSection := Some {| type := sectionType; ts_content := ""; level := None;
                                        position := pos |};
           st_currentText := text |}
      else
        {| st_sections := st_sections st; st_currentSection := st_currentSection st;
           st_currentText := st_currentText st +:+ " " +:+ text |}
  end.

Fixpoint parseItems (st : ParserState) (i : nat) (items : list TextItem) : ParserState :=
  match items with
  | [] => st
  | item :: rest => parseItems (parseItem st i item) (S i) rest
  end.

Definition parseTextStructure (items : list TextItem) : list TextSection :=
  let st := parseItems {| st_sections := []; st_currentSection := None; st_currentText := "" |}
                       0 items in
  pushSection (st_sections st) (st_currentSection st) (st_currentText st).

End Parser.

Definition formatSection (section : TextSection) : string :=
  match type section with
  | header => JS.LF +:+ JS.LF +:+ "## " +:+ ts_content section +:+ JS.LF
  | list_ => JS.LF +:+ "- " +:+ ts_content section
  | table => JS.LF +:+ JS.LF +:+ ts_content section +:+ JS.LF
  | footer => JS.LF +:+ "---" +:+ JS.LF +:+ ts_content section +:+ JS.LF +:+ "---" +:+ JS.LF
  | paragraph => JS.LF +:+ ts_content section
  end.

Definition combineTextSections (sections : list TextSection) (preserveStructure : bool)
    : string :=
  if negb preserveStructure
  then JS.trim (LocalPDFParser.normalizeWhitespace
                  (String.concat " " (map ts_content sections)))
  else JS.trim (String.concat "" (map formatSection sections)).

(** [content.split(/\s+/)]: the pieces between the maximal runs of white
    space; [inRun] says that the previous character was white space. *)
Fixpoint split_ws (inRun : bool) (s : string) : list string :=
  match s with
  | EmptyString => [EmptyString]
  | String c r =>
      if JS.is_space c
      then (if inRun then split_ws true r else EmptyString :: split_ws true r)
      else match split_ws false r with
           | piece :: rest => String c piece :: rest
           | [] => [String c EmptyString]
           end
  end.

(** [/\d/.test(content)] *)
Fixpoint has_digit (s : string) : bool :=
  match s with
  | EmptyString => false
  | String c r => JS.is_digit c || has_digit r
  end.

Section Metadata.

(** The rounding of a quotient of two doubles, and the test of
    [/\[\d+\]|\(\d{4}\)|et al\./] on the content. *)
Variable fl : Q → Q.
Variable referencesTest : string → bool.

(** [analyzePageMetadata]. The average is [0] when there is no word (the
    quotient is [NaN] then). *)
Definition analyzePageMetadata (content : string) (sections : list TextSection)
    : PageMetadata :=
  let words :=
    List.filter (fun w => (0 <? String.length w)%nat) (split_ws false content) in
  let wordCount := length words in
  let total := foldl (fun sum word => (sum + String.length word)%nat) 0%nat words in
  {| wordCount := Z.of_nat wordCount;
     avgWordLength :=
       if (wordCount =? 0)%nat then 0
       else fl ((Z.of_nat total # 1) / (Z.of_nat wordCount # 1));
     hasNumbers := has_digit content;
     hasReferences := referencesTest content;
     textDensity :=
       fl ((Z.of_nat wordCount # 1)
           / (Z.max (Z.of_nat (String.length content)) 1 # 1)) |}.

End Metadata.

End PageParser.

(** ** The message digest

    [MD5(text).toString()] of crypto-js: the MD5 digest of the bytes of
    [text], printed as 32 lower-case hexadecimal digits. *)

Module MD5.

Definition K : list Z :=
  [3614090360; 3905402710; 606105819; 3250441966; 4118548399; 1200080426;
   2821735955; 4249261313; 1770035416; 2336552879; 4294925233; 2304563134;
   1804603682; 4254626195; 2792965006; 1236535329; 4129170786; 3225465664;
   643717713; 3921069994; 3593408605; 38016083; 3634488961; 3889429448;
   568446438; 3275163606; 4107603335; 1163531501; 2850285829; 4243563512;
   1735328473; 2368359562; 4294588738; 2272392833; 1839030562; 4259657740;
   2763975236; 1272893353; 4139469664; 3200236656; 681279174; 3936430074;
   3572445317; 76029189; 3654602809; 3873151461; 530742520; 3299628645;
   4096336452; 1126891415; 2878612391; 4237533241; 1700485571; 2399980690;
   4293915773; 2240044497; 1873313359; 4264355552; 2734768916; 1309151649;
   4149444226; 3174756917; 718787259; 3951481745].

Definition shifts : list Z :=
  [7; 12; 17; 22; 7; 12; 17; 22; 7; 12; 17; 22; 7; 12; 17; 22;
   5; 9; 14; 20; 5; 9; 14; 20; 5; 9; 14; 20; 5; 9; 14; 20;
   4; 11; 16; 23; 4; 11; 16; 23; 4; 11; 16; 23; 4; 11; 16; 23;
   6; 10; 15; 21; 6; 10; 15; 21; 6; 10; 15; 21; 6; 10; 15; 21].

Definition w32 (z : Z) : Z := Z.land z 4294967295.
Definition not32 (z : Z) : Z := Z.lxor z 4294967295.
Definition rotl (x c : Z) : Z := w32 (Z.lor (Z.shiftl x c) (Z.shiftr x (32 - c))).

Record State : Type := { sa : Z; sb : Z; sc : Z; sd : Z }.

Definition init : State :=
  {| sa := 1732584193; sb := 4023233417; sc := 2562383102; sd := 271733878 |}.

Definition round (M : list Z) (st : State) (i : nat) : State :=
  let '(a, b, c, d) := (sa st, sb st, sc st, sd st) in
  let '(f, g) :=
    if (i <? 16)%nat then (Z.lor (Z.land b c) (Z.land (not32 b) d), i)
    else if (i <? 32)%nat then (Z.lor (Z.land d b) (Z.land (not32 d) c), (5 * i + 1) mod 16)%nat
    else if (i <? 48)%nat then (Z.lxor (Z.lxor b c) d, (3 * i + 5) mod 16)%nat
    else (Z.lxor c (Z.lor b (not32 d)), (7 * i) mod 16)%nat in
  let f := w32 (f + a + K !!! i + M !!! g) in
  {| sa := d; sd := c; sc := b; sb := w32 (b + rotl f (shifts !!! i)) |}.

Definition word_of_bytes (bs : list Z) : Z :=
  foldr (fun b acc => b + 256 * acc) 0 bs.

Fixpoint words (n : nat) (bs : list Z) : list Z :=
  match n with
  | O => []
  | S n' => word_of_bytes (take 4 bs) :: words n' (drop 4 bs)
  end.

Definition block (st : State) (bs : list Z) : State :=
  let st' := foldl (round (words 16 bs)) st (seq 0 64) in
  {| sa := w32 (sa st + sa st'); sb := w32 (sb st + sb st');
     sc := w32 (sc st + sc st'); sd := w32 (sd st + sd st') |}.

Fixpoint blocks (n : nat) (st : State) (bs : list Z) : State :=
  match n with
  | O => st
  | S n' => blocks n' (block st (take 64 bs)) (drop 64 bs)
  end.

Definition le_bytes (n : nat) (z : Z) : list Z :=
  map (fun k => Z.land (Z.shiftr z (8 * Z.of_nat k)) 255) (seq 0 n).

Definition pad (msg : list Z) : list Z :=
  let len := Z.of_nat (length msg) in
  let zeros := Z.to_nat ((55 - len) mod 64) in
  msg ++ [128] ++ replicate zeros 0 ++ le_bytes 8 (8 * len).

Definition hex_digit (z : Z) : ascii :=
  ascii_of_nat (Z.to_nat (if z <? 10 then 48 + z else 87 + z)).

Definition hex_byte (b : Z) : string :=
  String (hex_digit (b / 16)) (String (hex_digit (b mod 16)) EmptyString).

Definition bytes_of_string (s : string) : list Z :=
  map (fun c => Z.of_nat (nat_of_ascii c)) (list_ascii_of_string s).

Definition digest (s : string) : string :=
  let padded := pad (bytes_of_string s) in
  let st := blocks (length padded / 64) init padded in
  String.concat ""
    (map hex_byte (le_bytes 4 (sa st) ++ le_bytes 4 (sb st)
                   ++ le_bytes 4 (sc st) ++ le_bytes 4 (sd st))).

End MD5.

(** ** Files, cache entries and the vault *)

Record TFile : Type := {
  path : string;
  basename : string;
  extension : string;
  size : Z;     (* [file.stat.size] *)
  mtime : Z     (* [file.stat.mtime] *)
}.

(** What [PDFParser.parseFile] stores: a [Pdf4llmResponse] and the options
    the text was extracted with. *)
Record CacheEntry : Type := {
  response : string;
  elapsed_time_ms : Z;
  options : option PDFProcessingOptions
}.

(** [Object.keys(options).length === 0] *)
Definition no_keys (o : PDFProcessingOptions) : bool :=
  match o with
  | {| pageRange := None; maxPages := None; searchTerms := None; chapters := None;
       maxCharacters := None; contextWindow := None; minRelevanceScore := None;
       extractImages := None; preserveStructure := None |} => true
  | _ => false
  end.

(** Asynchronous code that talks to the vault: a function of the state of
    the vault that returns a value or throws, and the state it leaves. *)
Definition IO (W A : Type) : Type := W → Result A * W.

Definition io_ret {W A} (a : A) : IO W A := fun w => (Ok a, w).

Definition io_bind {W A B} (m : IO W A) (k : A → IO W B) : IO W B :=
  fun w => match m w with
           | (Ok a, w') => k a w'
           | (Throw e, w') => (Throw e, w')
           end.

Definition io_try {W A} (body : IO W A) (handler : string → IO W A) : IO W A :=
  fun w => match body w with
           | (Ok a, w') => (Ok a, w')
           | (Throw e, w') => handler e w'
           end.

(** A synchronous call that may throw. *)
Definition io_lift {W A} (r : Result A) : IO W A := fun w => (r, w).

Declare Scope io_scope.
Delimit Scope io_scope with io.
Notation "'await' x ':=' m 'in' k" := (io_bind m (fun x => k))
  (at level 10, x pattern, m at level 100, k at level 200, only parsing) : io_scope.
Notation "'run' m 'in' k" := (io_bind m (fun _ => k))
  (at level 10, m at level 100, k at level 200, only parsing) : io_scope.

(** The filesystem collaborator, [app.vault.adapter] and [vault]. *)
Record Vault (W : Type) : Type := {
  adapter_exists : string → IO W bool;
  adapter_mkdir : string → IO W unit;
  adapter_read : string → IO W string;
  adapter_write : string → string → IO W unit;
  readBinary : TFile → IO W string
}.
Arguments adapter_exists {W}.
Arguments adapter_mkdir {W}.
Arguments adapter_read {W}.
Arguments adapter_write {W}.
Arguments readBinary {W}.

(** ** [PDFCache] *)

Module PDFCache.

Definition cacheDir : string := ".copilot/pdf-cache".

(** The template [`${file.path}:${file.stat.size}:${file.stat.mtime}`]. *)
Definition fileMetadata (file : TFile) : string :=
  path file +:+ ":" +:+ JS.string_of_Z (size file) +:+ ":" +:+ JS.string_of_Z (mtime file).

Definition getCacheKey (file : TFile) : string := MD5.digest (fileMetadata file).

Definition getCachePath (cacheKey : string) : string :=
  cacheDir +:+ "/" +:+ cacheKey +:+ ".json".

Section Adapter.

Context {W : Type}.
Variable vault : Vault W.

(** [JSON.stringify] and [JSON.parse] of the runtime. [parseEntry] throws
    on text that is not JSON and returns [None] for the JSON value
    [null]. *)
Variable stringifyEntry : CacheEntry → string.
Variable parseEntry : string → Result (option CacheEntry).

Local Open Scope io_scope.

Definition ensureCacheDir : IO W unit :=
  await present := adapter_exists vault cacheDir in
  if present then io_ret tt else adapter_mkdir vault cacheDir.

Definition getWithKey (cacheKey : string) : IO W (option CacheEntry) :=
  io_try
    (let cachePath := getCachePath cacheKey in
     await present := adapter_exists vault cachePath in
     if present then
       await cacheContent := adapter_read vault cachePath in
       io_lift (parseEntry cacheContent)
     else io_ret None)
    (fun _ => io_ret None).

Definition get (file : TFile) : IO W (option CacheEntry) :=
  io_try
    (let cacheKey := getCacheKey file in
     let cachePath := getCachePath cacheKey in
     await present := adapter_exists vault cachePath in
     if present then
       await cacheContent := adapter_read vault cachePath in
       io_lift (parseEntry cacheContent)
     else io_ret None)
    (fun _ => io_ret None).

Definition setWithKey (cacheKey : string) (response : CacheEntry) : IO W unit :=
  io_try
    (run ensureCacheDir in
     let cachePath := getCachePath cacheKey in
     adapter_write vault cachePath (stringifyEntry response))
    (fun _ => io_ret tt).

Definition set (file : TFile) (response : CacheEntry) : IO W unit :=
  io_try
    (run ensureCacheDir in
     let cacheKey := getCacheKey file in
     let cachePath := getCachePath cacheKey in
     adapter_write vault cachePath (stringifyEntry response))
    (fun _ => io_ret tt).

End Adapter.

End PDFCache.

(** ** [PDFParser], the parsing facade for PDF files *)

Module PDFParser.

Definition limits (maxPages maxCharacters : Z) : PDFProcessingOptions :=
  {| pageRange := None; maxPages := Some (Int maxPages); searchTerms := None;
     chapters := None; maxCharacters := Some (Int maxCharacters); contextWindow := None;
     minRelevanceScore := None; extractImages := None; preserveStructure := None |}.

(** [sizeMB > 50] with [sizeMB = fileSize / (1024 * 1024)] is written on
    the bytes: dividing by a power of two is exact. *)
Definition getProcessingOptions (fileSize : Z) (userOptions : option PDFProcessingOptions)
    : PDFProcessingOptions :=
  let auto :=
    if 50 * (1024 * 1024) <? fileSize then limits 20 50000
    else if 10 * (1024 * 1024) <? fileSize then limits 50 100000
    else no_options in
  match userOptions with
  | None => auto
  | Some o => if no_keys o then auto else o
  end.

Definition errorText (file : TFile) (message : string) : string :=
  "[Error: Could not extract content from PDF " +:+ basename file +:+ ". " +:+ message +:+ "]".

Section Facade.

Context {W : Type}.
Variable vault : Vault W.
Variable stringifyEntry : CacheEntry → string.
Variable parseEntry : string → Result (option CacheEntry).

(** [JSON.stringify(options)] *)
Variable stringifyOptions : PDFProcessingOptions → string.

(** The two extraction entry points,
    [SelectivePDFParser.extractTextFromPDF] and
    [LocalPDFParser.extractTextFromPDF]. *)
Variable selectiveExtract : string → PDFProcessingOptions → Result string.
Variable localExtract : string → Result string.

Local Open Scope io_scope.

Definition getCacheKeyWithOptions (file : TFile) (options : option PDFProcessingOptions)
    : string :=
  let baseKey := PDFCache.fileMetadata file in
  match options with
  | None => baseKey
  | Some o => if no_keys o then baseKey else baseKey +:+ ":" +:+ stringifyOptions o
  end.

Definition parseFile (file : TFile) (options : option PDFProcessingOptions) : IO W string :=
  io_try
    (let cacheKey := getCacheKeyWithOptions file options in
     await cachedResponse := PDFCache.getWithKey vault parseEntry cacheKey in
     match cachedResponse with
     | Some cached => io_ret (response cached)
     | None =>
         let fileSize := size file in
         let finalOptions := getProcessingOptions fileSize options in
         await binaryContent := readBinary vault file in
         await extractedText :=
           io_lift (if negb (no_keys finalOptions)
                    then selectiveExtract binaryContent finalOptions
                    else localExtract binaryContent) in
         let response := {| response := extractedText; elapsed_time_ms := 0;
                            options := Some finalOptions |} in
         run PDFCache.setWithKey vault stringifyEntry cacheKey response in
         io_ret extractedText
     end)
    (fun message => io_ret (errorText file message)).

End Facade.

End PDFParser.

(** ** The other parsers and [FileParserManager] *)

Module FileParserManager.

(** The classes that implement [FileParser]; [PdfParser] stands for the class
    [PDFParser] above, and a [Docs4LLMParser] holds its [currentProject]. *)
Inductive FileParser (ProjectConfig : Type) : Type :=
  | MarkdownParser
  | PdfParser
  | CanvasParser
  | Docs4LLMParser (currentProject : option ProjectConfig).
Arguments MarkdownParser {ProjectConfig}.
Arguments PdfParser {ProjectConfig}.
Arguments CanvasParser {ProjectConfig}.
Arguments Docs4LLMParser {ProjectConfig}.

Definition supportedExtensions {ProjectConfig} (parser : FileParser ProjectConfig) : list string :=
  match parser with
  | MarkdownParser => ["md"]
  | PdfParser => ["pdf"]
  | CanvasParser => ["canvas"]
  | Docs4LLMParser _ => ["pdf"]
  end.

(** [registerParser]: [this.parsers.set(ext, parser)] for every extension. *)
Definition registerParser {ProjectConfig}
    (parsers : gmap string (FileParser ProjectConfig)) (parser : FileParser ProjectConfig)
    : gmap string (FileParser ProjectConfig) :=
  foldl (fun parsers ext => <[ext := parser]> parsers) parsers (supportedExtensions parser).

(** The constructor. *)
Definition new {ProjectConfig} (isProjectMode : bool) (project : option ProjectConfig)
    : gmap string (FileParser ProjectConfig) :=
  let parsers := registerParser ∅ MarkdownParser in
  let parsers := if isProjectMode then registerParser parsers (Docs4LLMParser project)
                 else parsers in
  let parsers := if negb isProjectMode then registerParser parsers PdfParser else parsers in
  registerParser parsers CanvasParser.

Definition supportsExtension {ProjectConfig}
    (parsers : gmap string (FileParser ProjectConfig)) (extension : string) : bool :=
  bool_decide (is_Some (parsers !! extension)).

Section Parsers.

Context {W ProjectConfig : Type}.
Variable vault : Vault W.

(** [vault.read(file)] *)
Variable vault_read : TFile → IO W string.

(** [new CanvasLoader(vault).load(file)] followed by [buildPrompt]. *)
Variable canvasPrompt : TFile → IO W string.

(** [ProjectContextCache.getFileContext] and [setFileContext]; [None] is an
    answer of [null] or [undefined]. *)
Variable getFileContext : ProjectConfig → string → IO W (option string).
Variable setFileContext : ProjectConfig → string → string → IO W unit.

Variable stringifyEntry : CacheEntry → string.
Variable parseEntry : string → Result (option CacheEntry).
Variable stringifyOptions : PDFProcessingOptions → string.
Variable selectiveExtract : string → PDFProcessingOptions → Result string.
Variable localExtract : string → Result string.

Local Open Scope io_scope.

(** [MarkdownParser.parseFile] *)
Definition markdown_parseFile (file : TFile) : IO W string := vault_read file.

(** [CanvasParser.parseFile] *)
Definition canvas_parseFile (file : TFile) : IO W string :=
  io_try (canvasPrompt file)
         (fun _ => io_ret ("[Error: Could not parse Canvas file " +:+ basename file +:+ "]")).

(** [options && Object.keys(options).length > 0] *)
Definition given (options : option PDFProcessingOptions) : option PDFProcessingOptions :=
  match options with
  | Some o => if no_keys o then None else Some o
  | None => None
  end.

(** [Docs4LLMParser.parseFile]; a cached text that is empty is not used. *)
Definition docs4llm_parseFile (currentProject : option ProjectConfig)
    (file : TFile) (options : option PDFProcessingOptions) : IO W string :=
  io_try
    (match currentProject with
     | None => io_lift (Throw "No project context provided for file parsing")
     | Some project =>
         let cacheKey := match given options with
                         | Some o => path file +:+ ":" +:+ stringifyOptions o
                         | None => path file
                         end in
         await cachedContent := getFileContext project cacheKey in
         match cachedContent with
         | Some (String c r) => io_ret (String c r)
         | _ =>
             await binaryContent := readBinary vault file in
             await localText :=
               io_lift (match given options with
                        | Some o => selectiveExtract binaryContent o
                        | None => localExtract binaryContent
                        end) in
             run setFileContext project cacheKey localText in
             io_ret localText
         end
     end)
    (fun _ => io_ret ("[Error: Could not extract content from " +:+ basename file +:+ "]")).

(** [parser.parseFile(file, vault, options)] *)
Definition parser_parseFile (parser : FileParser ProjectConfig)
    (file : TFile) (options : option PDFProcessingOptions) : IO W string :=
  match parser with
  | MarkdownParser => markdown_parseFile file
  | PdfParser =>
      PDFParser.parseFile vault stringifyEntry parseEntry stringifyOptions
        selectiveExtract localExtract file options
  | CanvasParser => canvas_parseFile file
  | Docs4LLMParser currentProject => docs4llm_parseFile currentProject file options
  end.

(** [FileParserManager.parseFile] *)
Definition parseFile (parsers : gmap string (FileParser ProjectConfig))
    (file : TFile) (options : option PDFProcessingOptions) : IO W string :=
  match parsers !! extension file with
  | None => io_lift (Throw ("No parser found for file type: " +:+ extension file))
  | Some parser => parser_parseFile parser file options
  end.

End Parsers.

End FileParserManager.

(** ** An in-memory vault *)

(** Modelled from the spec: the filesystem collaborator belongs to the host
    application and is not in the sources; its interface is [exists(path)],
    [mkdir(path)], [read(path)], [write(path, bytes)]. Here a vault is a finite
    map from paths to contents and a set of directories; [read] throws on a
    path that holds no file, [write] replaces the whole content. *)
Module MemVault.

Record FS : Type := {
  files : gmap string string;
  dirs : gset string
}.

Definition fs_exists (p : string) : IO FS bool :=
  fun w => (Ok (bool_decide (is_Some (files w !! p)) || bool_decide (p ∈ dirs w)), w).

Definition fs_mkdir (p : string) : IO FS unit :=
  fun w => (Ok tt, {| files := files w; dirs := {[p]} ∪ dirs w |}).

Definition fs_read (p : string) : IO FS string :=
  fun w => match files w !! p with
           | Some data => (Ok data, w)
           | None => (Throw ("ENOENT: no such file or directory, open " +:+ p), w)
           end.

Definition fs_write (p data : string) : IO FS unit :=
  fun w => (Ok tt, {| files := <[p := data]> (files w); dirs := dirs w |}).

Definition vault : Vault FS :=
  {| adapter_exists := fs_exists;
     adapter_mkdir := fs_mkdir;
     adapter_read := fs_read;
     adapter_write := fs_write;
     readBinary := fun file => fs_read (path file) |}.

(** No blob is stored for [cacheKey]. *)
Definition no_blob (cacheKey : string) (w : FS) : Prop :=
  files w !! PDFCache.getCachePath cacheKey = None
  ∧ PDFCache.getCachePath cacheKey ∉ dirs w.

End MemVault.

(** ** [ContextProcessor.parseEmbedOptions] *)

Module ContextProcessor.

(** What [parseInt] returns: [NaN], an integer that is a double, or an
    infinity. (The zero that [parseInt] returns for a negated zero is not told
    apart from zero.) *)
Inductive Number : Type :=
  | NotANumber
  | Finite (value : Z)
  | Infinity (negative : bool).

(** The double nearest to an integer: an integer of at most 53 bits is a
    double; a longer one keeps its 53 leading bits, rounded to the nearest
    and, half way, to the even one; what reaches 2^1024 is infinite. *)
Definition to_double (z : Z) : Number :=
  let a := Z.abs z in
  let e := Z.log2 a in
  if e <? 53 then Finite z
  else
    let shift := e - 52 in
    let q := Z.shiftr a shift in
    let r := Z.land a (Z.ones shift) in
    let half := Z.shiftl 1 (shift - 1) in
    let q := if (half <? r) || ((r =? half) && Z.odd q) then q + 1 else q in
    let v := Z.shiftl q shift in
    if Z.shiftl 1 1024 <=? v then Infinity (z <? 0) else Finite (Z.sgn z * v).

(** The object [{ start, end }] that a [pages] part stores. *)
Record Range : Type := { range_start : Number; range_end : Number }.

(** The object that [parseEmbedOptions] builds. It is typed [any] in the
    source: a term or chapter name is [undefined] (here [None]) when the
    part has no colon. *)
Record EmbedOptions : Type := {
  pageRange : option Range;
  searchTerms : option (list (option string));
  chapters : option (list (option string));
  maxPages : option Number;
  maxCharacters : option Number
}.

Definition empty : EmbedOptions :=
  {| pageRange := None; searchTerms := None; chapters := None;
     maxPages := None; maxCharacters := None |}.

Definition hex_val (c : ascii) : option Z :=
  let n := Z.of_nat (nat_of_ascii c) in
  if (48 <=? n) && (n <=? 57) then Some (n - 48)
  else if (97 <=? n) && (n <=? 102) then Some (n - 87)
  else if (65 <=? n) && (n <=? 70) then Some (n - 55)
  else None.

Fixpoint hex_value (acc : option Z) (s : string) : option Z :=
  match s with
  | EmptyString => acc
  | String c r =>
      match hex_val c with
      | Some d => hex_value (Some (16 * default 0 acc + d)) r
      | None => acc
      end
  end.

(** The text behind the prefix [0x] or [0X], when there is one. *)
Definition hex_prefix (s : string) : option string :=
  match s with
  | String c (String x r) =>
      if Ascii.eqb c "0" && (Ascii.eqb x "x" || Ascii.eqb x "X") then Some r else None
  | _ => None
  end.

(** [parseInt(s)] without a radix: leading white space, a sign, the prefix
    [0x] for hexadecimal, then the longest run of digits; [NaN] when there
    is none. The number read is returned as a double. *)
Definition parseInt (s : string) : Number :=
  let s := JS.trimStart s in
  let '(sign, s) :=
    match s with
    | String c r =>
        if Ascii.eqb c "-" then (-1, r) else if Ascii.eqb c "+" then (1, r) else (1, s)
    | EmptyString => (1, s)
    end in
  match hex_prefix s with
  | Some r =>
      match hex_value None r with
      | Some v => to_double (sign * v)
      | None => NotANumber
      end
  | None =>
      match JS.span_digits s with
      | (EmptyString, _) => NotANumber
      | (d, _) => to_double (sign * JS.decimal_value 0 d)
      end
  end.

(** [parseInt(value)] for a value that may be [undefined]. *)
Definition parseIntValue (value : option string) : Number :=
  match value with
  | Some v => parseInt v
  | None => NotANumber
  end.

(** [/(\d+)-(\d+)/] matched at the start of [s]: both groups are greedy. *)
Definition pages_here (s : string) : option (string * string) :=
  match JS.span_digits s with
  | (String c d1, String "-" r) =>
      match JS.span_digits r with
      | (String c2 d2, _) => Some (String c d1, String c2 d2)
      | _ => None
      end
  | _ => None
  end.

(** [value.match(/(\d+)-(\d+)/)]: the leftmost match. *)
Fixpoint pageMatch (value : string) : option (string * string) :=
  match pages_here value with
  | Some m => Some m
  | None => match value with
            | EmptyString => None
            | String _ r => pageMatch r
            end
  end.

(** [const [key, value] = part.split(":").map((s) => s.trim())] *)
Definition key_value (part : string) : string * option string :=
  match map JS.trim (JS.split ":" part) with
  | [] => (EmptyString, None)
  | [key] => (key, None)
  | key :: value :: _ => (key, Some value)
  end.

(** The assignments [options.pageRange = ...] and the like. *)
Definition set_pageRange (options : EmbedOptions) (range : Range) : EmbedOptions :=
  {| pageRange := Some range; searchTerms := searchTerms options;
     chapters := chapters options; maxPages := maxPages options;
     maxCharacters := maxCharacters options |}.

Definition set_searchTerms (options : EmbedOptions) (terms : list (option string))
    : EmbedOptions :=
  {| pageRange := pageRange options; searchTerms := Some terms;
     chapters := chapters options; maxPages := maxPages options;
     maxCharacters := maxCharacters options |}.

Definition set_chapters (options : EmbedOptions) (names : list (option string))
    : EmbedOptions :=
  {| pageRange := pageRange options; searchTerms := searchTerms options;
     chapters := Some names; maxPages := maxPages options;
     maxCharacters := maxCharacters options |}.

Definition set_maxPages (options : EmbedOptions) (n : Number) : EmbedOptions :=
  {| pageRange := pageRange options; searchTerms := searchTerms options;
     chapters := chapters options; maxPages := Some n;
     maxCharacters := maxCharacters options |}.

Definition set_maxCharacters (options : EmbedOptions) (n : Number) : EmbedOptions :=
  {| pageRange := pageRange options; searchTerms := searchTerms options;
     chapters := chapters options; maxPages := maxPages options;
     maxCharacters := Some n |}.

(** The body of the loop over the parts: the [switch] on the lower-cased
    key. *)
Definition applyPart (options : EmbedOptions) (part : string) : Result EmbedOptions :=
  let '(key, value) := key_value part in
  let key := JS.toLowerCase key in
  if decide (key = "pages") then
    match value with
    | None => Throw "Cannot read properties of undefined (reading 'match')"
    | Some value =>
        match pageMatch value with
        | Some (s, e) =>
            Ok (set_pageRange options {| range_start := parseInt s;
                                         range_end := parseInt e |})
        | None => Ok options
        end
    end
  else if decide (key = "search") then Ok (set_searchTerms options [value])
  else if decide (key = "chapter" ∨ key = "chapters") then Ok (set_chapters options [value])
  else if decide (key = "max") then Ok (set_maxPages options (parseIntValue value))
  else if decide (key = "chars" ∨ key = "characters")
       then Ok (set_maxCharacters options (parseIntValue value))
  else Ok options.

Definition applyParts (options : EmbedOptions) (parts : list string) : Result EmbedOptions :=
  foldl (fun acc part => o ← acc; applyPart o part) (Ok options) parts.

Definition parseEmbedOptions (optionsString : option string) : Result EmbedOptions :=
  match optionsString with
  | None => Ok empty
  | Some EmptyString => Ok empty
  | Some s => applyParts empty (JS.split "," s)
  end.

(** The keys that the [switch] has a case for. *)
Definition recognized (key : string) : bool :=
  bool_decide (key ∈ ["pages"; "search"; "chapter"; "chapters"; "max"; "chars"; "characters"]).

(** A part with a key that has no case, or a [pages] part whose value
    holds no digits, dash, digits. *)
Definition ignored (part : string) : bool :=
  let '(key, value) := key_value part in
  let key := JS.toLowerCase key in
  if recognized key then
    match value with
    | Some v => bool_decide (key = "pages") && bool_decide (pageMatch v = None)
    | None => false
    end
  else true.

Fixpoint all_digits (s : string) : bool :=
  match s with
  | EmptyString => true
  | String c r => JS.is_digit c && all_digits r
  end.

(** A value that begins with the decimal number [digits]: a run of digits
    that is not empty, followed by [rest], which does not go on with a digit
    and does not make the run the hexadecimal prefix [0x]. *)
Definition leading_number (digits rest : string) : Prop :=
  all_digits digits = true ∧ digits ≠ ""
  ∧ match rest with
    | String c _ => JS.is_digit c = false ∧ (digits = "0" → c ≠ "x"%char ∧ c ≠ "X"%char)
    | EmptyString => True
    end.

(** [processContextNotes]. The parser manager is used through its two
    methods, [supportsExtension] and [parseFile] without options;
    [processEmbeddedPDFs] is the method of this class applied to the text of
    a markdown note, and [NOTE_CONTEXT_PROMPT_TAG] the constant of that
    name. *)
Section Notes.

Context {W : Type}.
Variable NOTE_CONTEXT_PROMPT_TAG : string.
Variable supportsExtension : string → bool.
Variable parseFile : TFile → IO W string.
Variable processEmbeddedPDFs : string → IO W string.

Local Open Scope io_scope.

Definition note_block (prompt_tag : string) (note : TFile) (content : string) : string :=
  JS.LF +:+ JS.LF +:+ " <" +:+ prompt_tag +:+ "> " +:+ JS.LF +:+ " Title: [["
    +:+ basename note +:+ "]]" +:+ JS.LF +:+ "Path: " +:+ path note +:+ JS.LF +:+ JS.LF
    +:+ content +:+ JS.LF +:+ "</" +:+ prompt_tag +:+ ">".

Definition note_error_block (prompt_tag : string) (note : TFile) : string :=
  JS.LF +:+ JS.LF +:+ " <" +:+ prompt_tag +:+ "_error> " +:+ JS.LF +:+ " Title: [["
    +:+ basename note +:+ "]]" +:+ JS.LF +:+ "Path: " +:+ path note +:+ JS.LF +:+ JS.LF
    +:+ "[Error: Could not process file]" +:+ JS.LF +:+ "</" +:+ prompt_tag +:+ "_error>".

(** The closure [processNote]; [additionalContext] is passed in and
    returned. *)
Definition processNote (excludedNotePaths : gset string) (note : TFile) (prompt_tag : string)
    (additionalContext : string) : IO W string :=
  io_try
    (if bool_decide (path note ∈ excludedNotePaths) then io_ret additionalContext
     else if negb (supportsExtension (extension note)) then io_ret additionalContext
     else
       await content := parseFile note in
       await content :=
         (if decide (extension note = "md") then processEmbeddedPDFs content
          else io_ret content) in
       io_ret (additionalContext +:+ note_block prompt_tag note content))
    (fun _ => io_ret (additionalContext +:+ note_error_block prompt_tag note)).

(** [for (const note of contextNotes)] *)
Fixpoint notes_loop (excludedNotePaths : gset string) (contextNotes : list TFile)
    (includedFilePaths : gset string) (additionalContext : string) : IO W string :=
  match contextNotes with
  | [] => io_ret additionalContext
  | note :: rest =>
      if bool_decide (path note ∈ includedFilePaths)
      then notes_loop excludedNotePaths rest includedFilePaths additionalContext
      else
        await additionalContext :=
          processNote excludedNotePaths note NOTE_CONTEXT_PROMPT_TAG additionalContext in
        notes_loop excludedNotePaths rest ({[path note]} ∪ includedFilePaths) additionalContext
  end.

Definition processContextNotes (excludedNotePaths : gset string) (contextNotes : list TFile)
    (includeActiveNote : bool) (activeNote : option TFile) : IO W string :=
  match includeActiveNote, activeNote with
  | true, Some active =>
      await additionalContext := processNote excludedNotePaths active "active_note" "" in
      notes_loop excludedNotePaths contextNotes {[path active]} additionalContext
  | _, _ => notes_loop excludedNotePaths contextNotes ∅ ""
  end.

End Notes.

End ContextProcessor.

(** ** Sample documents *)

Module Samples.

Definition metadata_of (text : string) : PageMetadata :=
  {| wordCount := 1; avgWordLength := Z.of_nat (String.length text) # 1;
     hasNumbers := false; hasReferences := false;
     textDensity := 1 # Pos.of_nat (String.length text) |}.

(** One paragraph, set near the top of the page. *)
Definition paragraph_of (text : string) : TextSection :=
  {| type := paragraph; ts_content := text; level := None;
     position := {| pos_x := 72; pos_y := 700; pos_width := 200; pos_height := 12 |} |}.

Definition page_of (text : string) : PageStructure :=
  {| ps_content := text; ps_sections := [paragraph_of text]; ps_hasImages := false;
     ps_metadata := metadata_of text |}.

(** A document without outline whose page [n] consists of one paragraph,
    the [n]-th text of [texts]. *)
Definition text_of (texts : list string) (n : Z) : option string :=
  if 1 <=? n then texts !! Z.to_nat (n - 1) else None.

Definition doc_of (texts : list string) : PDFDoc :=
  {| numPages := Z.of_nat (length texts);
     textItems := fun n => match text_of texts n with
                           | Some text => Ok [text]
                           | None => Throw "Invalid page request"
                           end;
     textStructure := fun n _ =>
       (fun text => (text, [paragraph_of text], metadata_of text)) <$> text_of texts n;
     paintsImage := fun _ => false;
     getOutline := Ok None |}.

Definition ten_pages : PDFDoc :=
  doc_of ["one"; "two"; "three"; "four"; "five"; "six"; "seven"; "eight"; "nine"; "ten"].

Definition page_ten (n : Z) : PageStructure :=
  page_of (default "" (text_of ["one"; "two"; "three"; "four"; "five"; "six"; "seven";
                                "eight"; "nine"; "ten"] n)).

Definition two_pages : PDFDoc := doc_of ["aaaaaa"; "bbbbbb"].

(** The options [{ maxCharacters: 10 }]. *)
Definition ten_characters : PDFProcessingOptions :=
  {| pageRange := None; maxPages := None; searchTerms := None; chapters := None;
     maxCharacters := Some (Int 10); contextWindow := None; minRelevanceScore := None;
     extractImages := None; preserveStructure := None |}.

(** Two sections of the ten pages, as an outline would give them. *)
Definition two_sections : list PDFSection :=
  [ {| title := "Opening"; startPage := 1; endPage := 2; sec_content := ""; confidence := 1 |};
    {| title := "Closing"; startPage := 9; endPage := 10; sec_content := ""; confidence := 1 |} ].

Definition report : TFile :=
  {| path := "notes/report.pdf"; basename := "report"; extension := "pdf";
     size := 1024; mtime := 1700000000000 |}.

(** A stand-in for the JSON codec of the runtime on entries that hold a
    text, no elapsed time and no options: the text itself. *)
Definition encode (entry : CacheEntry) : string := response entry.

Definition decode (data : string) : Result (option CacheEntry) :=
  Ok (Some {| response := data; elapsed_time_ms := 0; options := None |}).

Definition entry : CacheEntry :=
  {| response := "--- Page 1 ---"; elapsed_time_ms := 0; options := None |}.

(** The same stand-in for the entries that [parseFile] writes for a small
    file read without options: the options stored are [{}]. *)
Definition decode_plain (data : string) : Result (option CacheEntry) :=
  Ok (Some {| response := data; elapsed_time_ms := 0; options := Some no_options |}).

(** A vault that holds the report and no cache. *)
Definition vault_with_report : MemVault.FS :=
  {| MemVault.files := {[ "notes/report.pdf" := "%PDF-1.7" ]}; MemVault.dirs := ∅ |}.

(** The same report in a vault with other notes and an empty cache
    directory. *)
Definition busy_vault : MemVault.FS :=
  {| MemVault.files := {[ "notes/report.pdf" := "%PDF-1.7"; "notes/todo.md" := "- read" ]};
     MemVault.dirs := {[ ".copilot/pdf-cache" ]} |}.

(** The report after it was edited: a later modification time. *)
Definition edited_report : TFile :=
  {| path := "notes/report.pdf"; basename := "report"; extension := "pdf";
     size := 1024; mtime := 1700000000001 |}.

(** A vault in which the blob of the report is cut off. *)
Definition vault_with_corrupt_blob : MemVault.FS :=
  {| MemVault.files :=
       {[ "notes/report.pdf" := "%PDF-1.7";
          ".copilot/pdf-cache/notes/report.pdf:1024:1700000000000.json" := "{" ]};
     MemVault.dirs := {[ ".copilot/pdf-cache" ]} |}.

(** A renderer that opens every document as the ten pages. *)
Definition renderer (bytes : string) : Result PDFDoc := Ok ten_pages.


End Samples.

(** ** Notions used in the statements *)

(** The header of a page that carries no relevance annotation. *)
Definition plainHeader (n : Z) (images : bool) : string :=
  JS.LF +:+ JS.LF +:+ "--- Page " +:+ JS.string_of_Z n
    +:+ (if images then " [Contains Images]" else "") +:+ " ---" +:+ JS.LF.

(** The Levenshtein distance between the first [i] characters of [str1] and
    the first [j] characters of [str2], by its recurrence: a prefix is at
    distance of its length from the empty prefix; otherwise the last
    character is deleted, inserted or substituted (at no cost when the two
    last characters are equal), whichever is cheapest. *)
Fixpoint lev_prefix (str1 str2 : string) (i j : nat) {struct i} : Z :=
  match i with
  | O => Z.of_nat j
  | S i' =>
      (fix row (j : nat) : Z :=
         match j with
         | O => Z.of_nat i
         | S j' =>
             Z.min (Z.min (lev_prefix str1 str2 i' j + 1) (row j' + 1))
                   (lev_prefix str1 str2 i' j'
                    + (if decide (String.get i' str1 = String.get j' str2) then 0 else 1))
         end) j
  end.

Definition editDistance (str1 str2 : string) : Z :=
  lev_prefix str1 str2 (String.length str1) (String.length str2).

(** A matrix of [r] rows and [c] columns. *)
Definition dims (m : SelectivePDFParser.Matrix) (r c : nat) : Prop :=
  length m = r ∧ Forall (fun row => length row = c) m.

(** The cells that hold their final value when the double loop of
    [levenshteinDistance] is about to write row [J], column [I]: the first
    row and column, the rows above [J] and the cells of row [J] before [I]. *)
Definition filled (str1 str2 : string) (m : SelectivePDFParser.Matrix) (J I : nat) : Prop :=
  dims m (String.length str2 + 1) (String.length str1 + 1)
  ∧ ∀ j i, (j ≤ String.length str2)%nat → (i ≤ String.length str1)%nat →
      (j < J ∨ (j = J ∧ i < I) ∨ i = 0 ∨ j = 0)%nat →
      SelectivePDFParser.cell m j i = lev_prefix str1 str2 i j.

(** [!(names?.length)]: the list is absent or empty. *)
Definition no_names (names : option (list string)) : bool :=
  match names with
  | None | Some [] => true
  | Some (_ :: _) => false
  end.

(** A page that the first pass of the search strategy does not keep: it
    cannot be extracted, or its score is [NaN] or below [minRelevance]. *)
Definition not_kept
    (regexCount : string → string → Result nat) (Math_log : Z → Q) (fl : Q → Q)
    (pdf : PDFDoc) (searchTerms : list string) (minRelevance : Q)
    (options : PDFProcessingOptions) (n : Z) : Prop :=
  match SelectivePDFParser.extractPageWithStructure pdf n options with
  | None => True
  | Some p =>
      match SelectivePDFParser.calculateEnhancedRelevance regexCount Math_log fl p searchTerms with
      | Ok None => True
      | Ok (Some r) => Qle_bool minRelevance r = false
      | Throw _ => False
      end
  end.

(** The number of characters that a list of pages holds. *)
Definition total_length (pages : list PageContent) : Z :=
  foldr (fun pg acc => Z.of_nat (String.length (content pg)) + acc) 0 pages.

(** What a run of [parseFile] returns when nothing is cached for the key, as
    a function of the bytes of the file ([None] when the vault holds no such
    file) and of the options. *)
Definition uncached_text
    (selective : string → PDFProcessingOptions → Result string)
    (local : string → Result string)
    (file : TFile) (options : option PDFProcessingOptions) (bytes : option string) : string :=
  match bytes with
  | Some binaryContent =>
      let finalOptions := PDFParser.getProcessingOptions (size file) options in
      match (if negb (no_keys finalOptions) then selective binaryContent finalOptions
             else local binaryContent) with
      | Ok text => text
      | Throw message => PDFParser.errorText file message
      end
  | None =>
      PDFParser.errorText file ("ENOENT: no such file or directory, open " +:+ path file)
  end.

(** The number of pages that a list of sections spans. *)
Definition section_pages (sections : list PDFSection) : Z :=
  foldr (fun s acc => (endPage s - startPage s + 1) + acc) 0 sections.

(** What one part of an options string says about each field of the
    options: [None] when the part does not set the field. *)
Definition part_key (part : string) : string :=
  JS.toLowerCase (ContextProcessor.key_value part).1.

Definition part_value (part : string) : option string :=
  (ContextProcessor.key_value part).2.

Definition pages_of (part : string) : option ContextProcessor.Range :=
  if decide (part_key part = "pages") then
    value ← part_value part;
    m ← ContextProcessor.pageMatch value;
    Some {| ContextProcessor.range_start := ContextProcessor.parseInt m.1;
            ContextProcessor.range_end := ContextProcessor.parseInt m.2 |}
  else None.

Definition search_of (part : string) : option (list (option string)) :=
  if decide (part_key part = "search") then Some [part_value part] else None.

Definition chapters_of (part : string) : option (list (option string)) :=
  if decide (part_key part = "chapter" ∨ part_key part = "chapters")
  then Some [part_value part] else None.

Definition max_of (part : string) : option ContextProcessor.Number :=
  if decide (part_key part = "max")
  then Some (ContextProcessor.parseIntValue (part_value part)) else None.

Definition chars_of (part : string) : option ContextProcessor.Number :=
  if decide (part_key part = "chars" ∨ part_key part = "characters")
  then Some (ContextProcessor.parseIntValue (part_value part)) else None.

(** A part that names the key [pages] and has no colon. *)
Definition bare_pages (part : string) : bool :=
  bool_decide (part_key part = "pages") && bool_decide (part_value part = None).

(** The notes of a list whose path is not in [seen] and has not come
    earlier in the list. *)
Fixpoint first_occurrences (seen : gset string) (notes : list TFile) : list TFile :=
  match notes with
  | [] => []
  | note :: rest =>
      if bool_decide (path note ∈ seen) then first_occurrences seen rest
      else note :: first_occurrences ({[path note]} ∪ seen) rest
  end.

(** The words of a text: its maximal runs of characters that are not white
    space, in order. *)
Definition starts_word (s : string) : bool :=
  match s with
  | String c _ => negb (JS.is_space c)
  | EmptyString => false
  end.

Definition push_char (c : ascii) (ws : list string) : list string :=
  match ws with
  | w :: rest => String c w :: rest
  | [] => [String c EmptyString]
  end.

Fixpoint words (s : string) : list string :=
  match s with
  | EmptyString => []
  | String c r =>
      if JS.is_space c then words r
      else if starts_word r then push_char c (words r)
      else String c EmptyString :: words r
  end.

(** The headers that open a section, as [detectSectionsFromText] meets
    them: the page and the text of every header of the first 20 pages that
    a section pattern accepts, in reading order. *)
Definition section_hits (sectionPatternTest : string → bool)
    (pdf : PDFDoc) (options : PDFProcessingOptions) : list (Z * string) :=
  pageNum ← SelectivePDFParser.page_loop 1 (Z.min 20 (numPages pdf));
  match SelectivePDFParser.extractPageWithStructure pdf pageNum options with
  | None => []
  | Some pageContent =>
      (fun hd => (pageNum, ts_content hd))
        <$> List.filter (fun hd => sectionPatternTest (ts_content hd))
              (SelectivePDFParser.headers (ps_sections pageContent))
  end.

(** One section per hit, from its page to the page before the next hit;
    the last one to the end of the document. *)
Fixpoint hit_sections (lastPage : Z) (hits : list (Z * string)) : list PDFSection :=
  match hits with
  | [] => []
  | hit :: rest =>
      {| title := hit.2; startPage := hit.1;
         endPage := match rest with
                    | next :: _ => next.1 - 1
                    | [] => lastPage
                    end;
         sec_content := ""; confidence := 8 # 10 |} :: hit_sections lastPage rest
  end.

(** The options with other limits: [maxPages] and [maxCharacters] replaced,
    everything else kept. *)
Definition with_limits (options : PDFProcessingOptions) (pages characters : option jsint)
    : PDFProcessingOptions :=
  {| pageRange := pageRange options; maxPages := pages;
     searchTerms := searchTerms options; chapters := chapters options;
     maxCharacters := characters; contextWindow := contextWindow options;
     minRelevanceScore := minRelevanceScore options;
     extractImages := extractImages options;
     preserveStructure := preserveStructure options |}.

(** A page that adds nothing to the text of [LocalPDFParser]: its items are
    read and hold no word. *)
Definition silent (pdf : PDFDoc) (pageNum : Z) : bool :=
  match textItems pdf pageNum with
  | Ok items => (String.length (LocalPDFParser.pageText items) =? 0)%nat
  | Throw _ => false
  end.

(** The text holds no colon. *)
Fixpoint no_colon (s : string) : bool :=
  match s with
  | EmptyString => true
  | String c r => negb (Ascii.eqb c ":") && no_colon r
  end.

(** What holds of every section that the page parser has closed, and of
    the one that is still open. *)
Definition closed_section (items : list PageParser.TextItem) (s : TextSection) : Prop :=
  ts_content s ≠ "" ∧ JS.trim (ts_content s) = ts_content s ∧ level s = None
  ∧ ∃ item, item ∈ items ∧ PageParser.itemText item ≠ ""
            ∧ position s = PageParser.itemPosition item.

Definition open_section_ok (items : list PageParser.TextItem) (s : TextSection) : Prop :=
  level s = None
  ∧ ∃ item, item ∈ items ∧ PageParser.itemText item ≠ ""
            ∧ position s = PageParser.itemPosition item.

(** The number of open sections: one or none. *)
Definition open_count (currentSection : option TextSection) : nat :=
  match currentSection with Some _ => 1 | None => 0 end.

(** The last character of the text is not white space. *)
Fixpoint ends_word (s : string) : bool :=
  match s with
  | EmptyString => false
  | String c EmptyString => negb (JS.is_space c)
  | String _ r => ends_word r
  end.

Fixpoint no_space (s : string) : bool :=
  match s with
  | EmptyString => true
  | String c r => negb (JS.is_space c) && no_space r
  end.

(** * Properties *)

(** ** Strings *)

Lemma append_cons (c : ascii) (s t : string) : String c s +:+ t = String c (s +:+ t).
Proof. reflexivity. Qed.

Lemma append_nil (t : string) : "" +:+ t = t.
Proof. reflexivity. Qed.

Lemma append_assoc (s t u : string) : (s +:+ t) +:+ u = s +:+ (t +:+ u).
Proof. induction s as [|c s IH]; [reflexivity|]. rewrite !append_cons. by rewrite IH. Qed.

Lemma append_empty_r (s : string) : s +:+ "" = s.
Proof. induction s as [|c s IH]; [reflexivity|]. rewrite append_cons. by rewrite IH. Qed.

Lemma startsWith_spec (p s : string) :
  JS.startsWith p s = true ↔ ∃ post, s = p +:+ post.
Proof.
  revert s. induction p as [|a p IH]; intros s; simpl.
  - split; [intros _; by exists s | done].
  - destruct s as [|b s]; simpl.
    + split; [done | intros [post H]; discriminate H].
    + destruct (Ascii.eqb_spec a b) as [->|Hne].
      * rewrite IH. split; intros [post H]; exists post;
          rewrite append_cons in *; congruence.
      * split; [done | intros [post H]; rewrite append_cons in H; congruence].
Qed.

(** [includes] is containment: the pattern occurs somewhere in the text. *)
Lemma includes_spec (s p : string) :
  JS.includes s p = true ↔ ∃ pre post, s = pre +:+ p +:+ post.
Proof.
  induction s as [|c s IH]; simpl.
  - destruct (JS.startsWith p "") eqn:E.
    + apply startsWith_spec in E as [post E]. split; [|done].
      intros _. exists "", post. done.
    + split; [done|]. intros ([|? pre] & post & H); simpl in H; [|discriminate H].
      assert (JS.startsWith p "" = true) as E' by (apply startsWith_spec; eauto).
      congruence.
  - destruct (JS.startsWith p (String c s)) eqn:E.
    + apply startsWith_spec in E as [post E]. split; [|done].
      intros _. exists "", post. done.
    + rewrite IH. split.
      * intros (pre & post & ->). by exists (String c pre), post.
      * intros ([|c' pre] & post & H); simpl in H.
        -- assert (JS.startsWith p (String c s) = true) as E'
             by (apply startsWith_spec; eauto).
           congruence.
        -- injection H as -> ->. eauto.
Qed.

Lemma includes_empty (s : string) : JS.includes s "" = true.
Proof. destruct s; reflexivity. Qed.

(** ** The edit distance *)

Section Levenshtein.

Import SelectivePDFParser.

Lemma set_cell_dims (m : Matrix) (r c j i : nat) (v : Z) :
  dims m r c → dims (set_cell j i v m) r c.
Proof.
  intros [Hr Hc]. unfold set_cell.
  destruct (m !! j) as [row|] eqn:Hrow; [|done]. split.
  - by rewrite length_insert.
  - apply Forall_insert; [done|]. rewrite length_insert.
    by apply (Forall_lookup_1 _ _ _ _ Hc Hrow).
Qed.

Lemma cell_set_cell_eq (m : Matrix) (r c j i : nat) (v : Z) :
  dims m r c → (j < r)%nat → (i < c)%nat → cell (set_cell j i v m) j i = v.
Proof.
  intros [Hr Hc] Hj Hi. unfold set_cell, cell.
  destruct (lookup_lt_is_Some_2 m j) as [row Hrow]; [lia|]. rewrite Hrow.
  rewrite list_lookup_insert_eq by lia.
  rewrite list_lookup_insert_eq; [done|].
  rewrite (Forall_lookup_1 _ _ _ _ Hc Hrow). lia.
Qed.

Lemma cell_set_cell_ne (m : Matrix) (j i j' i' : nat) (v : Z) :
  j' ≠ j ∨ i' ≠ i → cell (set_cell j i v m) j' i' = cell m j' i'.
Proof.
  intros Hne. unfold set_cell, cell.
  destruct (m !! j) as [row|] eqn:Hrow; [|done].
  destruct (decide (j' = j)) as [->|Hj].
  - destruct Hne as [|Hi]; [done|]. rewrite Hrow.
    destruct (decide (j < length m)%nat).
    + rewrite list_lookup_insert_eq by done. by rewrite list_lookup_insert_ne.
    + apply lookup_lt_Some in Hrow. lia.
  - by rewrite list_lookup_insert_ne.
Qed.

Variable str1 str2 : string.

Abbreviation n1 := (String.length str1).
Abbreviation n2 := (String.length str2).

(** The first loop writes the distances from the empty prefix of [str2]. *)
Lemma first_row (m : Matrix) (k : nat) :
  dims m (n2 + 1) (n1 + 1) → (k ≤ n1 + 1)%nat →
  dims (foldl (fun m i => set_cell 0 i (Z.of_nat i) m) m (seq 0 k)) (n2 + 1) (n1 + 1)
  ∧ ∀ i, (i < k)%nat →
      cell (foldl (fun m i => set_cell 0 i (Z.of_nat i) m) m (seq 0 k)) 0 i = Z.of_nat i.
Proof.
  intros Hd. induction k as [|k IH]; intros Hk.
  - split; [done|]. intros i Hi. lia.
  - rewrite seq_S, foldl_app. simpl. destruct IH as [Hd' Hcells]; [lia|].
    split; [by apply set_cell_dims|]. intros i Hi.
    destruct (decide (i = k)) as [->|Hne].
    + apply (cell_set_cell_eq _ _ _ _ _ _ Hd'); lia.
    + rewrite cell_set_cell_ne by (right; done). apply Hcells. lia.
Qed.

(** The second loop writes the distances from the empty prefix of [str1]
    and leaves the first row as it is. *)
Lemma first_column (m : Matrix) (k : nat) :
  dims m (n2 + 1) (n1 + 1) → (k ≤ n2 + 1)%nat →
  (∀ i, (i ≤ n1)%nat → cell m 0 i = Z.of_nat i) →
  dims (foldl (fun m j => set_cell j 0 (Z.of_nat j) m) m (seq 0 k)) (n2 + 1) (n1 + 1)
  ∧ (∀ i, (i ≤ n1)%nat →
       cell (foldl (fun m j => set_cell j 0 (Z.of_nat j) m) m (seq 0 k)) 0 i = Z.of_nat i)
  ∧ (∀ j, (j < k)%nat →
       cell (foldl (fun m j => set_cell j 0 (Z.of_nat j) m) m (seq 0 k)) j 0 = Z.of_nat j).
Proof.
  intros Hd. induction k as [|k IH]; intros Hk Hrow.
  - split; [done|]. split; [done|]. intros j Hj. lia.
  - rewrite seq_S, foldl_app. simpl. destruct IH as (Hd' & Hrow' & Hcol); [lia|done|].
    split; [by apply set_cell_dims|]. split.
    + intros i Hi. destruct (decide (k = 0 ∧ i = 0)%nat) as [[-> ->]|Hne].
      * apply (cell_set_cell_eq _ _ _ _ _ _ Hd'); lia.
      * rewrite cell_set_cell_ne by lia. by apply Hrow'.
    + intros j Hj. destruct (decide (j = k)) as [->|Hne].
      * apply (cell_set_cell_eq _ _ _ _ _ _ Hd'); lia.
      * rewrite cell_set_cell_ne by (left; done). apply Hcol. lia.
Qed.

Lemma lev_prefix_0_r (i : nat) : lev_prefix str1 str2 i 0 = Z.of_nat i.
Proof. by destruct i. Qed.

Lemma fill_cell_filled (m : Matrix) (J I : nat) :
  (1 ≤ J ≤ n2)%nat → (1 ≤ I ≤ n1)%nat →
  filled str1 str2 m J I → filled str1 str2 (fill_cell str1 str2 J m I) J (S I).
Proof.
  intros HJ HI [Hd Hcells]. split; [by apply set_cell_dims|].
  intros j i Hj Hi Hfilled. unfold fill_cell.
  destruct (decide (j = J ∧ i = I)) as [[-> ->]|Hne].
  - rewrite (cell_set_cell_eq _ _ _ _ _ _ Hd) by lia.
    rewrite !Hcells by lia.
    destruct J as [|J']; [lia|]. destruct I as [|I']; [lia|].
    simpl. rewrite !Nat.sub_0_r. unfold charAt. reflexivity.
  - rewrite cell_set_cell_ne by lia. apply Hcells; lia.
Qed.

Lemma fill_row_filled (m : Matrix) (J k : nat) :
  (1 ≤ J ≤ n2)%nat → (k ≤ n1)%nat →
  filled str1 str2 m J 1 → filled str1 str2 (foldl (fill_cell str1 str2 J) m (seq 1 k)) J (S k).
Proof.
  intros HJ. induction k as [|k IH]; intros Hk Hm; [done|].
  rewrite seq_S, foldl_app. simpl. apply fill_cell_filled; [done|lia|].
  apply IH; [lia|done].
Qed.

Lemma fill_rows_filled (m : Matrix) (k : nat) :
  (k ≤ n2)%nat →
  filled str1 str2 m 1 1 →
  filled str1 str2
    (foldl (fun m j => foldl (fill_cell str1 str2 j) m (seq 1 n1)) m (seq 1 k)) (S k) 1.
Proof.
  induction k as [|k IH]; intros Hk Hm; [done|].
  rewrite seq_S, foldl_app. simpl.
  destruct (fill_row_filled
              (foldl (fun m j => foldl (fill_cell str1 str2 j) m (seq 1 n1)) m (seq 1 k))
              (S k) n1) as [Hd Hcells]; [lia|lia|by apply IH; [lia|]|].
  split; [done|]. intros j i Hj Hi Hfilled. apply Hcells; lia.
Qed.

(** The matrix algorithm returns the Levenshtein distance of the two
    strings. *)
Lemma levenshteinDistance_correct : levenshteinDistance str1 str2 = editDistance str1 str2.
Proof.
  unfold levenshteinDistance, editDistance.
  set (m0 := replicate (n2 + 1) (replicate (n1 + 1) None) : Matrix).
  assert (dims m0 (n2 + 1) (n1 + 1)) as Hd0.
  { split; [apply length_replicate|]. apply Forall_replicate, length_replicate. }
  destruct (first_row m0 (n1 + 1) Hd0) as [Hd1 Hrow1]; [lia|].
  set (m1 := foldl (fun m i => set_cell 0 i (Z.of_nat i) m) m0 (seq 0 (n1 + 1))) in *.
  destruct (first_column m1 (n2 + 1) Hd1) as (Hd2 & Hrow2 & Hcol2); [lia| |].
  { intros i Hi. apply Hrow1. lia. }
  set (m2 := foldl (fun m j => set_cell j 0 (Z.of_nat j) m) m1 (seq 0 (n2 + 1))) in *.
  assert (filled str1 str2 m2 1 1) as Hfilled.
  { split; [done|]. intros j i Hj Hi Hcases.
    destruct (decide (j = 0)%nat) as [->|Hj0].
    - rewrite Hrow2 by done. by rewrite lev_prefix_0_r.
    - assert (i = 0)%nat as -> by lia.
      rewrite Hcol2 by lia. reflexivity. }
  destruct (fill_rows_filled m2 n2) as [_ Hcells]; [lia|done|].
  apply Hcells; lia.
Qed.

End Levenshtein.

(** ** Fuzzy chapter matching *)

Lemma similarity_threshold (d m : Z) :
  0 < m → (6 # 10 <= SelectivePDFParser.similarity d m)%Q ↔ 5 * d ≤ 2 * m.
Proof.
  intros Hm. unfold SelectivePDFParser.similarity.
  destruct m as [|p|p]; try lia.
  unfold Qle, Qminus, Qplus, Qopp, Qdiv, Qmult, Qinv; simpl.
  rewrite ?Pos2Z.inj_mul. lia.
Qed.

Example fuzzyMatch_by_containment :
  SelectivePDFParser.fuzzyMatch "Chapter 1: Overview" "chapter 1" = true.
Proof. vm_compute. reflexivity. Qed.

Example fuzzyMatch_below_threshold :
  SelectivePDFParser.fuzzyMatch "Results" "Related work" = false.
Proof. vm_compute. reflexivity. Qed.

(** C4. A chapter name matches a title at once when one of the two
    lower-cased, trimmed strings contains the other; otherwise it matches
    exactly when the similarity [1 - distance / maxLen] is at least 0.6 (that
    is, when [5 * distance <= 2 * maxLen]), where the distance that the
    matrix algorithm returns is the Levenshtein distance of the two strings;
    and the distance between "kitten" and "sitting" is 3. *)
Theorem fuzzyMatch_containment_or_similarity (text1 text2 : string) :
  let t1 := JS.trim (JS.toLowerCase text1) in
  let t2 := JS.trim (JS.toLowerCase text2) in
  let distance := SelectivePDFParser.levenshteinDistance t1 t2 in
  let maxLen := Z.max (Z.of_nat (String.length t1)) (Z.of_nat (String.length t2)) in
  (JS.includes t1 t2 || JS.includes t2 t1 = true →
     SelectivePDFParser.fuzzyMatch text1 text2 = true)
  ∧ (JS.includes t1 t2 || JS.includes t2 t1 = false →
       (SelectivePDFParser.fuzzyMatch text1 text2 = true
          ↔ (6 # 10 <= 1 - (distance # 1) / (maxLen # 1))%Q)
       ∧ (SelectivePDFParser.fuzzyMatch text1 text2 = true ↔ 5 * distance ≤ 2 * maxLen))
  ∧ distance = editDistance t1 t2
  ∧ SelectivePDFParser.levenshteinDistance "kitten" "sitting" = 3.
Proof.
  intros t1 t2 distance maxLen.
  unfold SelectivePDFParser.fuzzyMatch, SelectivePDFParser.fuzzyMatchAt.
  fold t1 t2. split; [|split; [|split]].
  - intros ->. reflexivity.
  - intros Hno. rewrite Hno. fold distance maxLen.
    assert (0 < maxLen) as Hpos.
    { apply orb_false_iff in Hno as [H12 _].
      destruct t2 as [|c t2'] eqn:E2.
      - rewrite includes_empty in H12. discriminate H12.
      - subst maxLen. simpl String.length. lia. }
    rewrite Qle_bool_iff. split; [reflexivity|].
    apply similarity_threshold, Hpos.
  - apply levenshteinDistance_correct.
  - vm_compute. reflexivity.
Qed.

Lemma fuzzyMatch_containment_or_similarity_witness :
  SelectivePDFParser.fuzzyMatch "Introduction" "intro" = true
  ∧ (SelectivePDFParser.fuzzyMatch "Methods" "Method5" = true
     ↔ 5 * SelectivePDFParser.levenshteinDistance "methods" "method5" ≤ 2 * 7).
Proof.
  split.
  - apply (proj1 (fuzzyMatch_containment_or_similarity "Introduction" "intro")).
    vm_compute. reflexivity.
  - apply (proj1 (proj2 (fuzzyMatch_containment_or_similarity "Methods" "Method5"))).
    vm_compute. reflexivity.
Defined.

(** ** The explicit page-range strategy *)

Section PageRange.

Import SelectivePDFParser.

Variable pdf : PDFDoc.
Variable options : PDFProcessingOptions.
Variable regexCount : string → string → Result nat.
Variable Math_log : Z → Q.
Variable fl : Q → Q.
Variable sectionPatternTest : string → bool.
Variable getDocument : string → Result PDFDoc.

(** The entry point runs the page-range strategy when a range is set and
    neither chapters nor search terms are given, and returns its text. *)
Lemma extractTextFromPDF_pageRange (binaryContent : string) (range : PageRange) :
  getDocument binaryContent = Ok pdf →
  no_names (chapters options) = true → no_names (searchTerms options) = true →
  pageRange options = Some range →
  extractTextFromPDF regexCount Math_log fl sectionPatternTest getDocument binaryContent options
  = Ok (extractByPageRange pdf range options).
Proof.
  intros Hopen Hch Hst Hrange. unfold extractTextFromPDF. rewrite Hopen, Hrange. simpl.
  destruct (chapters options) as [[|c cs]|]; try discriminate Hch;
    destruct (searchTerms options) as [[|t ts]|]; try discriminate Hst; reflexivity.
Qed.

Lemma pageHeader_mkPage (n : Z) (p : PageStructure) :
  pageHeader (mkPage n 1 p) = plainHeader n (ps_hasImages p).
Proof.
  unfold pageHeader, plainHeader, mkPage; simpl.
  destruct (ps_hasImages p); rewrite ?append_assoc; reflexivity.
Qed.

(** Without [extractImages] no page is marked as containing images. *)
Lemma extractPageWithStructure_no_images (n : Z) (p : PageStructure) :
  truthy (extractImages options) = false →
  extractPageWithStructure pdf n options = Some p → ps_hasImages p = false.
Proof.
  unfold extractPageWithStructure. intros ->.
  destruct (textStructure pdf n _) as [[[c s] m]|]; [|done].
  intros [= <-]. reflexivity.
Qed.

(** Every page that the range extraction returns has relevance 1.0, lies in
    the loop's range and is a page that could be extracted. *)
Lemma extractPagesWithStructure_elem (a b : Z) (pg : PageContent) :
  pg ∈ extractPagesWithStructure pdf a b options ↔
  ∃ n p, a ≤ n ≤ b ∧ extractPageWithStructure pdf n options = Some p ∧ pg = mkPage n 1 p.
Proof.
  unfold extractPagesWithStructure, page_loop. rewrite list_elem_of_omap. split.
  - intros (n & Hn & Hp). apply elem_of_seqZ in Hn.
    destruct (extractPageWithStructure pdf n options) as [p|] eqn:E; [|done].
    injection Hp as <-. exists n, p. split; [lia|done].
  - intros (n & p & Hn & E & ->). exists n. split; [apply elem_of_seqZ; lia|].
    by rewrite E.
Qed.

(** The range is clamped to the document before any page is read. *)
Lemma extractByPageRange_clamped (range : PageRange) :
  extractByPageRange pdf range options =
  extractByPageRange pdf {| start := Z.max 1 (start range);
                            end_ := Z.min (end_ range) (numPages pdf) |} options.
Proof.
  unfold extractByPageRange; simpl.
  by rewrite Z.max_assoc, Z.max_id, <- Z.min_assoc, Z.min_id.
Qed.

(** C3. On a 10-page document whose pages 3 to 7 can be extracted, the range
    [{start: 3, end: 7}] returns exactly the pages 3, 4, 5, 6, 7, each with
    relevance 1.0 and under a header [--- Page N ---] that has no relevance
    annotation; and the range [{start: 0, end: 999}] is processed as
    [{start: 1, end: 10}]. *)
Theorem extractByPageRange_3_to_7 (page : Z → PageStructure) :
  numPages pdf = 10 →
  (∀ n, 3 ≤ n ≤ 7 → extractPageWithStructure pdf n options = Some (page n)) →
  extractPagesWithStructure pdf 3 7 options = map (fun n => mkPage n 1 (page n)) [3; 4; 5; 6; 7]
  ∧ extractByPageRange pdf {| start := 3; end_ := 7 |} options =
      JS.trim (String.concat ""
                 (map (fun n => plainHeader n (ps_hasImages (page n)) +:+ ps_content (page n))
                      [3; 4; 5; 6; 7]))
  ∧ extractByPageRange pdf {| start := 0; end_ := 999 |} options =
      extractByPageRange pdf {| start := 1; end_ := 10 |} options.
Proof.
  intros Hnum Hpages.
  assert (extractPagesWithStructure pdf 3 7 options
          = map (fun n => mkPage n 1 (page n)) [3; 4; 5; 6; 7]) as Hlist.
  { unfold extractPagesWithStructure, page_loop.
    change (seqZ 3 (7 - 3 + 1)) with [3; 4; 5; 6; 7]. simpl.
    rewrite !Hpages by lia. reflexivity. }
  split; [exact Hlist|]. split.
  - unfold extractByPageRange; simpl. rewrite Hnum.
    change (Z.min 7 10) with 7. change (Z.max 1 3) with 3.
    rewrite Hlist. unfold formatExtractedContent.
    cbn [map]. rewrite !pageHeader_mkPage. reflexivity.
  - rewrite extractByPageRange_clamped; simpl. rewrite Hnum. reflexivity.
Qed.

(** C10. When the clamped start lies beyond the clamped end, the page-range
    extraction reads no page and returns the empty string; the entry point
    returns that empty string and throws nothing. *)
Theorem extractByPageRange_empty_range (range : PageRange) :
  Z.min (end_ range) (numPages pdf) < Z.max 1 (start range) →
  extractPagesWithStructure pdf (Z.max 1 (start range))
      (Z.min (end_ range) (numPages pdf)) options = []
  ∧ extractByPageRange pdf range options = ""
  ∧ (∀ binaryContent,
       getDocument binaryContent = Ok pdf →
       no_names (chapters options) = true → no_names (searchTerms options) = true →
       pageRange options = Some range →
       extractTextFromPDF regexCount Math_log fl sectionPatternTest getDocument
         binaryContent options = Ok "").
Proof.
  intros Hlt.
  assert (extractPagesWithStructure pdf (Z.max 1 (start range))
            (Z.min (end_ range) (numPages pdf)) options = []) as Hnil.
  { unfold extractPagesWithStructure, page_loop. by rewrite seqZ_nil by lia. }
  assert (extractByPageRange pdf range options = "") as Hempty.
  { unfold extractByPageRange. by rewrite Hnil. }
  split; [exact Hnil|]. split; [exact Hempty|].
  intros binaryContent Hopen Hch Hst Hrange.
  by rewrite (extractTextFromPDF_pageRange binaryContent range), Hempty.
Qed.

End PageRange.

Lemma extractByPageRange_3_to_7_witness :
  SelectivePDFParser.extractByPageRange Samples.ten_pages {| start := 3; end_ := 7 |} no_options
  = JS.trim (String.concat ""
               (map (fun n => plainHeader n false +:+ ps_content (Samples.page_ten n))
                    [3; 4; 5; 6; 7])).
Proof.
  refine (proj1 (proj2 (extractByPageRange_3_to_7 Samples.ten_pages no_options
                          Samples.page_ten _ _))).
  - reflexivity.
  - intros n Hn.
    assert (n = 3 ∨ n = 4 ∨ n = 5 ∨ n = 6 ∨ n = 7) as Hcases by lia.
    destruct Hcases as [->|[->|[->|[->| ->]]]]; reflexivity.
Defined.

Lemma extractByPageRange_empty_range_witness :
  SelectivePDFParser.extractByPageRange Samples.ten_pages {| start := 11; end_ := 15 |} no_options
  = "".
Proof.
  refine (proj1 (proj2 (extractByPageRange_empty_range Samples.ten_pages no_options
                          (fun _ _ => Ok 0%nat) (fun _ => 0%Q) (fun q => q) (fun _ => false)
                          Samples.renderer {| start := 11; end_ := 15 |} _))).
  vm_compute. reflexivity.
Defined.

(** ** The search strategy: selection with a context window *)

Lemma sort_insert_elem {A} (before : A → A → bool) (x y : A) (l : list A) :
  y ∈ sort_insert before x l ↔ y = x ∨ y ∈ l.
Proof.
  induction l as [|z l IH]; simpl.
  - rewrite list_elem_of_singleton, elem_of_nil. tauto.
  - destruct (before z x); rewrite !elem_of_cons, ?IH; tauto.
Qed.

Lemma stable_sort_elem {A} (before : A → A → bool) (y : A) (l : list A) :
  y ∈ stable_sort before l ↔ y ∈ l.
Proof.
  unfold stable_sort. induction l as [|x l IH]; simpl; [done|].
  rewrite sort_insert_elem, IH, elem_of_cons. tauto.
Qed.

(** Only pages of [pageAnalysis], the pages that reached the minimum
    relevance, are ever returned: a neighbour inside the context window is
    looked up among them and dropped when it is not there. *)
Lemma selectPagesWithContext_analysed
    (pageAnalysis : list PageContent) (maxPages contextWindow : Z) (pg : PageContent) :
  pg ∈ SelectivePDFParser.selectPagesWithContext pageAnalysis maxPages contextWindow →
  pg ∈ pageAnalysis.
Proof.
  unfold SelectivePDFParser.selectPagesWithContext.
  rewrite stable_sort_elem, list_elem_of_omap.
  intros (num & _ & Hfind). apply find_some in Hfind as [Hin _].
  by apply list_elem_of_In.
Qed.

(** C1, at the input where the code departs from it: page 5 is the only page
    that reached the minimum relevance, [maxPages] is 50 and [contextWindow]
    is 2. The pages 3, 4, 6 and 7 are put into the set of selected page
    numbers, are not found in [pageAnalysis], and only page 5 is returned. *)
Theorem selectPagesWithContext_single_match (relevance : Q) (page : PageStructure) :
  SelectivePDFParser.selectPagesWithContext
    [SelectivePDFParser.mkPage 5 relevance page] 50 2
  = [SelectivePDFParser.mkPage 5 relevance page].
Proof. reflexivity. Qed.

(** With [maxPages = 2] the cap is applied to the page numbers 3, 4, 5, 6, 7
    in ascending order, and the matching page itself is lost. *)
Example selectPagesWithContext_cap_drops_match (relevance : Q) (page : PageStructure) :
  SelectivePDFParser.selectPagesWithContext
    [SelectivePDFParser.mkPage 5 relevance page] 2 2 = [].
Proof. reflexivity. Qed.

Section SearchStrategy.

Import SelectivePDFParser.

Variable regexCount : string → string → Result nat.
Variable Math_log : Z → Q.
Variable fl : Q → Q.
Variable pdf : PDFDoc.
Variable searchTerms : list string.
Variable options : PDFProcessingOptions.

Lemma first_pass_not_kept (minRelevance : Q) (pages : list Z) (acc : list PageContent) :
  Forall (not_kept regexCount Math_log fl pdf searchTerms minRelevance options) pages →
  foldl (analysePage regexCount Math_log fl pdf searchTerms minRelevance options) (Ok acc) pages
  = Ok acc.
Proof.
  induction 1 as [|n pages Hn _ IH]; simpl; [done|].
  unfold not_kept in Hn.
  destruct (extractPageWithStructure pdf n options) as [p|]; [|exact IH].
  destruct (calculateEnhancedRelevance regexCount Math_log fl p searchTerms) as [[r|]|];
    simpl; [|exact IH|done].
  rewrite Hn. exact IH.
Qed.

(** The search strategy on a document in which page [n] is the only page
    that reaches the minimum relevance: the text is made of what
    [selectPagesWithContext] makes of that one page. *)
Lemma extractByIntelligentSearch_single_match (n : Z) (p : PageStructure) (r : Q) :
  1 ≤ n ≤ numPages pdf →
  extractPageWithStructure pdf n options = Some p →
  calculateEnhancedRelevance regexCount Math_log fl p searchTerms = Ok (Some r) →
  Qle_bool (or_defaultQ (minRelevanceScore options) DEFAULT_MIN_RELEVANCE) r = true →
  (∀ k, 1 ≤ k ≤ numPages pdf → k ≠ n →
        not_kept regexCount Math_log fl pdf searchTerms
          (or_defaultQ (minRelevanceScore options) DEFAULT_MIN_RELEVANCE) options k) →
  extractByIntelligentSearch regexCount Math_log fl pdf searchTerms options
  = Ok (formatExtractedContent
          (selectPagesWithContext [mkPage n r p]
             (or_default (maxPages options) DEFAULT_MAX_PAGES)
             (or_default (contextWindow options) DEFAULT_CONTEXT_WINDOW))
          options).
Proof.
  intros Hn Hpage Hscore Hmin Hothers. unfold extractByIntelligentSearch.
  unfold page_loop.
  replace (numPages pdf - 1 + 1) with ((n - 1) + (1 + (numPages pdf - n))) by lia.
  rewrite seqZ_app by lia. rewrite (seqZ_cons (1 + (n - 1))) by lia.
  rewrite foldl_app, first_pass_not_kept.
  2:{ apply Forall_forall. intros k Hk. apply elem_of_seqZ in Hk. apply Hothers; lia. }
  simpl. replace (1 + (n - 1)) with n by lia. rewrite Hpage. simpl. rewrite Hscore. simpl.
  rewrite Hmin. rewrite first_pass_not_kept.
  2:{ apply Forall_forall. intros k Hk. apply elem_of_seqZ in Hk. apply Hothers; lia. }
  reflexivity.
Qed.

End SearchStrategy.

(** ** Sequential bounded extraction *)

Section Limits.

Import SelectivePDFParser.

Variable pdf : PDFDoc.
Variable maxChars : Z.
Variable options : PDFProcessingOptions.

Lemma total_length_app (l1 l2 : list PageContent) :
  total_length (l1 ++ l2) = total_length l1 + total_length l2.
Proof. induction l1 as [|x l1 IH]; simpl; lia. Qed.

Lemma limits_loop_invariant (todo : list Z) (pages : list PageContent) (charCount : Z) :
  charCount = total_length pages → charCount ≤ maxChars →
  let st := limits_loop pdf maxChars options todo pages charCount in
  ll_charCount st = total_length (ll_pages st) ∧ ll_charCount st ≤ maxChars.
Proof.
  revert pages charCount. induction todo as [|n todo IH]; intros pages charCount Hsum Hle; simpl.
  - done.
  - destruct (extractPageWithStructure pdf n options) as [p|]; [|by apply IH].
    destruct (Z.ltb_spec maxChars (charCount + Z.of_nat (String.length (ps_content p)))).
    + done.
    + apply IH; [|lia]. rewrite total_length_app. simpl. lia.
Qed.

(** The pages that the sequential extraction keeps never hold more than
    [maxChars] characters together. *)
Lemma limits_loop_budget (maxPages : Z) :
  0 ≤ maxChars →
  total_length
    (ll_pages (limits_loop pdf maxChars options
                 (page_loop 1 (Z.min maxPages (numPages pdf))) [] 0)) ≤ maxChars.
Proof.
  intros Hpos.
  destruct (limits_loop_invariant (page_loop 1 (Z.min maxPages (numPages pdf))) [] 0)
    as [Heq Hle]; [done|done|]. by rewrite <- Heq.
Qed.

(** The notice is appended exactly when the kept pages fill the budget to
    the last character, whether or not a page was left out. *)
Lemma extractWithIntelligentLimits_notice (maxPages : Z) :
  0 ≤ maxChars →
  let st := limits_loop pdf maxChars options
              (page_loop 1 (Z.min maxPages (numPages pdf))) [] 0 in
  extractWithIntelligentLimits pdf maxPages maxChars options =
    if decide (total_length (ll_pages st) = maxChars)
    then formatExtractedContent (ll_pages st) options
           +:+ truncation_notice maxChars (numPages pdf)
    else formatExtractedContent (ll_pages st) options.
Proof.
  intros Hpos st. unfold extractWithIntelligentLimits. fold st.
  destruct (limits_loop_invariant (page_loop 1 (Z.min maxPages (numPages pdf))) [] 0)
    as [Heq Hle]; [done|done|]. fold st in Heq, Hle. rewrite <- Heq.
  destruct (Z.leb_spec maxChars (ll_charCount st)); case_decide; try done; lia.
Qed.

End Limits.

(** C2, at the input where the code departs from it: two pages of six
    characters each and [maxCharacters = 10]. The loop stops at page 2, which
    would overflow the budget, with six characters kept; the test for the
    notice compares those six characters with the limit, and the result ends
    without a truncation notice. The entry point, called with
    [{ maxCharacters: 10 }] on such a document, takes this path and returns
    that text. *)
Theorem extractWithIntelligentLimits_truncated_without_notice :
  let st := SelectivePDFParser.limits_loop Samples.two_pages 10 no_options
              (SelectivePDFParser.page_loop 1 (Z.min 50 (numPages Samples.two_pages))) [] 0 in
  SelectivePDFParser.ll_reached st = Some 2
  ∧ map pageNum (SelectivePDFParser.ll_pages st) = [1]
  ∧ SelectivePDFParser.ll_charCount st = 6
  ∧ SelectivePDFParser.extractWithIntelligentLimits Samples.two_pages 50 10 no_options
    = "--- Page 1 ---" +:+ JS.LF +:+ "aaaaaa"
  ∧ (∀ regexCount Math_log fl sectionPatternTest binaryContent,
       SelectivePDFParser.extractTextFromPDF regexCount Math_log fl sectionPatternTest
         (fun _ => Ok Samples.two_pages) binaryContent Samples.ten_characters
       = Ok ("--- Page 1 ---" +:+ JS.LF +:+ "aaaaaa")).
Proof.
  split; [|split; [|split; [|split]]]; vm_compute; reflexivity.
Qed.

(** Conversely, a document that fits the budget exactly is returned whole and
    still marked as truncated. *)
Example extractWithIntelligentLimits_notice_without_truncation :
  SelectivePDFParser.extractWithIntelligentLimits Samples.two_pages 50 12 no_options
  = "--- Page 1 ---" +:+ JS.LF +:+ "aaaaaa" +:+ JS.LF +:+ JS.LF
    +:+ "--- Page 2 ---" +:+ JS.LF +:+ "bbbbbb" +:+ JS.LF +:+ JS.LF
    +:+ "[... Truncated at 12 characters. Total pages in PDF: 2 ...]".
Proof. vm_compute. reflexivity. Qed.

(** ** The per-file cache *)

Section Cache.

Variable stringifyEntry : CacheEntry → string.
Variable parseEntry : string → Result (option CacheEntry).

Lemma ensureCacheDir_files (w : MemVault.FS) :
  (PDFCache.ensureCacheDir MemVault.vault w).1 = Ok tt
  ∧ MemVault.files (PDFCache.ensureCacheDir MemVault.vault w).2 = MemVault.files w.
Proof.
  unfold PDFCache.ensureCacheDir, io_bind; simpl. unfold MemVault.fs_exists.
  destruct (_ || _); done.
Qed.

Lemma setWithKey_files (cacheKey : string) (entry : CacheEntry) (w : MemVault.FS) :
  MemVault.files (PDFCache.setWithKey MemVault.vault stringifyEntry cacheKey entry w).2
  = <[PDFCache.getCachePath cacheKey := stringifyEntry entry]> (MemVault.files w).
Proof.
  unfold PDFCache.setWithKey, io_try, io_bind.
  destruct (ensureCacheDir_files w) as [Hok Hfiles].
  destruct (PDFCache.ensureCacheDir MemVault.vault w) as [r w1]; simpl in *.
  subst r. simpl. by rewrite Hfiles.
Qed.

Lemma getWithKey_hit (cacheKey data : string) (w : MemVault.FS) :
  MemVault.files w !! PDFCache.getCachePath cacheKey = Some data →
  PDFCache.getWithKey MemVault.vault parseEntry cacheKey w
  = (match parseEntry data with Ok r => Ok r | Throw _ => Ok None end, w).
Proof.
  intros Hfile. unfold PDFCache.getWithKey, io_try, io_bind; simpl.
  unfold MemVault.fs_exists, MemVault.fs_read. rewrite Hfile.
  rewrite (bool_decide_eq_true_2 (is_Some (Some data))) by done. simpl.
  rewrite Hfile. unfold io_lift. by destruct (parseEntry data).
Qed.

Lemma getWithKey_miss (cacheKey : string) (w : MemVault.FS) :
  MemVault.no_blob cacheKey w →
  PDFCache.getWithKey MemVault.vault parseEntry cacheKey w = (Ok None, w).
Proof.
  intros [Hfile Hdir]. unfold PDFCache.getWithKey, io_try, io_bind; simpl.
  unfold MemVault.fs_exists. rewrite Hfile.
  rewrite (bool_decide_eq_false_2 (is_Some None)) by (by intros [? ?]).
  rewrite bool_decide_eq_false_2 by done. reflexivity.
Qed.

(** C6. An entry that survives serialization ([JSON.parse] of its
    [JSON.stringify] is the entry again) is returned by [getWithKey] after
    [setWithKey] under the same key, whatever the vault held before; and
    [getWithKey] answers [null] for a key without blob. *)
Theorem cache_round_trip (cacheKey : string) (entry : CacheEntry) (w : MemVault.FS) :
  parseEntry (stringifyEntry entry) = Ok (Some entry) →
  (PDFCache.getWithKey MemVault.vault parseEntry cacheKey
     (PDFCache.setWithKey MemVault.vault stringifyEntry cacheKey entry w).2).1
  = Ok (Some entry)
  ∧ (MemVault.no_blob cacheKey w →
     (PDFCache.getWithKey MemVault.vault parseEntry cacheKey w).1 = Ok None).
Proof.
  intros Hjson. split.
  - rewrite (getWithKey_hit cacheKey (stringifyEntry entry)).
    + simpl. by rewrite Hjson.
    + rewrite setWithKey_files. apply lookup_insert_eq.
  - intros Hmiss. by rewrite getWithKey_miss.
Qed.

End Cache.

Lemma cache_round_trip_witness :
  (PDFCache.getWithKey MemVault.vault Samples.decode "k"
     (PDFCache.setWithKey MemVault.vault Samples.encode "k" Samples.entry
        Samples.vault_with_report).2).1
  = Ok (Some Samples.entry).
Proof.
  refine (proj1 (cache_round_trip Samples.encode Samples.decode "k" Samples.entry
                   Samples.vault_with_report _)).
  reflexivity.
Defined.

(** ** The parsing facade *)

Section FacadeProperties.

Variable stringifyEntry : CacheEntry → string.
Variable parseEntry : string → Result (option CacheEntry).
Variable stringifyOptions : PDFProcessingOptions → string.

(** The options suffix is appended exactly when the options have a key. *)
Lemma getCacheKeyWithOptions_suffix (file : TFile) (options : option PDFProcessingOptions) :
  PDFParser.getCacheKeyWithOptions stringifyOptions file options =
  match options with
  | Some o => if no_keys o then PDFCache.fileMetadata file
              else PDFCache.fileMetadata file +:+ ":" +:+ stringifyOptions o
  | None => PDFCache.fileMetadata file
  end.
Proof. reflexivity. Qed.

(** C5, at the input where the code departs from it: the report of 1024
    bytes, read without options. The key that [parseFile] looks up and
    stores under is the text [path:size:mtime] itself, and the blob is
    written to a path made of that text; the digest of the text, which
    [PDFCache.getCacheKey] computes for [get] and [set], is another
    string. *)
Theorem getCacheKeyWithOptions_not_hashed
    (selectiveExtract : string → PDFProcessingOptions → Result string) :
  PDFParser.getCacheKeyWithOptions stringifyOptions Samples.report None
    = "notes/report.pdf:1024:1700000000000"
  ∧ PDFCache.getCacheKey Samples.report = "7543ccbed3edb142a2201eb88d5cddbf"
  ∧ PDFCache.getCachePath (PDFParser.getCacheKeyWithOptions stringifyOptions Samples.report None)
    = ".copilot/pdf-cache/notes/report.pdf:1024:1700000000000.json"
  ∧ dom (MemVault.files
           (PDFParser.parseFile MemVault.vault stringifyEntry parseEntry stringifyOptions
              selectiveExtract (fun _ => Ok "text") Samples.report None
              Samples.vault_with_report).2)
    = {[ "notes/report.pdf";
         ".copilot/pdf-cache/notes/report.pdf:1024:1700000000000.json" ]}.
Proof.
  split; [reflexivity|]. split; [vm_compute; reflexivity|]. split; [reflexivity|].
  unfold PDFParser.parseFile, io_try, io_bind.
  rewrite getWithKey_miss.
  2:{ split; [vm_compute; reflexivity|]. apply not_elem_of_empty. }
  simpl. unfold MemVault.fs_read. simpl.
  change (Samples.vault_with_report) with
    {| MemVault.files := {[ "notes/report.pdf" := "%PDF-1.7" ]}; MemVault.dirs := ∅ |}.
  simpl. rewrite lookup_singleton_eq. simpl.
  match goal with
  | |- context [PDFCache.setWithKey ?v ?s ?k ?e ?w] =>
      pose proof (setWithKey_files s k e w) as Hfiles;
      destruct (PDFCache.setWithKey v s k e w) as [r w'] eqn:Hset
  end.
  simpl in Hfiles. destruct r; simpl; rewrite Hfiles;
    rewrite dom_insert_L, dom_singleton_L; set_solver.
Qed.

End FacadeProperties.

Section Containment.

Context {W : Type}.
Variable vault : Vault W.
Variable stringifyEntry : CacheEntry → string.
Variable parseEntry : string → Result (option CacheEntry).
Variable stringifyOptions : PDFProcessingOptions → string.

(** Whatever the vault, the cache and the extraction do, [parseFile]
    returns a text. *)
Lemma parseFile_returns
    (selectiveExtract : string → PDFProcessingOptions → Result string)
    (localExtract : string → Result string)
    (file : TFile) (options : option PDFProcessingOptions) (w : W) :
  ∃ text, (PDFParser.parseFile vault stringifyEntry parseEntry stringifyOptions
             selectiveExtract localExtract file options w).1 = Ok text.
Proof.
  unfold PDFParser.parseFile, io_try.
  match goal with |- context [match ?body w with _ => _ end] => destruct (body w) as [[text|e] w'] end;
    simpl; eauto.
Qed.

(** The cache never throws either. *)
Lemma getWithKey_returns (cacheKey : string) (w : W) :
  ∃ r, (PDFCache.getWithKey vault parseEntry cacheKey w).1 = Ok r.
Proof.
  unfold PDFCache.getWithKey, io_try.
  match goal with |- context [match ?body w with _ => _ end] => destruct (body w) as [[r|e] w'] end;
    simpl; eauto.
Qed.

Lemma setWithKey_returns (cacheKey : string) (entry : CacheEntry) (w : W) :
  (PDFCache.setWithKey vault stringifyEntry cacheKey entry w).1 = Ok tt.
Proof.
  unfold PDFCache.setWithKey, io_try.
  match goal with |- context [match ?body w with _ => _ end] => destruct (body w) as [[[]|e] w'] end;
    reflexivity.
Qed.

Variable regexCount : string → string → Result nat.
Variable Math_log : Z → Q.
Variable fl : Q → Q.
Variable sectionPatternTest : string → bool.
Variable getDocument : string → Result PDFDoc.



End Containment.


(** ** Determinism *)

Section Determinism.

Variable stringifyEntry : CacheEntry → string.
Variable parseEntry : string → Result (option CacheEntry).
Variable stringifyOptions : PDFProcessingOptions → string.
Variable selectiveExtract : string → PDFProcessingOptions → Result string.
Variable localExtract : string → Result string.

(** Without a cached entry a run returns [uncached_text]: the bytes are read,
    the text is extracted or the error is put into words, and what the vault
    holds otherwise is not looked at. *)
Lemma parseFile_uncached (file : TFile) (options : option PDFProcessingOptions)
    (w : MemVault.FS) :
  MemVault.no_blob (PDFParser.getCacheKeyWithOptions stringifyOptions file options) w →
  (PDFParser.parseFile MemVault.vault stringifyEntry parseEntry stringifyOptions
     selectiveExtract localExtract file options w).1
  = Ok (uncached_text selectiveExtract localExtract file options
          (MemVault.files w !! path file)).
Proof.
  intros Hmiss. unfold PDFParser.parseFile, io_try, io_bind.
  rewrite getWithKey_miss by done. simpl. unfold MemVault.fs_read, uncached_text.
  destruct (MemVault.files w !! path file) as [binaryContent|]; [|reflexivity].
  unfold io_lift.
  destruct (if negb (no_keys _) then _ else _) as [text|message]; [|reflexivity].
  match goal with
  | |- context [PDFCache.setWithKey ?v ?s ?k ?e ?w] =>
      pose proof (setWithKey_returns v s k e w) as Hset;
      destruct (PDFCache.setWithKey v s k e w) as [r w']
  end.
  simpl in Hset. subst r. reflexivity.
Qed.

End Determinism.

Section Scores.

Variable stringifyEntry : CacheEntry → string.
Variable parseEntry : string → Result (option CacheEntry).
Variable stringifyOptions : PDFProcessingOptions → string.
Variable regexCount : string → string → Result nat.
Variable Math_log : Z → Q.
Variable fl : Q → Q.
Variable sectionPatternTest : string → bool.
Variable getDocument : string → Result PDFDoc.

Lemma termScore_headers (text : string) (s1 s2 : list TextSection) (term : string) :
  SelectivePDFParser.headers s1 = SelectivePDFParser.headers s2 →
  SelectivePDFParser.termScore regexCount Math_log fl text s1 term
  = SelectivePDFParser.termScore regexCount Math_log fl text s2 term.
Proof. intros Hh. unfold SelectivePDFParser.termScore. by rewrite Hh. Qed.

(** The score reads the text of the page, its header sections and its
    metadata, and nothing else. *)
Lemma calculateEnhancedRelevance_pure (p q : PageStructure) (searchTerms : list string) :
  ps_content p = ps_content q →
  SelectivePDFParser.headers (ps_sections p) = SelectivePDFParser.headers (ps_sections q) →
  ps_metadata p = ps_metadata q →
  SelectivePDFParser.calculateEnhancedRelevance regexCount Math_log fl p searchTerms
  = SelectivePDFParser.calculateEnhancedRelevance regexCount Math_log fl q searchTerms.
Proof.
  intros Hc Hh Hm. unfold SelectivePDFParser.calculateEnhancedRelevance.
  rewrite Hc, Hm. f_equal.
  generalize (Ok (Some 0%Q) : Result (option Q)) as init.
  induction searchTerms as [|term terms IH]; intros init; simpl; [done|].
  rewrite (termScore_headers _ _ _ _ Hh). apply IH.
Qed.

(** C9. Two runs of [parseFile] on the same file with the same bytes and
    the same options, each in a vault that holds no cached entry for the
    key, return the same text, whatever else the two vaults hold; and the
    relevance score of a page is determined by its text, its header
    sections, its metadata and the search terms. *)
Theorem parseFile_deterministic (file : TFile) (options : option PDFProcessingOptions)
    (w1 w2 : MemVault.FS) :
  MemVault.no_blob (PDFParser.getCacheKeyWithOptions stringifyOptions file options) w1 →
  MemVault.no_blob (PDFParser.getCacheKeyWithOptions stringifyOptions file options) w2 →
  MemVault.files w1 !! path file = MemVault.files w2 !! path file →
  (PDFParser.parseFile MemVault.vault stringifyEntry parseEntry stringifyOptions
     (SelectivePDFParser.extractTextFromPDF regexCount Math_log fl sectionPatternTest getDocument)
     (LocalPDFParser.extractTextFromPDF getDocument) file options w1).1
  = (PDFParser.parseFile MemVault.vault stringifyEntry parseEntry stringifyOptions
       (SelectivePDFParser.extractTextFromPDF regexCount Math_log fl sectionPatternTest getDocument)
       (LocalPDFParser.extractTextFromPDF getDocument) file options w2).1
  ∧ (∀ p q searchTerms,
       ps_content p = ps_content q →
       SelectivePDFParser.headers (ps_sections p) = SelectivePDFParser.headers (ps_sections q) →
       ps_metadata p = ps_metadata q →
       SelectivePDFParser.calculateEnhancedRelevance regexCount Math_log fl p searchTerms
       = SelectivePDFParser.calculateEnhancedRelevance regexCount Math_log fl q searchTerms).
Proof.
  intros Hmiss1 Hmiss2 Hbytes. split.
  - rewrite !parseFile_uncached by done. by rewrite Hbytes.
  - apply calculateEnhancedRelevance_pure.
Qed.

End Scores.

Lemma parseFile_deterministic_witness :
  (PDFParser.parseFile MemVault.vault Samples.encode Samples.decode (fun _ => "{}")
     (SelectivePDFParser.extractTextFromPDF (fun _ _ => Ok 0%nat) (fun _ => 0%Q) (fun q => q)
        (fun _ => false) Samples.renderer)
     (LocalPDFParser.extractTextFromPDF Samples.renderer)
     Samples.report None Samples.vault_with_report).1
  = (PDFParser.parseFile MemVault.vault Samples.encode Samples.decode (fun _ => "{}")
       (SelectivePDFParser.extractTextFromPDF (fun _ _ => Ok 0%nat) (fun _ => 0%Q) (fun q => q)
          (fun _ => false) Samples.renderer)
       (LocalPDFParser.extractTextFromPDF Samples.renderer)
       Samples.report None Samples.busy_vault).1.
Proof.
  refine (proj1 (parseFile_deterministic Samples.encode Samples.decode (fun _ => "{}")
                   (fun _ _ => Ok 0%nat) (fun _ => 0%Q) (fun q => q) (fun _ => false)
                   Samples.renderer Samples.report None
                   Samples.vault_with_report Samples.busy_vault _ _ _)).
  - split; [vm_compute; reflexivity | apply not_elem_of_empty].
  - split; [vm_compute; reflexivity|].
    unfold Samples.busy_vault; simpl. rewrite elem_of_singleton. discriminate.
  - vm_compute. reflexivity.
Defined.

(** ** Inline options *)

Section EmbedOptions.

Import ContextProcessor.

Lemma span_digits_run (s rest : string) :
  all_digits s = true →
  (match rest with String c _ => JS.is_digit c = false | EmptyString => True end) →
  JS.span_digits (s +:+ rest) = (s, rest).
Proof.
  intros Hs Hrest. induction s as [|c s IH].
  - rewrite append_nil. destruct rest as [|c r]; [reflexivity|]. simpl. by rewrite Hrest.
  - simpl in Hs. apply andb_true_iff in Hs as [Hc Hs].
    rewrite append_cons. simpl. rewrite Hc, (IH Hs). reflexivity.
Qed.

(** A value of the form S-E, two runs of digits around a dash, matches with
    those two runs. *)
Lemma pageMatch_well_formed (s e : string) :
  all_digits s = true → all_digits e = true → s ≠ "" → e ≠ "" →
  pageMatch (s +:+ "-" +:+ e) = Some (s, e).
Proof.
  intros Hs He Hs0 He0.
  assert (pages_here (s +:+ "-" +:+ e) = Some (s, e)) as Hhere.
  { unfold pages_here. rewrite (span_digits_run s ("-" +:+ e)) by done.
    destruct s as [|c s]; [done|].
    change ("-" +:+ e) with (String "-" e).
    replace e with (e +:+ "") at 1 by apply append_empty_r.
    rewrite (span_digits_run e "") by done.
    destruct e as [|c2 e]; [done|]. reflexivity. }
  destruct s as [|c s]; [done|].
  rewrite append_cons in *. simpl. simpl in Hhere. by rewrite Hhere.
Qed.

Lemma unrecognized_key (key : string) :
  recognized key = false →
  key ≠ "pages" ∧ key ≠ "search" ∧ ¬ (key = "chapter" ∨ key = "chapters")
  ∧ key ≠ "max" ∧ ¬ (key = "chars" ∨ key = "characters").
Proof.
  unfold recognized. intros H. apply bool_decide_eq_false_1 in H.
  rewrite !elem_of_cons, elem_of_nil in H. tauto.
Qed.

Lemma applyPart_ignored (options : EmbedOptions) (part : string) :
  ignored part = true → applyPart options part = Ok options.
Proof.
  unfold ignored, applyPart. destruct (key_value part) as [key value].
  destruct (recognized (JS.toLowerCase key)) eqn:Hrec.
  - destruct value as [v|]; [|done]. intros H.
    apply andb_true_iff in H as [Hkey Hmatch].
    apply bool_decide_eq_true_1 in Hkey. apply bool_decide_eq_true_1 in Hmatch.
    rewrite decide_True by done. by rewrite Hmatch.
  - intros _. apply unrecognized_key in Hrec as (H1 & H2 & H3 & H4 & H5).
    by rewrite !decide_False by done.
Qed.

Lemma applyParts_filter (acc : Result EmbedOptions) (parts : list string) :
  foldl (fun acc part => o ← acc; applyPart o part) acc
        (List.filter (fun part => negb (ignored part)) parts)
  = foldl (fun acc part => o ← acc; applyPart o part) acc parts.
Proof.
  revert acc. induction parts as [|part parts IH]; intros acc; simpl; [done|].
  destruct (ignored part) eqn:Hign; simpl.
  - rewrite IH. destruct acc as [o|message]; simpl; [|done].
    by rewrite applyPart_ignored.
  - apply IH.
Qed.

Lemma digit_not_sign (c : ascii) :
  JS.is_digit c = true →
  JS.is_space c = false ∧ Ascii.eqb c "-" = false ∧ Ascii.eqb c "+" = false
  ∧ Ascii.eqb c "x" = false ∧ Ascii.eqb c "X" = false.
Proof.
  intros Hc. repeat split;
    try (destruct (Ascii.eqb_spec c "-"); [subst; discriminate Hc|done]);
    try (destruct (Ascii.eqb_spec c "+"); [subst; discriminate Hc|done]);
    try (destruct (Ascii.eqb_spec c "x"); [subst; discriminate Hc|done]);
    try (destruct (Ascii.eqb_spec c "X"); [subst; discriminate Hc|done]).
  unfold JS.is_digit, JS.is_space in *.
  apply andb_true_iff in Hc as [H1 H2]. apply Nat.leb_le in H1, H2.
  repeat (apply orb_false_iff; split); try apply andb_false_iff;
    rewrite ?Nat.leb_gt, ?Nat.eqb_neq; lia.
Qed.

(** A value that begins with a decimal number is read as that number, made
    a double. *)
Lemma parseInt_leading (digits rest : string) :
  leading_number digits rest →
  parseInt (digits +:+ rest) = to_double (JS.decimal_value 0 digits).
Proof.
  intros (Hdigits & Hne & Hrest). destruct digits as [|c d]; [done|].
  pose proof Hdigits as Hall. simpl in Hdigits.
  apply andb_true_iff in Hdigits as [Hc Hd].
  destruct (digit_not_sign c Hc) as (Hspace & Hminus & Hplus & _).
  unfold parseInt. rewrite append_cons. simpl JS.trimStart. rewrite Hspace, Hminus, Hplus.
  assert (hex_prefix (String c (d +:+ rest)) = None) as ->.
  { unfold hex_prefix. destruct (d +:+ rest) as [|x r] eqn:Hnext; [done|].
    destruct (Ascii.eqb_spec c "0") as [->|]; [|done]. simpl.
    assert (Ascii.eqb x "x" = false ∧ Ascii.eqb x "X" = false) as [-> ->]; [|done].
    destruct d as [|c2 d2].
    - rewrite append_nil in Hnext. subst rest. destruct Hrest as [_ Hx].
      destruct (Hx eq_refl) as [H1 H2].
      split; [by destruct (Ascii.eqb_spec x "x")|by destruct (Ascii.eqb_spec x "X")].
    - rewrite append_cons in Hnext. injection Hnext as <- _.
      simpl in Hd. apply andb_true_iff in Hd as [Hc2 _].
      by destruct (digit_not_sign c2 Hc2) as (_ & _ & _ & -> & ->). }
  rewrite <- append_cons, (span_digits_run (String c d) rest Hall).
  - by rewrite Z.mul_1_l.
  - destruct rest as [|x r]; [done|]. by destruct Hrest.
Qed.

Lemma parseInt_digits (digits : string) :
  all_digits digits = true → digits ≠ "" →
  parseInt digits = to_double (JS.decimal_value 0 digits).
Proof.
  intros Hdigits Hne. rewrite <- (append_empty_r digits) at 1.
  by apply parseInt_leading.
Qed.

(** An integer of magnitude below 2^53 is a double. *)
Lemma to_double_exact (z : Z) : Z.abs z < 2 ^ 53 → to_double z = Finite z.
Proof.
  intros Hz. unfold to_double.
  destruct (decide (Z.abs z = 0)) as [->|Hnz]; [done|].
  assert (Z.log2 (Z.abs z) < 53) as Hlog by (apply Z.log2_lt_pow2; lia).
  by rewrite (proj2 (Z.ltb_lt _ _) Hlog).
Qed.

(** C8, as amended. The key of a part is compared in lower case. A part
    whose key is none of pages, search, chapter, chapters, max, chars and
    characters is ignored, and so is a pages part whose value holds no
    digits-dash-digits: parsing a string gives what parsing it without those
    parts gives. A pages value S-E, two runs of decimal digits, sets the
    page range to the numbers S and E; search and chapter (or chapters) set
    the one term or name; max and chars (or characters), given a value that
    begins with a run of decimal digits N, set the limit to the number N. A
    number is stored as the double nearest to it, which is the number itself
    when it is below 2^53. *)
Theorem parseEmbedOptions_amended :
  (∀ options part, ignored part = true → applyPart options part = Ok options)
  ∧ (∀ optionsString,
       parseEmbedOptions (Some optionsString)
       = applyParts empty (List.filter (fun part => negb (ignored part))
                             (JS.split "," optionsString)))
  ∧ (∀ options part key value,
       key_value part = (key, value) →
       (JS.toLowerCase key = "pages" →
          ∀ s e, all_digits s = true → all_digits e = true → s ≠ "" → e ≠ "" →
          value = Some (s +:+ "-" +:+ e) →
          applyPart options part
          = Ok (set_pageRange options
                  {| range_start := to_double (JS.decimal_value 0 s);
                     range_end := to_double (JS.decimal_value 0 e) |}))
       ∧ (JS.toLowerCase key = "search" →
            applyPart options part = Ok (set_searchTerms options [value]))
       ∧ (JS.toLowerCase key = "chapter" ∨ JS.toLowerCase key = "chapters" →
            applyPart options part = Ok (set_chapters options [value]))
       ∧ (JS.toLowerCase key = "max" →
            ∀ digits rest, leading_number digits rest → value = Some (digits +:+ rest) →
            applyPart options part
            = Ok (set_maxPages options (to_double (JS.decimal_value 0 digits))))
       ∧ (JS.toLowerCase key = "chars" ∨ JS.toLowerCase key = "characters" →
            ∀ digits rest, leading_number digits rest → value = Some (digits +:+ rest) →
            applyPart options part
            = Ok (set_maxCharacters options (to_double (JS.decimal_value 0 digits)))))
  ∧ (∀ z, Z.abs z < 2 ^ 53 → to_double z = Finite z).
Proof.
  split; [exact applyPart_ignored|]. split; [|split; [|exact to_double_exact]].
  - intros optionsString. unfold applyParts. rewrite applyParts_filter.
    destruct optionsString; reflexivity.
  - intros options part key value Hkv. unfold applyPart. rewrite Hkv.
    repeat split.
    + intros -> s e Hs He Hs0 He0 ->. simpl.
      rewrite (pageMatch_well_formed s e Hs He Hs0 He0).
      by rewrite !parseInt_digits.
    + intros ->. reflexivity.
    + intros [-> | ->]; reflexivity.
    + intros -> digits rest Hlead ->. simpl. by rewrite parseInt_leading.
    + intros [-> | ->] digits rest Hlead ->; simpl; by rewrite parseInt_leading.
Qed.

(** C8 as stated does not hold: [chapters] is none of the five keys and is
    not ignored, and a value of [max] that is no number leaves [maxPages]
    set, to [NaN]. *)
Lemma parseEmbedOptions_not_exactly_five_keys :
  parseEmbedOptions (Some "chapters:Intro") = Ok (set_chapters empty [Some "Intro"])
  ∧ parseEmbedOptions (Some "chapters:Intro") ≠ Ok empty
  ∧ parseEmbedOptions (Some "max:abc") = Ok (set_maxPages empty NotANumber)
  ∧ (maxPages <$> parseEmbedOptions (Some "max:abc")) ≠ Ok None.
Proof. vm_compute. repeat split; discriminate. Qed.

(** Beyond 2^53 the number stored is not always the number written: half way
    between two doubles it is the even one; and a number with a hexadecimal
    prefix is read in base 16. *)
Example parseInt_rounds :
  parseInt "9007199254740993" = Finite 9007199254740992
  ∧ parseInt "9007199254740995" = Finite 9007199254740996
  ∧ parseInt "20 pages" = Finite 20
  ∧ parseInt "0x10" = Finite 16
  ∧ parseInt "-7" = Finite (-7)
  ∧ parseInt "" = NotANumber.
Proof. vm_compute. repeat split; reflexivity. Qed.

End EmbedOptions.

Lemma parseEmbedOptions_amended_witness :
  ContextProcessor.applyPart ContextProcessor.empty "colour:red" = Ok ContextProcessor.empty
  ∧ ContextProcessor.applyPart ContextProcessor.empty " Pages : 3-7 "
    = Ok (ContextProcessor.set_pageRange ContextProcessor.empty
            {| ContextProcessor.range_start := ContextProcessor.Finite 3;
               ContextProcessor.range_end := ContextProcessor.Finite 7 |})
  ∧ ContextProcessor.applyPart ContextProcessor.empty "max:20 pages"
    = Ok (ContextProcessor.set_maxPages ContextProcessor.empty (ContextProcessor.Finite 20)).
Proof.
  destruct parseEmbedOptions_amended as (Hign & _ & Hrec & Hexact).
  split; [apply Hign; vm_compute; reflexivity|]. split.
  - rewrite <- (Hexact 3), <- (Hexact 7) by (simpl; lia).
    refine (proj1 (Hrec ContextProcessor.empty " Pages : 3-7 " "Pages" (Some "3-7") _)
              _ "3" "7" _ _ _ _ _); done.
  - rewrite <- (Hexact 20) by (simpl; lia).
    refine (proj1 (proj2 (proj2 (proj2 (Hrec ContextProcessor.empty "max:20 pages" "max"
                                          (Some "20 pages") _)))) _ "20" " pages" _ _);
      try reflexivity.
    split; [done|]. split; [done|]. split; [done|]. intros H. discriminate H.
Defined.

(** * Further properties *)

(** ** The edit distance as a metric *)

Section LevenshteinMetric.

Lemma lev_prefix_S_S (s t : string) (i j : nat) :
  lev_prefix s t (S i) (S j)
  = Z.min (Z.min (lev_prefix s t i (S j) + 1) (lev_prefix s t (S i) j + 1))
          (lev_prefix s t i j + (if decide (String.get i s = String.get j t) then 0 else 1)).
Proof. reflexivity. Qed.

Lemma lev_prefix_0_l (s t : string) (j : nat) : lev_prefix s t 0 j = Z.of_nat j.
Proof. reflexivity. Qed.

Lemma lev_prefix_S_0 (s t : string) (i : nat) : lev_prefix s t (S i) 0 = Z.of_nat (S i).
Proof. reflexivity. Qed.

Lemma lev_prefix_sym (s t : string) (i j : nat) :
  lev_prefix s t i j = lev_prefix t s j i.
Proof.
  revert j. induction i as [|i IHi]; intros j.
  - destruct j; reflexivity.
  - induction j as [|j IHj]; [reflexivity|].
    rewrite !lev_prefix_S_S, IHj, (IHi (S j)), (IHi j).
    destruct (decide (String.get i s = String.get j t)) as [Heq|Hne];
      destruct (decide (String.get j t = String.get i s)) as [Heq'|Hne'];
      try congruence; lia.
Qed.

Lemma lev_prefix_bounds (s t : string) (i j : nat) :
  Z.abs (Z.of_nat i - Z.of_nat j) ≤ lev_prefix s t i j ≤ Z.max (Z.of_nat i) (Z.of_nat j).
Proof.
  revert j. induction i as [|i IHi]; intros j.
  - rewrite lev_prefix_0_l. lia.
  - induction j as [|j IHj]; [rewrite lev_prefix_S_0; lia|].
    rewrite lev_prefix_S_S.
    pose proof (IHi (S j)). pose proof (IHi j).
    destruct (decide (String.get i s = String.get j t)); lia.
Qed.

Lemma lev_prefix_diag (s : string) (n : nat) : lev_prefix s s n n = 0.
Proof.
  induction n as [|n IH]; [reflexivity|].
  rewrite lev_prefix_S_S, IH, decide_True by done.
  pose proof (lev_prefix_bounds s s n (S n)). pose proof (lev_prefix_bounds s s (S n) n). lia.
Qed.

(** Prefixes at distance zero have the same length and the same characters. *)
Lemma lev_prefix_zero (s t : string) (i j : nat) :
  lev_prefix s t i j = 0 → i = j ∧ ∀ k, (k < i)%nat → String.get k s = String.get k t.
Proof.
  revert j. induction i as [|i IHi]; intros j.
  - rewrite lev_prefix_0_l. intros Hz. split; [lia|]. intros k Hk. lia.
  - destruct j as [|j]; [rewrite lev_prefix_S_0; lia|].
    rewrite lev_prefix_S_S. intros Hz.
    pose proof (lev_prefix_bounds s t i (S j)). pose proof (lev_prefix_bounds s t (S i) j).
    pose proof (lev_prefix_bounds s t i j).
    destruct (decide (String.get i s = String.get j t)) as [Heq|Hne]; [|lia].
    destruct (IHi j) as [-> Hchars]; [lia|].
    split; [done|]. intros k Hk.
    destruct (decide (k = j)) as [->|Hkj]; [done|]. apply Hchars. lia.
Qed.

Lemma string_get_ext (s t : string) :
  String.length s = String.length t →
  (∀ k, (k < String.length s)%nat → String.get k s = String.get k t) → s = t.
Proof.
  revert t. induction s as [|c s IH]; intros [|d t] Hlen Hget; try discriminate Hlen; [done|].
  simpl in Hlen. f_equal.
  - specialize (Hget 0%nat). simpl in Hget. assert (Some c = Some d) as [= ->]; [|done].
    apply Hget. lia.
  - apply IH; [lia|]. intros k Hk. apply (Hget (S k)). simpl. lia.
Qed.

(** X1. [levenshteinDistance] is a metric-like distance on strings: it is
    symmetric, it lies between the difference of the two lengths and the
    longer length, and it is zero exactly when the two strings are equal. *)
Theorem levenshteinDistance_metric (str1 str2 : string) :
  SelectivePDFParser.levenshteinDistance str1 str2
    = SelectivePDFParser.levenshteinDistance str2 str1
  ∧ Z.abs (Z.of_nat (String.length str1) - Z.of_nat (String.length str2))
      ≤ SelectivePDFParser.levenshteinDistance str1 str2
      ≤ Z.max (Z.of_nat (String.length str1)) (Z.of_nat (String.length str2))
  ∧ (SelectivePDFParser.levenshteinDistance str1 str2 = 0 ↔ str1 = str2).
Proof.
  rewrite !levenshteinDistance_correct. unfold editDistance. split; [|split].
  - apply lev_prefix_sym.
  - apply lev_prefix_bounds.
  - split.
    + intros Hz. apply lev_prefix_zero in Hz as [Hlen Hchars].
      by apply string_get_ext.
    + intros ->. apply lev_prefix_diag.
Qed.

(** X2. [fuzzyMatch] does not depend on the order of its two arguments, every
    text matches itself, and a name that is blank (empty after trimming)
    matches every text. *)
Theorem fuzzyMatch_symmetric (text1 text2 : string) :
  SelectivePDFParser.fuzzyMatch text1 text2 = SelectivePDFParser.fuzzyMatch text2 text1
  ∧ SelectivePDFParser.fuzzyMatch text1 text1 = true
  ∧ (JS.trim (JS.toLowerCase text2) = "" → SelectivePDFParser.fuzzyMatch text1 text2 = true).
Proof.
  unfold SelectivePDFParser.fuzzyMatch, SelectivePDFParser.fuzzyMatchAt. split; [|split].
  - rewrite (orb_comm (JS.includes (JS.trim (JS.toLowerCase text1)) _)).
    rewrite (Z.max_comm (Z.of_nat (String.length (JS.trim (JS.toLowerCase text1))))).
    rewrite !levenshteinDistance_correct. unfold editDistance.
    by rewrite (lev_prefix_sym (JS.trim (JS.toLowerCase text1))).
  - assert (JS.includes (JS.trim (JS.toLowerCase text1)) (JS.trim (JS.toLowerCase text1)) = true)
      as ->; [|done].
    apply includes_spec. exists "", "". by rewrite append_nil, append_empty_r.
  - intros ->. by rewrite includes_empty.
Qed.

End LevenshteinMetric.

Lemma fuzzyMatch_symmetric_witness :
  SelectivePDFParser.fuzzyMatch "1. Introduction" "   " = true.
Proof.
  apply (proj2 (proj2 (fuzzyMatch_symmetric "1. Introduction" "   "))).
  reflexivity.
Defined.

(** ** Page selection and the extraction loops *)

Section Selection.

Import SelectivePDFParser.

Lemma set_add_NoDup (x : Z) (s : list Z) : NoDup s → NoDup (set_add x s).
Proof.
  intros Hs. unfold set_add. case_decide; [done|].
  apply NoDup_app. split; [done|]. split; [|apply NoDup_singleton].
  intros y Hy Hyx. apply list_elem_of_singleton in Hyx. by subst.
Qed.

Lemma add_with_context_NoDup (contextWindow : Z) (selected : list Z) (page : PageContent) :
  NoDup selected → NoDup (add_with_context contextWindow selected page).
Proof.
  intros Hs. unfold add_with_context.
  generalize (seqZ 1 contextWindow) as steps.
  assert (NoDup (set_add (pageNum page) selected)) as Hinit by by apply set_add_NoDup.
  revert Hinit. generalize (set_add (pageNum page) selected) as sel.
  intros sel Hsel steps. revert sel Hsel.
  induction steps as [|i steps IH]; intros sel Hsel; simpl; [done|].
  apply IH. by do 2 apply set_add_NoDup.
Qed.

Lemma selected_NoDup (contextWindow : Z) (pages : list PageContent) (selected : list Z) :
  NoDup selected → NoDup (foldl (add_with_context contextWindow) selected pages).
Proof.
  revert selected. induction pages as [|pg pages IH]; intros selected Hs; simpl; [done|].
  by apply IH, add_with_context_NoDup.
Qed.

(** Sorting distinct numbers gives a strictly ascending list. *)
Lemma sort_insert_ascending (x : Z) (l : list Z) :
  x ∉ l → StronglySorted Z.lt l → StronglySorted Z.lt (sort_insert Z.ltb x l).
Proof.
  intros Hx Hl. induction Hl as [|y r Hr IH Hall]; simpl.
  - repeat constructor.
  - apply not_elem_of_cons in Hx as [Hxy Hxr].
    destruct (Z.ltb_spec y x) as [Hlt|Hge].
    + constructor; [by apply IH|].
      apply Forall_forall. intros z Hz. apply sort_insert_elem in Hz as [->|Hz]; [done|].
      by apply (proj1 (Forall_forall _ _) Hall).
    + constructor; [by constructor|].
      constructor; [lia|]. eapply Forall_impl; [exact Hall|]. simpl. intros z Hz. lia.
Qed.

Lemma stable_sort_ascending (l : list Z) :
  NoDup l → StronglySorted Z.lt (stable_sort Z.ltb l).
Proof.
  induction 1 as [|x l Hx Hl IH]; [constructor|].
  change (stable_sort Z.ltb (x :: l)) with (sort_insert Z.ltb x (stable_sort Z.ltb l)).
  apply sort_insert_ascending; [|done]. by rewrite stable_sort_elem.
Qed.

Lemma StronglySorted_sublist {A} (R : relation A) (l1 l2 : list A) :
  l1 `sublist_of` l2 → StronglySorted R l2 → StronglySorted R l1.
Proof.
  induction 1 as [|x l1 l2 Hsub IH|x l1 l2 Hsub IH]; intros Hs; [done| |].
  - apply StronglySorted_inv in Hs as [Hs Hall]. constructor; [by apply IH|].
    apply Forall_forall. intros y Hy. apply (proj1 (Forall_forall _ _) Hall).
    by eapply elem_of_sublist.
  - apply StronglySorted_inv in Hs as [Hs _]. by apply IH.
Qed.

Lemma slice0_sublist {A} (n : Z) (l : list A) : slice0 n l `sublist_of` l.
Proof. unfold slice0. destruct (n <? 0); apply sublist_take. Qed.

Lemma slice0_length {A} (n : Z) (l : list A) : 0 ≤ n → Z.of_nat (length (slice0 n l)) ≤ n.
Proof.
  intros Hn. unfold slice0. destruct (Z.ltb_spec n 0); [lia|].
  rewrite length_take. lia.
Qed.

(** The pages that are looked up for a list of numbers carry those numbers. *)
Lemma found_pages_sublist (pageAnalysis : list PageContent) (nums : list Z) :
  map pageNum (omap (fun num => List.find (fun p => pageNum p =? num) pageAnalysis) nums)
    `sublist_of` nums.
Proof.
  induction nums as [|num nums IH]; simpl; [constructor|].
  destruct (List.find _ pageAnalysis) as [p|] eqn:Hfind; simpl.
  - apply find_some in Hfind as [_ Hnum]. apply Z.eqb_eq in Hnum. rewrite Hnum.
    by constructor.
  - by constructor.
Qed.

Lemma stable_sort_sorted_id (l : list PageContent) :
  StronglySorted Z.lt (map pageNum l) →
  stable_sort (fun a b => pageNum a <? pageNum b) l = l.
Proof.
  unfold stable_sort. induction l as [|x l IH]; simpl; [done|].
  intros Hs. apply StronglySorted_inv in Hs as [Hs Hall]. rewrite IH by done.
  destruct l as [|y r]; [done|]. simpl.
  apply Forall_cons in Hall as [Hxy _].
  destruct (Z.ltb_spec (pageNum y) (pageNum x)); [lia|done].
Qed.

(** X3. Whatever it is given, [selectPagesWithContext] returns pages of
    [pageAnalysis] with positive page numbers in strictly ascending order (so
    no page twice), and never more than [maxPages] of them when [maxPages] is
    not negative. *)
Theorem selectPagesWithContext_ascending_bounded
    (pageAnalysis : list PageContent) (maxPages contextWindow : Z) :
  StronglySorted Z.lt (map pageNum (selectPagesWithContext pageAnalysis maxPages contextWindow))
  ∧ Forall (fun pg => pg ∈ pageAnalysis ∧ 0 < pageNum pg)
      (selectPagesWithContext pageAnalysis maxPages contextWindow)
  ∧ (0 ≤ maxPages →
     Z.of_nat (length (selectPagesWithContext pageAnalysis maxPages contextWindow)) ≤ maxPages).
Proof.
  unfold selectPagesWithContext.
  set (selected := foldl (add_with_context contextWindow) []
                     (slice0 (Z.min maxPages (Z.of_nat (length pageAnalysis))) pageAnalysis)).
  set (allPageNums := stable_sort Z.ltb (filter (fun num => 0 < num) selected)).
  set (result := omap (fun num => List.find (fun p => pageNum p =? num) pageAnalysis)
                   (slice0 maxPages allPageNums)).
  assert (StronglySorted Z.lt allPageNums) as Hall.
  { apply stable_sort_ascending, NoDup_filter, selected_NoDup, NoDup_nil_2. }
  assert (StronglySorted Z.lt (map pageNum result)) as Hres.
  { eapply StronglySorted_sublist; [apply found_pages_sublist|].
    eapply StronglySorted_sublist; [apply slice0_sublist|done]. }
  rewrite stable_sort_sorted_id by done. split; [done|]. split.
  - apply Forall_forall. intros pg Hpg. apply list_elem_of_omap in Hpg as (num & Hnum & Hfind).
    apply find_some in Hfind as [Hin Heq]. apply Z.eqb_eq in Heq.
    split; [by apply list_elem_of_In|].
    assert (num ∈ allPageNums) as Hnum'.
    { eapply elem_of_sublist; [done|apply slice0_sublist]. }
    apply stable_sort_elem, list_elem_of_filter in Hnum' as [Hpos _]. lia.
  - intros Hmax.
    assert (length result ≤ length (slice0 maxPages allPageNums))%nat as Hlen.
    { rewrite <- (length_map pageNum result). apply sublist_length, found_pages_sublist. }
    pose proof (slice0_length maxPages allPageNums Hmax). lia.
Qed.

End Selection.

Lemma selectPagesWithContext_ascending_bounded_witness :
  Z.of_nat (length (SelectivePDFParser.selectPagesWithContext
                      [SelectivePDFParser.mkPage 7 (1 # 2) (Samples.page_ten 7);
                       SelectivePDFParser.mkPage 2 (1 # 4) (Samples.page_ten 2)] 1 2)) ≤ 1.
Proof.
  apply (proj2 (proj2 (selectPagesWithContext_ascending_bounded _ 1 2))). lia.
Defined.

Section Loops.

Import SelectivePDFParser.

Variable pdf : PDFDoc.
Variable options : PDFProcessingOptions.

Lemma seqZ_ascending (m n : Z) : StronglySorted Z.lt (seqZ m n).
Proof.
  destruct (Z.le_gt_cases n 0) as [Hn|Hn]; [rewrite seqZ_nil by done; constructor|].
  rewrite <- (Z2Nat.id n) by lia. generalize (Z.to_nat n) as k. clear Hn n. intros k.
  revert m. induction k as [|k IH]; intros m; [constructor|].
  rewrite seqZ_cons by lia. constructor.
  - replace (Z.pred (Z.of_nat (S k))) with (Z.of_nat k) by lia. apply IH.
  - apply Forall_forall. intros x Hx. apply elem_of_seqZ in Hx. lia.
Qed.

Lemma seqZ_split (a m n : Z) (before after : list Z) :
  seqZ a m = before ++ n :: after → before = seqZ a (n - a) ∧ a ≤ n < a + m.
Proof.
  intros Hsplit.
  assert (seqZ a m !! length before = Some n) as Hn.
  { rewrite Hsplit. by rewrite list_lookup_middle. }
  apply lookup_seqZ in Hn as [-> Hlt]. split; [|lia].
  replace (a + Z.of_nat (length before) - a) with (Z.of_nat (length before)) by lia.
  replace m with (Z.of_nat (length before) + (m - Z.of_nat (length before))) in Hsplit by lia.
  rewrite seqZ_app in Hsplit by lia.
  apply app_inj_1 in Hsplit as [Heq _]; [done|].
  rewrite length_seqZ. lia.
Qed.

Lemma extracted_pages_sublist (nums : list Z) :
  map pageNum (omap (fun n => mkPage n 1 <$> extractPageWithStructure pdf n options) nums)
    `sublist_of` nums.
Proof.
  induction nums as [|n nums IH]; simpl; [constructor|].
  destruct (extractPageWithStructure pdf n options) as [p|]; simpl; by constructor.
Qed.

(** X4. [extractPagesWithStructure] returns, in strictly ascending page
    order and with relevance 1.0, exactly the pages of the range that can be
    extracted: at most [endPage - startPage + 1] pages, none from outside the
    range, none left out. *)
Theorem extractPagesWithStructure_exact (startPage endPage : Z) :
  StronglySorted Z.lt (map pageNum (extractPagesWithStructure pdf startPage endPage options))
  ∧ (length (extractPagesWithStructure pdf startPage endPage options)
     ≤ Z.to_nat (endPage - startPage + 1))%nat
  ∧ (∀ pg, pg ∈ extractPagesWithStructure pdf startPage endPage options ↔
           ∃ n p, startPage ≤ n ≤ endPage
                  ∧ extractPageWithStructure pdf n options = Some p ∧ pg = mkPage n 1 p).
Proof.
  split; [|split].
  - eapply StronglySorted_sublist; [apply extracted_pages_sublist|apply seqZ_ascending].
  - unfold extractPagesWithStructure, page_loop.
    rewrite <- (length_seqZ startPage (endPage - startPage + 1)).
    rewrite <- (length_map pageNum). apply sublist_length, extracted_pages_sublist.
  - apply extractPagesWithStructure_elem.
Qed.

Variable maxChars : Z.

Lemma limits_loop_split (todo : list Z) (pages : list PageContent) (charCount : Z) :
  charCount = total_length pages →
  ll_charCount (limits_loop pdf maxChars options todo pages charCount)
  = total_length (ll_pages (limits_loop pdf maxChars options todo pages charCount))
  ∧ match ll_reached (limits_loop pdf maxChars options todo pages charCount) with
    | None =>
        ll_pages (limits_loop pdf maxChars options todo pages charCount)
        = pages ++ omap (fun n => mkPage n 1 <$> extractPageWithStructure pdf n options) todo
    | Some n =>
        ∃ before after p,
          todo = before ++ n :: after
          ∧ ll_pages (limits_loop pdf maxChars options todo pages charCount)
            = pages ++ omap (fun n => mkPage n 1 <$> extractPageWithStructure pdf n options) before
          ∧ extractPageWithStructure pdf n options = Some p
          ∧ maxChars < ll_charCount (limits_loop pdf maxChars options todo pages charCount)
                       + Z.of_nat (String.length (ps_content p))
    end.
Proof.
  revert pages charCount. induction todo as [|n todo IH]; intros pages charCount Hsum; simpl.
  - by rewrite app_nil_r.
  - destruct (extractPageWithStructure pdf n options) as [p|] eqn:Hp.
    + destruct (Z.ltb_spec maxChars (charCount + Z.of_nat (String.length (ps_content p))))
        as [Hover|Hfits]; simpl.
      * split; [done|]. exists [], todo, p. simpl. by rewrite app_nil_r.
      * destruct (IH (pages ++ [mkPage n 1 p])
                     (charCount + Z.of_nat (String.length (ps_content p)))) as [Hcc Hres].
        { rewrite total_length_app. simpl. lia. }
        split; [done|].
        destruct (ll_reached _) as [stop|].
        -- destruct Hres as (before & after & q & -> & Hpages & Hq & Hover).
           exists (n :: before), after, q. simpl. rewrite Hp. simpl.
           by rewrite Hpages, <- app_assoc.
        -- by rewrite Hres, <- app_assoc.
    + destruct (IH pages charCount Hsum) as [Hcc Hres]. split; [done|].
      destruct (ll_reached _) as [stop|]; [|done].
      destruct Hres as (before & after & q & -> & Hpages & Hq & Hover).
      exists (n :: before), after, q. simpl. by rewrite Hp.
Qed.

(** X5. The sequential extraction keeps a prefix of the document: when the
    loop ends without reaching the character limit, the kept pages are the
    extractable pages from 1 to min(maxPages, numPages); when it stops at a
    page [n], they are the extractable pages from 1 to [n - 1], and page [n]
    is a page that would have taken the kept text beyond [maxChars]. For a
    limit that is not negative the kept text holds at most [maxChars]
    characters. *)
Theorem limits_loop_keeps_prefix (maxPages : Z) :
  let actualMaxPages := Z.min maxPages (numPages pdf) in
  let st := limits_loop pdf maxChars options (page_loop 1 actualMaxPages) [] 0 in
  (0 ≤ maxChars → total_length (ll_pages st) ≤ maxChars)
  ∧ match ll_reached st with
    | None => ll_pages st = extractPagesWithStructure pdf 1 actualMaxPages options
    | Some n =>
        1 ≤ n ≤ actualMaxPages
        ∧ ll_pages st = extractPagesWithStructure pdf 1 (n - 1) options
        ∧ ∃ p, extractPageWithStructure pdf n options = Some p
               ∧ maxChars < total_length (ll_pages st) + Z.of_nat (String.length (ps_content p))
    end.
Proof.
  intros actualMaxPages st. split.
  - intros Hpos. by apply limits_loop_budget.
  - destruct (limits_loop_split (page_loop 1 actualMaxPages) [] 0 eq_refl) as [Hcc Hres].
    fold st in Hcc, Hres. destruct (ll_reached st) as [n|]; [|done].
    destruct Hres as (before & after & p & Hsplit & Hpages & Hp & Hover).
    unfold page_loop in Hsplit. apply seqZ_split in Hsplit as [-> Hn].
    split; [lia|]. split.
    + rewrite Hpages. unfold extractPagesWithStructure, page_loop. simpl.
      by replace (n - 1 - 1 + 1) with (n - 1) by lia.
    + exists p. split; [done|]. by rewrite <- Hcc.
Qed.

End Loops.

Lemma limits_loop_keeps_prefix_witness :
  total_length
    (SelectivePDFParser.ll_pages
       (SelectivePDFParser.limits_loop Samples.two_pages 10 no_options
          (SelectivePDFParser.page_loop 1 (Z.min 50 (numPages Samples.two_pages))) [] 0))
  ≤ 10.
Proof.
  apply (proj1 (limits_loop_keeps_prefix Samples.two_pages no_options 10 50)). lia.
Defined.

(** ** Outline and sections *)

Section Sections.

Import SelectivePDFParser.

Variable pdf : PDFDoc.
Variable options : PDFProcessingOptions.

Lemma outline_sections_titles (outline : list OutlineItem) :
  map title (outline_sections pdf outline) = map o_title outline.
Proof. induction outline as [|item rest IH]; simpl; [done|]. by rewrite IH. Qed.

Lemma outline_sections_start (outline : list OutlineItem) :
  map startPage (outline_sections pdf outline)
  = map (fun item => getPageFromDest (o_dest item)) outline.
Proof. induction outline as [|item rest IH]; simpl; [done|]. by rewrite IH. Qed.

Lemma outline_sections_contiguous (outline : list OutlineItem) (i : nat) (s s' : PDFSection) :
  outline_sections pdf outline !! i = Some s →
  outline_sections pdf outline !! S i = Some s' →
  endPage s = startPage s' - 1.
Proof.
  revert i. induction outline as [|item rest IH]; intros i; simpl; [done|].
  destruct i as [|i]; simpl.
  - intros [= <-]. destruct rest as [|next rest']; simpl; [done|]. by intros [= <-].
  - apply IH.
Qed.

Lemma outline_sections_last (outline : list OutlineItem) (s : PDFSection) :
  last (outline_sections pdf outline) = Some s → endPage s = numPages pdf.
Proof.
  induction outline as [|item rest IH]; simpl; [done|].
  destruct rest as [|next rest']; simpl in *; [by intros [= <-]|]. exact IH.
Qed.

(** X6. The sections read from the native outline follow one another
    without gap or overlap: there is one section per outline entry, in the
    order and under the titles of the entries and with confidence 1.0, each
    section ends on the page before the next one starts, and the last one
    ends on the last page of the document. Without outline, or when reading
    it throws, there are no sections. *)
Theorem extractEnhancedOutline_contiguous :
  (∀ i s s',
     extractEnhancedOutline pdf !! i = Some s → extractEnhancedOutline pdf !! S i = Some s' →
     endPage s = startPage s' - 1)
  ∧ (∀ s, last (extractEnhancedOutline pdf) = Some s → endPage s = numPages pdf)
  ∧ Forall (fun s => confidence s = 1%Q) (extractEnhancedOutline pdf)
  ∧ match getOutline pdf with
    | Ok (Some outline) => map title (extractEnhancedOutline pdf) = map o_title outline
    | _ => extractEnhancedOutline pdf = []
    end.
Proof.
  unfold extractEnhancedOutline.
  destruct (getOutline pdf) as [[outline|]|message]; repeat split; try done;
    try (intros i s s' H; by rewrite lookup_nil in H).
  - apply outline_sections_contiguous.
  - apply outline_sections_last.
  - induction outline as [|item rest IH]; simpl; constructor; done.
  - apply outline_sections_titles.
Qed.

Lemma sections_loop_within_budget (maxPages : Z) (sections : list PDFSection)
    (processedPages : Z) (fullText : string) :
  Forall (fun s => startPage s ≤ endPage s) sections →
  processedPages + section_pages sections ≤ maxPages →
  sections_loop pdf maxPages options sections processedPages fullText
  = foldl (fun fullText chapter =>
             fullText +:+ sectionTitle chapter
               (formatExtractedContent
                  (extractPagesWithStructure pdf (startPage chapter) (endPage chapter) options)
                  options))
          fullText sections.
Proof.
  intros Hall. revert processedPages fullText.
  induction Hall as [|s rest Hs Hrest IH]; intros processedPages fullText Hbudget; simpl; [done|].
  simpl in Hbudget.
  assert (0 ≤ section_pages rest) as Hnonneg.
  { clear -Hrest. induction Hrest as [|s' rest' Hs' _ IH']; simpl; lia. }
  destruct (Z.leb_spec maxPages processedPages) as [Hfull|_]; [lia|].
  rewrite Z.min_l by lia.
  replace (startPage s + (endPage s - startPage s + 1) - 1) with (endPage s) by lia.
  apply IH. lia.
Qed.

(** X7. With a page budget that covers all sections, the section-aware
    extraction of the smart strategy returns what the chapter strategy
    returns for the same sections: every section in full under its title. *)
Theorem extractByIntelligentSections_within_budget (sections : list PDFSection) :
  Forall (fun s => startPage s ≤ endPage s) sections →
  section_pages sections ≤ or_default (maxPages options) DEFAULT_MAX_PAGES →
  extractByIntelligentSections pdf sections options = extractChapterContent pdf sections options.
Proof.
  intros Hall Hbudget. unfold extractByIntelligentSections, extractChapterContent.
  by rewrite sections_loop_within_budget by (done || lia).
Qed.

(** X8. Every chapter that [detectChaptersInText] finds starts on one of the
    first 50 pages, on a page that has a header with the chapter's title,
    that title matches one of the requested names, and the chapter is given
    the eleven pages from there on, whatever the length of the document; the
    pages extracted for it are at most eleven. *)
Theorem detectChaptersInText_window (chapters : list string) :
  Forall (fun s =>
            1 ≤ startPage s ≤ Z.min 50 (numPages pdf)
            ∧ endPage s = startPage s + 10
            ∧ confidence s = (7 # 10)%Q
            ∧ (∃ chapter, chapter ∈ chapters ∧ fuzzyMatch (title s) chapter = true)
            ∧ (∃ p hd, extractPageWithStructure pdf (startPage s) options = Some p
                       ∧ hd ∈ ps_sections p ∧ type hd = header ∧ ts_content hd = title s)
            ∧ (length (extractPagesWithStructure pdf (startPage s) (endPage s) options) ≤ 11)%nat)
         (detectChaptersInText pdf chapters options).
Proof.
  apply Forall_forall. intros s Hs. unfold detectChaptersInText in Hs.
  apply list_elem_of_bind in Hs as (n & Hs & Hn).
  unfold page_loop in Hn. apply elem_of_seqZ in Hn.
  destruct (extractPageWithStructure pdf n options) as [p|] eqn:Hp; [|by apply elem_of_nil in Hs].
  apply list_elem_of_bind in Hs as (hd & Hs & Hhd).
  apply list_elem_of_bind in Hs as (chapter & Hs & Hchapter).
  destruct (fuzzyMatch (ts_content hd) chapter) eqn:Hmatch; [|by apply elem_of_nil in Hs].
  apply list_elem_of_singleton in Hs as ->. simpl.
  apply list_elem_of_filter in Hhd as [Htype Hin].
  repeat split; try done; try lia.
  - by exists chapter.
  - by exists p, hd.
  - unfold extractPagesWithStructure, page_loop.
    rewrite <- (length_map pageNum).
    pose proof (sublist_length _ _ (extracted_pages_sublist pdf options
                                      (seqZ n (n + 10 - n + 1)))) as Hlen.
    rewrite length_seqZ in Hlen. lia.
Qed.

End Sections.

Lemma extractByIntelligentSections_within_budget_witness :
  SelectivePDFParser.extractByIntelligentSections Samples.ten_pages Samples.two_sections
    no_options
  = SelectivePDFParser.extractChapterContent Samples.ten_pages Samples.two_sections no_options.
Proof.
  apply extractByIntelligentSections_within_budget.
  - repeat constructor; simpl; lia.
  - vm_compute. discriminate.
Defined.

(** ** Errors while scoring *)

Section ScoringErrors.

Import SelectivePDFParser.

Variable regexCount : string → string → Result nat.
Variable Math_log : Z → Q.
Variable fl : Q → Q.
Variable sectionPatternTest : string → bool.
Variable getDocument : string → Result PDFDoc.

Lemma fold_Throw {A B} (f : Result A → B → Result A) (message : string) (l : list B) :
  (∀ b, f (Throw message) b = Throw message) → foldl f (Throw message) l = Throw message.
Proof. intros Hf. induction l as [|b l IH]; simpl; [done|]. by rewrite Hf. Qed.

(** The score of a term that is a regular expression is computed without
    error. *)
Lemma termScore_valid (text : string) (sections : list TextSection) (term : string) :
  (∀ text, ∃ n, regexCount text (JS.toLowerCase term) = Ok n) →
  ∃ r, termScore regexCount Math_log fl text sections term = Ok r.
Proof.
  intros Hvalid. unfold termScore.
  assert (∀ init : nat, ∃ k,
            foldl (fun count section =>
                     c ← count;
                     m ← regexCount (JS.toLowerCase (ts_content section)) (JS.toLowerCase term);
                     mret (c + m)%nat)
                  (Ok init) (headers sections) = Ok k) as Hheaders.
  { induction (headers sections) as [|hd rest IH]; intros init; [by eexists|].
    cbn [foldl mbind Result_bind].
    destruct (Hvalid (JS.toLowerCase (ts_content hd))) as [m ->]. apply IH. }
  destruct (Hheaders 0%nat) as [k ->].
  destruct (Hvalid text) as [matches ->].
  destruct (JS.includes term " "); cbn [mbind Result_bind mret Result_ret];
    (destruct (JS.indexOf text (JS.toLowerCase term)); [|by eexists]);
    destruct (String.length text =? 0)%nat; by eexists.
Qed.

Lemma calculateEnhancedRelevance_bad_term
    (p : PageStructure) (before : list string) (term message : string) (after : list string) :
  Forall (fun t => ∀ text, ∃ n, regexCount text (JS.toLowerCase t) = Ok n) before →
  (∀ text, regexCount text (JS.toLowerCase term) = Throw message) →
  calculateEnhancedRelevance regexCount Math_log fl p (before ++ term :: after) = Throw message.
Proof.
  intros Hvalid Hbad. unfold calculateEnhancedRelevance. rewrite foldl_app.
  assert (∀ init : option Q, ∃ score,
            foldl (fun score term =>
                     s ← score;
                     t ← termScore regexCount Math_log fl (JS.toLowerCase (ps_content p))
                           (ps_sections p) term;
                     mret (match s, t with
                           | Some s, Some t => Some (fadd fl s t)
                           | _, _ => None
                           end))
                  (Ok init) before = Ok score) as Hbefore.
  { induction Hvalid as [|t rest Ht _ IH]; intros init; [by eexists|].
    cbn [foldl mbind Result_bind].
    destruct (termScore_valid (JS.toLowerCase (ps_content p)) (ps_sections p) t Ht) as [r ->].
    apply IH. }
  destruct (Hbefore (Some 0%Q)) as [score ->]. cbn [foldl mbind Result_bind].
  unfold termScore at 2. rewrite Hbad. cbn [mbind Result_bind].
  rewrite fold_Throw; [done|]. intros t. reflexivity.
Qed.

Lemma first_pass_bad_term (pdf : PDFDoc) (searchTerms : list string) (message : string)
    (minRelevance : Q) (options : PDFProcessingOptions) (pages : list Z)
    (acc : list PageContent) :
  (∀ p, calculateEnhancedRelevance regexCount Math_log fl p searchTerms = Throw message) →
  foldl (analysePage regexCount Math_log fl pdf searchTerms minRelevance options)
        (Ok acc) pages
  = if bool_decide (Exists (fun n => is_Some (extractPageWithStructure pdf n options)) pages)
    then Throw message else Ok acc.
Proof.
  intros Hbad. induction pages as [|n pages IH]; cbn [foldl].
  - case_bool_decide as H; [by apply Exists_nil in H|done].
  - unfold analysePage at 2. cbn [mbind Result_bind].
    destruct (extractPageWithStructure pdf n options) as [p|] eqn:Hp.
    + rewrite (Hbad p). cbn [mbind Result_bind].
      rewrite fold_Throw by (intros k; reflexivity).
      rewrite bool_decide_eq_true_2; [done|]. apply Exists_cons. left. by rewrite Hp.
    + unfold mret, Result_ret. rewrite IH.
      do 2 case_bool_decide; try done.
      * destruct H0. by apply Exists_cons; right.
      * apply Exists_cons in H0 as [[x Hx]|H0]; [congruence|done].
Qed.

(** X9. A search term that is not a regular expression stops the search
    strategy at the first page that can be extracted, wherever the term
    stands in the list, when the terms before it are regular expressions:
    the error of the regular-expression constructor leaves
    [extractByIntelligentSearch], and the entry point throws it again under
    "Selective PDF parsing failed". When no page can be extracted no term
    is compiled and the result is the empty text. *)
Theorem extractByIntelligentSearch_bad_term
    (pdf : PDFDoc) (before : list string) (term message : string) (after : list string)
    (options : PDFProcessingOptions) :
  Forall (fun t => ∀ text, ∃ n, regexCount text (JS.toLowerCase t) = Ok n) before →
  (∀ text, regexCount text (JS.toLowerCase term) = Throw message) →
  ((∃ n, 1 ≤ n ≤ numPages pdf ∧ is_Some (extractPageWithStructure pdf n options)) →
     extractByIntelligentSearch regexCount Math_log fl pdf (before ++ term :: after) options
       = Throw message
     ∧ (∀ binaryContent,
          getDocument binaryContent = Ok pdf →
          no_names (chapters options) = true →
          searchTerms options = Some (before ++ term :: after) →
          extractTextFromPDF regexCount Math_log fl sectionPatternTest getDocument
            binaryContent options
          = Throw ("Selective PDF parsing failed: " +:+ message)))
  ∧ ((∀ n, 1 ≤ n ≤ numPages pdf → extractPageWithStructure pdf n options = None) →
     extractByIntelligentSearch regexCount Math_log fl pdf (before ++ term :: after) options
     = Ok "").
Proof.
  intros Hvalid Hbad.
  assert (∀ b, bool_decide (Exists (fun n => is_Some (extractPageWithStructure pdf n options))
                              (page_loop 1 (numPages pdf))) = b →
               extractByIntelligentSearch regexCount Math_log fl pdf
                 (before ++ term :: after) options
               = if b then Throw message else Ok "") as Hcases.
  { intros b Hb. unfold extractByIntelligentSearch.
    rewrite (first_pass_bad_term pdf (before ++ term :: after) message _ options _ []
               (fun p => calculateEnhancedRelevance_bad_term p before term message after
                           Hvalid Hbad)).
    rewrite Hb. destruct b; [done|]. simpl.
    destruct (selectPagesWithContext [] _ _) as [|pg pgs] eqn:Hsel; [done|].
    assert (pg ∈ @nil PageContent) as Hin; [|by apply elem_of_nil in Hin].
    eapply selectPagesWithContext_analysed. rewrite Hsel. left. }
  split.
  - intros (n & Hn & Hsome).
    assert (extractByIntelligentSearch regexCount Math_log fl pdf
              (before ++ term :: after) options = Throw message) as Hthrow.
    { apply (Hcases true). apply bool_decide_eq_true_2, Exists_exists. exists n.
      split; [|done]. unfold page_loop. apply elem_of_seqZ. lia. }
    split; [done|]. intros binaryContent Hopen Hch Hterms.
    unfold extractTextFromPDF. rewrite Hopen, Hterms. simpl.
    destruct (before ++ term :: after) as [|t ts] eqn:Hlist;
      [by destruct before|].
    destruct (chapters options) as [[|c cs]|]; try discriminate Hch; by rewrite Hthrow.
  - intros Hnone. apply (Hcases false). apply bool_decide_eq_false_2.
    rewrite Exists_exists. intros (n & Hn & Hsome).
    unfold page_loop in Hn. apply elem_of_seqZ in Hn.
    rewrite Hnone in Hsome by lia. by destruct Hsome.
Qed.

End ScoringErrors.

Lemma extractByIntelligentSearch_bad_term_witness :
  SelectivePDFParser.extractByIntelligentSearch
    (fun _ pattern => if String.eqb pattern "(" then Throw "Unterminated group" else Ok 0%nat)
    (fun _ => 0%Q) (fun q => q) Samples.ten_pages ["five"; "("; "six"] no_options
  = Throw "Unterminated group".
Proof.
  refine (proj1 (proj1 (extractByIntelligentSearch_bad_term
                          (fun _ pattern => if String.eqb pattern "(" then Throw "Unterminated group"
                                            else Ok 0%nat)
                          (fun _ => 0%Q) (fun q => q) (fun _ => false) Samples.renderer
                          Samples.ten_pages ["five"] "(" "Unterminated group" ["six"]
                          no_options _ _) _)).
  - repeat constructor. intros text. by exists 0%nat.
  - intros text. reflexivity.
  - exists 1. split; [vm_compute; split; discriminate|]. by eexists.
Defined.

(** ** What the facade caches *)

Lemma append_length (s t : string) :
  String.length (s +:+ t) = (String.length s + String.length t)%nat.
Proof. induction s as [|c s IH]; simpl; [done|]. by rewrite IH. Qed.

Lemma append_inj_l (s t u : string) : s +:+ u = t +:+ u → s = t.
Proof.
  revert t. induction s as [|c s IH]; intros [|d t] H; [done| | |].
  - apply (f_equal String.length) in H. rewrite !append_length in H. simpl in H. lia.
  - apply (f_equal String.length) in H. rewrite !append_length in H. simpl in H. lia.
  - rewrite !append_cons in H. injection H as -> H. f_equal. by apply IH.
Qed.

Lemma getCachePath_inj (k1 k2 : string) :
  PDFCache.getCachePath k1 = PDFCache.getCachePath k2 → k1 = k2.
Proof.
  unfold PDFCache.getCachePath. intros H.
  apply String.app_inj, String.app_inj in H. by apply append_inj_l in H.
Qed.

Lemma getCachePath_not_cacheDir (k : string) : PDFCache.getCachePath k ≠ PDFCache.cacheDir.
Proof.
  unfold PDFCache.getCachePath. intros H. apply (f_equal String.length) in H.
  rewrite !append_length in H. simpl in H. lia.
Qed.

Section FacadeCache.

Variable stringifyEntry : CacheEntry → string.
Variable parseEntry : string → Result (option CacheEntry).
Variable stringifyOptions : PDFProcessingOptions → string.

Lemma setWithKey_dirs (cacheKey : string) (entry : CacheEntry) (w : MemVault.FS) (p : string) :
  p ≠ PDFCache.cacheDir →
  p ∈ MemVault.dirs (PDFCache.setWithKey MemVault.vault stringifyEntry cacheKey entry w).2
  ↔ p ∈ MemVault.dirs w.
Proof.
  intros Hp. unfold PDFCache.setWithKey, PDFCache.ensureCacheDir, io_try, io_bind; simpl.
  unfold MemVault.fs_exists. destruct (_ || _); simpl; [done|].
  rewrite elem_of_union, elem_of_singleton. tauto.
Qed.

(** What [getWithKey] answers depends on the blob of its key alone. *)
Lemma getWithKey_frame (cacheKey : string) (w1 w2 : MemVault.FS) :
  MemVault.files w1 !! PDFCache.getCachePath cacheKey
    = MemVault.files w2 !! PDFCache.getCachePath cacheKey →
  (PDFCache.getCachePath cacheKey ∈ MemVault.dirs w1
   ↔ PDFCache.getCachePath cacheKey ∈ MemVault.dirs w2) →
  (PDFCache.getWithKey MemVault.vault parseEntry cacheKey w1).1
  = (PDFCache.getWithKey MemVault.vault parseEntry cacheKey w2).1.
Proof.
  intros Hfiles Hdirs.
  destruct (MemVault.files w1 !! PDFCache.getCachePath cacheKey) as [data|] eqn:H1.
  - rewrite (getWithKey_hit parseEntry cacheKey data w1 H1).
    by rewrite (getWithKey_hit parseEntry cacheKey data w2 (eq_sym Hfiles)).
  - unfold PDFCache.getWithKey, io_try, io_bind; simpl. unfold MemVault.fs_exists, MemVault.fs_read.
    rewrite H1, <- Hfiles.
    rewrite (bool_decide_ext _ _ Hdirs).
    rewrite (bool_decide_eq_false_2 (is_Some None)) by (by intros [? ?]). simpl.
    destruct (bool_decide _); [|done]. by rewrite H1, <- Hfiles.
Qed.

(** X10. Writing the entry of one key leaves the answer for every other key
    as it was: the blobs of different keys are different files, and none of
    them is the cache directory. *)
Theorem setWithKey_other_key (k1 k2 : string) (entry : CacheEntry) (w : MemVault.FS) :
  k1 ≠ k2 →
  (PDFCache.getWithKey MemVault.vault parseEntry k2
     (PDFCache.setWithKey MemVault.vault stringifyEntry k1 entry w).2).1
  = (PDFCache.getWithKey MemVault.vault parseEntry k2 w).1.
Proof.
  intros Hne. apply getWithKey_frame.
  - rewrite setWithKey_files. apply lookup_insert_ne.
    intros H. by apply getCachePath_inj in H.
  - apply setWithKey_dirs, getCachePath_not_cacheDir.
Qed.

Variable selectiveExtract : string → PDFProcessingOptions → Result string.
Variable localExtract : string → Result string.

(** X11. A run that extracts a text stores it under the key of the file
    and the options, and every later run with that key returns the stored
    text without reading the file or calling a parser: whichever parsers the
    later run is given, and whatever the file holds by then, the answer and
    the vault stay the same. *)
Theorem parseFile_served_from_cache
    (file : TFile) (options : option PDFProcessingOptions) (w : MemVault.FS)
    (binaryContent text : string) :
  let cacheKey := PDFParser.getCacheKeyWithOptions stringifyOptions file options in
  let finalOptions := PDFParser.getProcessingOptions (size file) options in
  let entry := {| response := text; elapsed_time_ms := 0; options := Some finalOptions |} in
  parseEntry (stringifyEntry entry) = Ok (Some entry) →
  MemVault.no_blob cacheKey w →
  MemVault.files w !! path file = Some binaryContent →
  (if negb (no_keys finalOptions) then selectiveExtract binaryContent finalOptions
   else localExtract binaryContent) = Ok text →
  ∃ w',
    PDFParser.parseFile MemVault.vault stringifyEntry parseEntry stringifyOptions
      selectiveExtract localExtract file options w = (Ok text, w')
    ∧ MemVault.files w'
      = <[PDFCache.getCachePath cacheKey := stringifyEntry entry]> (MemVault.files w)
    ∧ ∀ selectiveExtract' localExtract' w'',
        MemVault.files w'' !! PDFCache.getCachePath cacheKey
          = MemVault.files w' !! PDFCache.getCachePath cacheKey →
        PDFParser.parseFile MemVault.vault stringifyEntry parseEntry stringifyOptions
          selectiveExtract' localExtract' file options w'' = (Ok text, w'').
Proof.
  intros cacheKey finalOptions entry Hjson Hmiss Hbytes Htext.
  exists (PDFCache.setWithKey MemVault.vault stringifyEntry cacheKey entry w).2.
  split; [|split].
  - unfold PDFParser.parseFile, io_try, io_bind.
    fold cacheKey. rewrite getWithKey_miss by done. simpl.
    unfold MemVault.fs_read. rewrite Hbytes. unfold io_lift.
    fold finalOptions. rewrite Htext. fold entry.
    pose proof (setWithKey_returns MemVault.vault stringifyEntry cacheKey entry w) as Hset.
    destruct (PDFCache.setWithKey MemVault.vault stringifyEntry cacheKey entry w) as [r w'].
    simpl in Hset. subst r. reflexivity.
  - apply setWithKey_files.
  - intros selectiveExtract' localExtract' w'' Hblob.
    rewrite setWithKey_files, lookup_insert_eq in Hblob.
    unfold PDFParser.parseFile, io_try, io_bind. fold cacheKey.
    rewrite (getWithKey_hit parseEntry cacheKey _ w'' Hblob), Hjson. reflexivity.
Qed.

(** X12. A run whose extraction fails caches nothing: the vault is left as
    it was, without even the cache directory being created, so the error
    text is never served again from the cache and the next run tries the
    extraction anew. The same holds when the file cannot be read. *)
Theorem parseFile_failure_not_cached
    (file : TFile) (options : option PDFProcessingOptions) (w : MemVault.FS) :
  let cacheKey := PDFParser.getCacheKeyWithOptions stringifyOptions file options in
  let finalOptions := PDFParser.getProcessingOptions (size file) options in
  MemVault.no_blob cacheKey w →
  (∀ binaryContent message,
     MemVault.files w !! path file = Some binaryContent →
     (if negb (no_keys finalOptions) then selectiveExtract binaryContent finalOptions
      else localExtract binaryContent) = Throw message →
     PDFParser.parseFile MemVault.vault stringifyEntry parseEntry stringifyOptions
       selectiveExtract localExtract file options w
     = (Ok (PDFParser.errorText file message), w))
  ∧ (MemVault.files w !! path file = None →
     ∃ text,
       PDFParser.parseFile MemVault.vault stringifyEntry parseEntry stringifyOptions
         selectiveExtract localExtract file options w = (Ok text, w)).
Proof.
  intros cacheKey finalOptions Hmiss. split.
  - intros binaryContent message Hbytes Hfail.
    unfold PDFParser.parseFile, io_try, io_bind.
    fold cacheKey. rewrite getWithKey_miss by done. simpl.
    unfold MemVault.fs_read. rewrite Hbytes. unfold io_lift.
    fold finalOptions. by rewrite Hfail.
  - intros Hnone. eexists.
    unfold PDFParser.parseFile, io_try, io_bind.
    fold cacheKey. rewrite getWithKey_miss by done. simpl.
    unfold MemVault.fs_read. rewrite Hnone. reflexivity.
Qed.

End FacadeCache.

Lemma setWithKey_other_key_witness :
  (PDFCache.getWithKey MemVault.vault Samples.decode "b"
     (PDFCache.setWithKey MemVault.vault Samples.encode "a" Samples.entry
        Samples.vault_with_report).2).1
  = (PDFCache.getWithKey MemVault.vault Samples.decode "b" Samples.vault_with_report).1.
Proof.
  apply (setWithKey_other_key Samples.encode Samples.decode "a" "b" Samples.entry
           Samples.vault_with_report).
  discriminate.
Defined.

Lemma parseFile_served_from_cache_witness :
  ∃ w',
    PDFParser.parseFile MemVault.vault Samples.encode Samples.decode_plain (fun _ => "{}")
      (fun _ _ => Throw "not used") (fun _ => Ok "--- Page 1 ---") Samples.report None
      Samples.vault_with_report = (Ok "--- Page 1 ---", w')
    ∧ PDFParser.parseFile MemVault.vault Samples.encode Samples.decode_plain (fun _ => "{}")
        (fun _ _ => Throw "not used") (fun _ => Throw "not used") Samples.report None w'
      = (Ok "--- Page 1 ---", w').
Proof.
  destruct (parseFile_served_from_cache Samples.encode Samples.decode_plain (fun _ => "{}")
              (fun _ _ => Throw "not used") (fun _ => Ok "--- Page 1 ---")
              Samples.report None Samples.vault_with_report "%PDF-1.7" "--- Page 1 ---")
    as (w' & Hfirst & _ & Hlater).
  - reflexivity.
  - split; [vm_compute; reflexivity | apply not_elem_of_empty].
  - reflexivity.
  - reflexivity.
  - exists w'. split; [exact Hfirst|]. by apply Hlater.
Defined.

Lemma parseFile_failure_not_cached_witness :
  PDFParser.parseFile MemVault.vault Samples.encode Samples.decode (fun _ => "{}")
    (fun _ _ => Throw "not used") (fun _ => Throw "Local PDF parsing failed: bad XRef entry")
    Samples.report None Samples.vault_with_report
  = (Ok ("[Error: Could not extract content from PDF report. "
         +:+ "Local PDF parsing failed: bad XRef entry]"),
     Samples.vault_with_report).
Proof.
  refine (proj1 (parseFile_failure_not_cached Samples.encode Samples.decode (fun _ => "{}")
                   (fun _ _ => Throw "not used")
                   (fun _ => Throw "Local PDF parsing failed: bad XRef entry")
                   Samples.report None Samples.vault_with_report _) "%PDF-1.7"
                "Local PDF parsing failed: bad XRef entry" _ _).
  - split; [vm_compute; reflexivity | apply not_elem_of_empty].
  - reflexivity.
  - reflexivity.
Defined.

(** ** Inline options, part by part *)

Section EmbedOptionsParts.

Import ContextProcessor.

Lemma applyParts_snoc (options : EmbedOptions) (parts : list string) (part : string) :
  applyParts options (parts ++ [part]) = (o ← applyParts options parts; applyPart o part).
Proof. unfold applyParts. by rewrite foldl_app. Qed.

Lemma last_omap_snoc {A B} (f : A → option B) (l : list A) (x : A) :
  last (omap f (l ++ [x])) = match f x with Some y => Some y | None => last (omap f l) end.
Proof.
  rewrite omap_app. simpl. destruct (f x) as [y|]; [apply last_snoc|by rewrite app_nil_r].
Qed.

Lemma applyPart_throws (options : EmbedOptions) (part : string) :
  (∃ message, applyPart options part = Throw message) ↔ bare_pages part = true.
Proof.
  unfold applyPart, bare_pages, part_key, part_value.
  destruct (key_value part) as [key value]. simpl.
  destruct (decide (JS.toLowerCase key = "pages")) as [Hk|Hk].
  - rewrite (bool_decide_eq_true_2 _ Hk). destruct value as [v|]; simpl.
    + split; [|discriminate]. intros [m Hm]. by destruct (pageMatch v) as [[? ?]|].
    + split; [done|]. intros _. by eexists.
  - rewrite (bool_decide_eq_false_2 _ Hk). simpl.
    split; [|discriminate]. intros [m Hm]. by repeat case_decide.
Qed.

Lemma applyParts_throws (options : EmbedOptions) (parts : list string) :
  (∃ message, applyParts options parts = Throw message)
  ↔ Exists (fun part => bare_pages part = true) parts.
Proof.
  induction parts as [|part parts IH] using rev_ind.
  - split; [intros [m Hm]; discriminate Hm | by intros H%Exists_nil].
  - rewrite applyParts_snoc, Exists_app, Exists_cons, Exists_nil, <- IH.
    destruct (applyParts options parts) as [o|message]; simpl.
    + rewrite <- (applyPart_throws o). split; [tauto|].
      intros [[m Hm]|[H|[]]]; [discriminate Hm|exact H].
    + split; eauto.
Qed.

(** X13. [parseEmbedOptions] throws exactly when one of the comma-separated
    parts names the key [pages] (in any case, with blanks around it) and has
    no colon: the value of such a part is [undefined], and matching it
    against the page pattern is a type error. Every other options string,
    also one with unknown keys or values that do not parse, gives an options
    object. *)
Theorem parseEmbedOptions_throws (optionsString : string) :
  ((∃ message, parseEmbedOptions (Some optionsString) = Throw message)
   ↔ Exists (fun part => bare_pages part = true) (JS.split "," optionsString))
  ∧ (∀ message, parseEmbedOptions (Some optionsString) = Throw message →
       message = "Cannot read properties of undefined (reading 'match')").
Proof.
  split.
  - destruct optionsString as [|c r].
    + split; [intros [m Hm]; discriminate Hm|].
      intros H. apply Exists_cons in H as [H|H%Exists_nil]; [|done].
      vm_compute in H. discriminate H.
    + apply applyParts_throws.
  - intros message. destruct optionsString as [|c r]; [discriminate|].
    unfold parseEmbedOptions. generalize (JS.split "," (String c r)) as parts.
    induction parts as [|part parts IH] using rev_ind; [discriminate|].
    rewrite applyParts_snoc.
    destruct (applyParts empty parts) as [o|m]; simpl; [|exact IH].
    unfold applyPart. destruct (key_value part) as [key value].
    repeat case_decide; try discriminate.
    destruct value as [v|]; [destruct (pageMatch v) as [[? ?]|]; discriminate|].
    by intros [= <-].
Qed.

(** X14. The parts of an options string are applied one after the other
    and each field keeps what the last part that sets it says; an earlier
    part for the same field is overwritten, not merged: of two [search]
    parts only the term of the second is searched for. A [pages] part whose
    value holds no page range sets nothing and leaves an earlier range in
    place. *)
Theorem parseEmbedOptions_last_wins (optionsString : string) (options : EmbedOptions) :
  parseEmbedOptions (Some optionsString) = Ok options →
  let parts := JS.split "," optionsString in
  pageRange options = last (omap pages_of parts)
  ∧ searchTerms options = last (omap search_of parts)
  ∧ chapters options = last (omap chapters_of parts)
  ∧ maxPages options = last (omap max_of parts)
  ∧ maxCharacters options = last (omap chars_of parts).
Proof.
  intros Hparse parts.
  assert (applyParts empty parts = Ok options) as Happly.
  { destruct optionsString as [|c r]; [|exact Hparse].
    injection Hparse as <-. reflexivity. }
  clear Hparse. subst parts. revert options Happly.
  generalize (JS.split "," optionsString) as parts.
  induction parts as [|part parts IH] using rev_ind; intros options Happly.
  - injection Happly as <-. done.
  - rewrite applyParts_snoc in Happly.
    destruct (applyParts empty parts) as [o|m]; [|discriminate]. simpl in Happly.
    destruct (IH o eq_refl) as (H1 & H2 & H3 & H4 & H5).
    rewrite !last_omap_snoc, <- H1, <- H2, <- H3, <- H4, <- H5.
    unfold applyPart in Happly.
    unfold pages_of, search_of, chapters_of, max_of, chars_of, part_key, part_value.
    destruct (key_value part) as [key value]. simpl.
    generalize dependent (JS.toLowerCase key). intros k Happly.
    repeat case_decide; simplify_eq; try (destruct_or?; simplify_eq);
      try tauto; try done.
    destruct value as [v|]; [|discriminate]. simpl.
    destruct (pageMatch v) as [[s e]|]; by simplify_eq.
Qed.

End EmbedOptionsParts.

Lemma parseEmbedOptions_throws_witness :
  ∃ message, ContextProcessor.parseEmbedOptions (Some "max:3, Pages ") = Throw message.
Proof.
  apply (proj2 (proj1 (parseEmbedOptions_throws "max:3, Pages "))).
  apply Exists_cons. right. apply Exists_cons. left. reflexivity.
Defined.

Lemma parseEmbedOptions_last_wins_witness :
  ContextProcessor.searchTerms
    (ContextProcessor.set_searchTerms
       (ContextProcessor.set_maxPages
          (ContextProcessor.set_searchTerms ContextProcessor.empty [Some "method"]) (ContextProcessor.Finite 5))
       [Some "results"])
  = last (omap search_of (JS.split "," "search:method,max:5,search:results")).
Proof.
  exact (proj1 (proj2 (parseEmbedOptions_last_wins "search:method,max:5,search:results"
                         (ContextProcessor.set_searchTerms
                            (ContextProcessor.set_maxPages
                               (ContextProcessor.set_searchTerms ContextProcessor.empty
                                  [Some "method"]) (ContextProcessor.Finite 5))
                            [Some "results"]) eq_refl))).
Defined.

(** ** The dispatcher and the project parser *)

Section Dispatch.

Import FileParserManager.

Context {W ProjectConfig : Type}.
Variable vault : Vault W.
Variable vault_read : TFile → IO W string.
Variable canvasPrompt : TFile → IO W string.
Variable getFileContext : ProjectConfig → string → IO W (option string).
Variable setFileContext : ProjectConfig → string → string → IO W unit.
Variable stringifyEntry : CacheEntry → string.
Variable parseEntry : string → Result (option CacheEntry).
Variable stringifyOptions : PDFProcessingOptions → string.
Variable selectiveExtract : string → PDFProcessingOptions → Result string.
Variable localExtract : string → Result string.

(** The parsers that the constructor registers. *)
Lemma new_lookup (isProjectMode : bool) (project : option ProjectConfig) (ext : string) :
  new isProjectMode project !! ext
  = if decide (ext = "md") then Some MarkdownParser
    else if decide (ext = "pdf")
         then Some (if isProjectMode then Docs4LLMParser project else PdfParser)
    else if decide (ext = "canvas") then Some CanvasParser
    else None.
Proof.
  unfold new, registerParser. destruct isProjectMode; simpl;
    repeat case_decide; subst; by simplify_map_eq.
Qed.

Lemma io_try_returns {A} (body : IO W A) (handler : string → A) (w : W) :
  ∃ a, (io_try body (fun message => io_ret (handler message)) w).1 = Ok a.
Proof. unfold io_try. destruct (body w) as [[a|e] w']; simpl; eauto. Qed.

Lemma parser_parseFile_returns (parser : FileParser ProjectConfig)
    (file : TFile) (options : option PDFProcessingOptions) (w : W) :
  parser ≠ MarkdownParser →
  ∃ text, (parser_parseFile vault vault_read canvasPrompt getFileContext setFileContext
             stringifyEntry parseEntry stringifyOptions selectiveExtract localExtract
             parser file options w).1 = Ok text.
Proof.
  destruct parser as [| | |currentProject]; intros Hp; [done| | |]; simpl.
  - apply parseFile_returns.
  - apply io_try_returns.
  - apply io_try_returns.
Qed.

(** X15. Whatever the mode, a manager supports the extensions md, pdf and
    canvas, compared as they are written, and no other. For any other
    extension [parseFile] throws "No parser found for file type: ..." and
    touches nothing; a markdown file is read from the vault, and an error of
    that read leaves [parseFile]; for a pdf or canvas file [parseFile] always
    returns a text. *)
Theorem parseFile_dispatch (isProjectMode : bool) (project : option ProjectConfig)
    (file : TFile) (options : option PDFProcessingOptions) (w : W) :
  let manager := new isProjectMode project in
  let parse :=
    parseFile vault vault_read canvasPrompt getFileContext setFileContext
      stringifyEntry parseEntry stringifyOptions selectiveExtract localExtract
      manager file options in
  supportsExtension manager (extension file)
    = bool_decide (extension file ∈ ["md"; "pdf"; "canvas"])
  ∧ (extension file ∉ ["md"; "pdf"; "canvas"] →
     parse w = (Throw ("No parser found for file type: " +:+ extension file), w))
  ∧ (extension file = "md" → parse w = vault_read file w)
  ∧ (extension file = "pdf" ∨ extension file = "canvas" → ∃ text, (parse w).1 = Ok text).
Proof.
  intros manager parse. subst parse manager.
  unfold supportsExtension, parseFile. rewrite new_lookup.
  split; [|split; [|split]].
  - apply bool_decide_ext. rewrite !elem_of_cons, elem_of_nil.
    repeat case_decide; split; intros Hs; try (by eexists); try tauto.
    by destruct Hs.
  - rewrite !elem_of_cons, elem_of_nil. intros Hext.
    by repeat case_decide; try tauto.
  - intros ->. reflexivity.
  - intros Hext. repeat case_decide; try (destruct Hext; congruence).
    + apply parser_parseFile_returns. by destruct isProjectMode.
    + by apply parser_parseFile_returns.
Qed.

(** X16. The project parser returns a text in every case. Without a
    project it answers "[Error: Could not extract content from ...]" (the
    reason is not part of the text) and touches neither the cache nor the
    file. A cached text that is not empty is returned without reading the
    file; and when the text is extracted anew, because nothing or the empty
    text is cached, it is stored under the path of the file, followed by the
    options when there are any. *)
Theorem docs4llm_parseFile_cases
    (file : TFile) (options : option PDFProcessingOptions) (w : W) :
  let parse currentProject :=
    docs4llm_parseFile vault getFileContext setFileContext stringifyOptions
      selectiveExtract localExtract currentProject file options in
  let cacheKey := match given options with
                  | Some o => path file +:+ ":" +:+ stringifyOptions o
                  | None => path file
                  end in
  (∀ currentProject, ∃ text, (parse currentProject w).1 = Ok text)
  ∧ parse None w = (Ok ("[Error: Could not extract content from " +:+ basename file +:+ "]"), w)
  ∧ (∀ project cached w1,
       getFileContext project cacheKey w = (Ok (Some cached), w1) → cached ≠ "" →
       parse (Some project) w = (Ok cached, w1))
  ∧ (∀ project cached w1 w2 binaryContent text,
       getFileContext project cacheKey w = (Ok cached, w1) →
       cached = None ∨ cached = Some "" →
       readBinary vault file w1 = (Ok binaryContent, w2) →
       match given options with
       | Some o => selectiveExtract binaryContent o
       | None => localExtract binaryContent
       end = Ok text →
       parse (Some project) w
       = match setFileContext project cacheKey text w2 with
         | (Ok _, w3) => (Ok text, w3)
         | (Throw _, w3) =>
             (Ok ("[Error: Could not extract content from " +:+ basename file +:+ "]"), w3)
         end).
Proof.
  intros parse cacheKey. subst parse. split; [|split; [|split]].
  - intros currentProject. apply io_try_returns.
  - reflexivity.
  - intros project cached w1 Hget Hcached.
    unfold docs4llm_parseFile, io_try, io_bind. fold cacheKey. rewrite Hget.
    by destruct cached.
  - intros project cached w1 w2 binaryContent text Hget Hcached Hread Htext.
    unfold docs4llm_parseFile, io_try, io_bind. fold cacheKey. rewrite Hget.
    assert (match cached with Some (String _ _) => False | _ => True end) as Hc.
    { by destruct Hcached as [-> | ->]. }
    destruct cached as [[|c r]|]; try done;
      rewrite Hread; unfold io_lift; rewrite Htext;
      by destruct (setFileContext project cacheKey text w2) as [[[]|e] w3].
Qed.

End Dispatch.

(** ** Context notes *)

Section ContextNotes.

Import ContextProcessor.

Context {W : Type}.
Variable NOTE_CONTEXT_PROMPT_TAG : string.
Variable supportsExtension : string → bool.
Variable parseFile : TFile → IO W string.
Variable processEmbeddedPDFs : string → IO W string.

Lemma processNote_returns (excludedNotePaths : gset string) (note : TFile)
    (prompt_tag additionalContext : string) (w : W) :
  ∃ text w',
    processNote supportsExtension parseFile processEmbeddedPDFs excludedNotePaths
      note prompt_tag additionalContext w = (Ok text, w').
Proof.
  unfold processNote, io_try.
  match goal with |- context [match ?body w with _ => _ end] => destruct (body w) as [[text|e] w'] end;
    simpl; eauto.
Qed.

(** X17. [processNote] never throws and only ever appends to the context.
    A note that is excluded, or whose extension no parser supports, leaves
    the context and the vault untouched: the file is not parsed. When the
    parser, or the processing of embedded documents in a markdown note,
    throws, the error block of the note is appended instead of its text. *)
Theorem processNote_appends (excludedNotePaths : gset string) (note : TFile)
    (prompt_tag additionalContext : string) (w : W) :
  let result :=
    processNote supportsExtension parseFile processEmbeddedPDFs excludedNotePaths
      note prompt_tag additionalContext w in
  (∃ appended, result.1 = Ok (additionalContext +:+ appended))
  ∧ (path note ∈ excludedNotePaths ∨ supportsExtension (extension note) = false →
     result = (Ok additionalContext, w))
  ∧ (path note ∉ excludedNotePaths → supportsExtension (extension note) = true →
     ∀ message w1, parseFile note w = (Throw message, w1) →
     result = (Ok (additionalContext +:+ note_error_block prompt_tag note), w1))
  ∧ (path note ∉ excludedNotePaths → supportsExtension (extension note) = true →
     extension note ≠ "md" →
     ∀ content w1, parseFile note w = (Ok content, w1) →
     result = (Ok (additionalContext +:+ note_block prompt_tag note content), w1)).
Proof.
  intros result. subst result. unfold processNote, io_try, io_bind.
  split; [|split; [|split]].
  - case_bool_decide; [exists ""; by rewrite append_empty_r|].
    destruct (supportsExtension (extension note)); simpl;
      [|exists ""; by rewrite append_empty_r].
    destruct (parseFile note w) as [[content|e] w1]; simpl; [|by eexists].
    destruct (decide (extension note = "md")); simpl; [|by eexists].
    destruct (processEmbeddedPDFs content w1) as [[content'|e'] w2]; simpl; by eexists.
  - intros [Hexcl|Hext].
    + by rewrite bool_decide_eq_true_2.
    + rewrite Hext. by case_bool_decide.
  - intros Hexcl Hext message w1 Hparse.
    rewrite bool_decide_eq_false_2, Hext by done. simpl. by rewrite Hparse.
  - intros Hexcl Hext Hmd content w1 Hparse.
    rewrite bool_decide_eq_false_2, Hext by done. simpl. rewrite Hparse.
    by rewrite decide_False.
Qed.

Lemma notes_loop_returns (excludedNotePaths : gset string) (contextNotes : list TFile)
    (includedFilePaths : gset string) (additionalContext : string) (w : W) :
  ∃ text w',
    notes_loop NOTE_CONTEXT_PROMPT_TAG supportsExtension parseFile processEmbeddedPDFs
      excludedNotePaths contextNotes includedFilePaths additionalContext w = (Ok text, w').
Proof.
  revert includedFilePaths additionalContext w.
  induction contextNotes as [|note rest IH]; intros included ctx w; simpl.
  - by eexists _, _.
  - case_bool_decide; [apply IH|]. unfold io_bind.
    destruct (processNote_returns excludedNotePaths note NOTE_CONTEXT_PROMPT_TAG ctx w)
      as (text & w' & ->).
    apply IH.
Qed.

Lemma notes_loop_first_occurrences (excludedNotePaths : gset string)
    (contextNotes : list TFile) (includedFilePaths : gset string)
    (additionalContext : string) (w : W) :
  notes_loop NOTE_CONTEXT_PROMPT_TAG supportsExtension parseFile processEmbeddedPDFs
    excludedNotePaths (first_occurrences includedFilePaths contextNotes)
    includedFilePaths additionalContext w
  = notes_loop NOTE_CONTEXT_PROMPT_TAG supportsExtension parseFile processEmbeddedPDFs
      excludedNotePaths contextNotes includedFilePaths additionalContext w.
Proof.
  revert includedFilePaths additionalContext w.
  induction contextNotes as [|note rest IH]; intros included ctx w; simpl; [done|].
  case_bool_decide as Hin; [apply IH|]. simpl.
  rewrite bool_decide_eq_false_2 by done. unfold io_bind.
  destruct (processNote _ _ _ _ _ _ _ w) as [[text|e] w']; [apply IH|done].
Qed.

(** X18. [processContextNotes] never throws, and a path is processed once:
    a context note whose path came earlier in the list, or is the path of
    the active note when that one is included, is skipped, so that the
    result and the effects are those of the list without these notes. *)
Theorem processContextNotes_once (excludedNotePaths : gset string)
    (contextNotes : list TFile) (includeActiveNote : bool) (activeNote : option TFile) (w : W) :
  let seen := match includeActiveNote, activeNote with
              | true, Some active => {[path active]}
              | _, _ => ∅
              end in
  let process notes :=
    processContextNotes NOTE_CONTEXT_PROMPT_TAG supportsExtension parseFile processEmbeddedPDFs
      excludedNotePaths notes includeActiveNote activeNote w in
  (∃ text w', process contextNotes = (Ok text, w'))
  ∧ process (first_occurrences seen contextNotes) = process contextNotes.
Proof.
  intros seen process. subst seen process. unfold processContextNotes. split.
  - destruct includeActiveNote, activeNote as [active|]; try apply notes_loop_returns.
    unfold io_bind.
    destruct (processNote_returns excludedNotePaths active "active_note" "" w)
      as (text & w' & ->).
    apply notes_loop_returns.
  - destruct includeActiveNote, activeNote as [active|];
      try apply notes_loop_first_occurrences.
    unfold io_bind.
    destruct (processNote _ _ _ _ _ _ _ w) as [[text|e] w']; [|done].
    apply notes_loop_first_occurrences.
Qed.

End ContextNotes.

(** ** The text of a page *)

Section PageText.

Import PageParser.

Lemma words_cons_space (c : ascii) (r : string) :
  JS.is_space c = true → words (String c r) = words r.
Proof. intros H. simpl. by rewrite H. Qed.

Lemma words_cons_word (c : ascii) (r : string) :
  JS.is_space c = false →
  words (String c r)
  = if starts_word r then push_char c (words r) else String c EmptyString :: words r.
Proof. intros H. simpl. by rewrite H. Qed.

Lemma words_starts (r : string) : starts_word r = true → ∃ w ws, words r = w :: ws.
Proof.
  destruct r as [|d r]; [done|]. simpl. intros H. apply negb_true_iff in H. rewrite H.
  destruct (starts_word r); [|by eauto]. destruct (words r); simpl; eauto.
Qed.

Lemma words_wf (s : string) : Forall (fun w => w ≠ "" ∧ no_space w = true) (words s).
Proof.
  induction s as [|c r IH]; [constructor|]. simpl.
  destruct (JS.is_space c) eqn:Hc; [done|].
  destruct (starts_word r).
  - destruct IH as [|w ws [Hw Hn] IH]; simpl.
    + repeat constructor; [done|]. simpl. by rewrite Hc.
    + constructor; [|done]. split; [done|]. simpl. by rewrite Hc, Hn.
  - constructor; [|done]. split; [done|]. simpl. by rewrite Hc.
Qed.

Lemma unwords_cons (w : string) (ws : list string) :
  String.concat " " (w :: ws)
  = match ws with [] => w | _ :: _ => w +:+ " " +:+ String.concat " " ws end.
Proof. reflexivity. Qed.

Lemma unwords_word (w : string) (ws : list string) :
  w ≠ "" → ∃ c r, String.concat " " (w :: ws) = String c r.
Proof.
  intros Hw. destruct w as [|c w]; [done|]. rewrite unwords_cons.
  destruct ws; [by eauto|]. rewrite append_cons. eauto.
Qed.

Lemma trimEnd_cons_word (c : ascii) (s : string) :
  JS.is_space c = false → JS.trimEnd (String c s) = String c (JS.trimEnd s).
Proof. intros H. simpl. rewrite H. by destruct (JS.trimEnd s). Qed.

(** The text left when white space is collapsed and the end is trimmed. *)
Lemma trimEnd_collapse (s : string) (inRun : bool) :
  JS.trimEnd (LocalPDFParser.collapse inRun s)
  = match words s with
    | [] => ""
    | ws => (if negb inRun && negb (starts_word s) then " " else "") +:+ String.concat " " ws
    end.
Proof.
  revert inRun. induction s as [|c r IH]; intros inRun; [done|].
  destruct (JS.is_space c) eqn:Hc.
  - rewrite words_cons_space by done. simpl LocalPDFParser.collapse. rewrite Hc.
    simpl starts_word. rewrite Hc. destruct inRun.
    + rewrite IH. simpl. by destruct (words r).
    + change (JS.trimEnd (String " " ?x))
        with (match JS.trimEnd x with "" => "" | r' => String " " r' end).
      rewrite IH. pose proof (words_wf r) as Hwf.
      destruct (words r) as [|w ws]; [done|].
      apply Forall_cons in Hwf as [[Hw _] _].
      destruct (unwords_word w ws Hw) as (d & t & ->). reflexivity.
  - rewrite words_cons_word by done. simpl LocalPDFParser.collapse. rewrite Hc.
    rewrite trimEnd_cons_word, IH by done.
    change (starts_word (String c r)) with (negb (JS.is_space c)).
    rewrite Hc. simpl negb. rewrite andb_false_r.
    destruct r as [|d r']; [done|].
    change (starts_word (String d r')) with (negb (JS.is_space d)).
    destruct (JS.is_space d) eqn:Hd.
    + rewrite words_cons_space by done. simpl negb. simpl andb. cbv iota.
      destruct (words r') as [|w ws]; [done|]. reflexivity.
    + destruct (words_starts (String d r')) as (w & ws & Hws); [simpl; by rewrite Hd|].
      rewrite Hws. simpl negb. simpl andb. cbv iota. unfold push_char.
      rewrite !append_nil, !unwords_cons. by destruct ws.
Qed.

Lemma trimStart_collapse_true (s : string) :
  JS.trimStart (LocalPDFParser.collapse true s) = LocalPDFParser.collapse true s.
Proof.
  induction s as [|c r IH]; [done|]. simpl. destruct (JS.is_space c) eqn:Hc; [done|].
  simpl. by rewrite Hc.
Qed.

Lemma trimStart_collapse (s : string) :
  JS.trimStart (LocalPDFParser.collapse false s) = LocalPDFParser.collapse true s.
Proof.
  destruct s as [|c r]; [done|]. simpl. destruct (JS.is_space c) eqn:Hc.
  - simpl. apply trimStart_collapse_true.
  - simpl. by rewrite Hc.
Qed.

(** Collapsing white space and trimming leaves the words of the text with
    one space between them. *)
Lemma trim_normalizeWhitespace (s : string) :
  JS.trim (LocalPDFParser.normalizeWhitespace s) = String.concat " " (words s).
Proof.
  unfold JS.trim, LocalPDFParser.normalizeWhitespace.
  rewrite trimStart_collapse, trimEnd_collapse. by destruct (words s).
Qed.

Lemma starts_word_app (a : string) (c : ascii) (b : string) :
  JS.is_space c = true → starts_word (a +:+ String c b) = starts_word a.
Proof. intros Hc. destruct a; simpl; [by rewrite Hc|done]. Qed.

Lemma words_app_space (a : string) (c : ascii) (b : string) :
  JS.is_space c = true → words (a +:+ String c b) = words a ++ words b.
Proof.
  intros Hc. induction a as [|x a IH].
  - rewrite append_nil. by apply words_cons_space.
  - rewrite append_cons. destruct (JS.is_space x) eqn:Hx.
    + by rewrite !words_cons_space.
    + rewrite !words_cons_word, starts_word_app, IH by done.
      destruct (starts_word a) eqn:Ha; [|done].
      by destruct (words_starts a Ha) as (w & ws & ->).
Qed.

Lemma words_trimStart (s : string) : words (JS.trimStart s) = words s.
Proof.
  induction s as [|c r IH]; [done|]. simpl JS.trimStart.
  destruct (JS.is_space c) eqn:Hc; [|done]. by rewrite words_cons_space.
Qed.

Lemma words_trimEnd (s : string) : words (JS.trimEnd s) = words s.
Proof.
  induction s as [|c r IH]; [done|].
  destruct (JS.is_space c) eqn:Hc.
  - rewrite words_cons_space by done. rewrite <- IH. simpl JS.trimEnd.
    destruct (JS.trimEnd r) as [|d t] eqn:Hr.
    + by rewrite Hc.
    + by rewrite words_cons_space.
  - rewrite trimEnd_cons_word, !words_cons_word, IH by done.
    replace (starts_word (JS.trimEnd r)) with (starts_word r); [done|].
    destruct r as [|d r']; [done|].
    change (starts_word (String d r')) with (negb (JS.is_space d)).
    simpl JS.trimEnd. destruct (JS.trimEnd r'); [|done].
    destruct (JS.is_space d) eqn:Hd; [done|]. simpl. by rewrite Hd.
Qed.

Lemma words_trim (s : string) : words (JS.trim s) = words s.
Proof. unfold JS.trim. by rewrite words_trimEnd, words_trimStart. Qed.

Lemma words_blank (s : string) : JS.trim s = "" → words s = [].
Proof. intros H. by rewrite <- words_trim, H. Qed.

Lemma words_concat (l : list string) : words (String.concat " " l) = l ≫= words.
Proof.
  induction l as [|a l IH]; [done|]. rewrite unwords_cons. destruct l as [|b l].
  - simpl. by rewrite app_nil_r.
  - change (" " +:+ ?x) with (String " " x). rewrite words_app_space, IH by done. done.
Qed.

Lemma words_nonblank (items : list string) :
  List.filter (fun text => negb (String.length (JS.trim text) =? 0)%nat) items ≫= words
  = items ≫= words.
Proof.
  induction items as [|a l IH]; [done|]. cbn [List.filter].
  destruct (JS.trim a) as [|c r] eqn:Ha; cbn [String.length Nat.eqb negb].
  - by rewrite bind_cons, IH, (words_blank a Ha).
  - by rewrite !bind_cons, IH.
Qed.

(** X19. The text that [LocalPDFParser] makes of the items of a page is
    their words, in order, with exactly one space between two words: a word
    is a maximal run of characters that are not white space, so the text has
    no white space at either end, no line break and no run of spaces, and
    items that are blank leave no trace. *)
Theorem pageText_words (items : list string) :
  LocalPDFParser.pageText items = String.concat " " (items ≫= words)
  ∧ Forall (fun w => w ≠ "" ∧ no_space w = true) (items ≫= words).
Proof.
  split.
  - unfold LocalPDFParser.pageText.
    by rewrite trim_normalizeWhitespace, words_concat, words_nonblank.
  - induction items as [|a l IH]; [constructor|]. simpl.
    apply Forall_app. split; [apply words_wf|exact IH].
Qed.

Variable fl : Q → Q.
Variable detectSectionType : string → TextItem → bool → option TextSection → SectionType.

Lemma words_itemText (item : TextItem) : words (itemText item) = words (itemStr item).
Proof. unfold itemText, itemStr. destruct (str item); [apply words_trim|done]. Qed.

Lemma pushSection_words (sections : list TextSection) (currentSection : option TextSection)
    (currentText : string) :
  (currentSection = None → currentText = "") →
  map ts_content (pushSection sections currentSection currentText) ≫= words
  = (map ts_content sections ≫= words) ++ words currentText.
Proof.
  intros Hnone. unfold pushSection. destruct currentSection as [cur|].
  - destruct (JS.trim currentText) as [|c r] eqn:Ht.
    + by rewrite (words_blank _ Ht), app_nil_r.
    + rewrite map_app, bind_app. cbn [map ts_content]. rewrite bind_cons.
      change (@nil string ≫= words) with (@nil string). rewrite app_nil_r.
      by rewrite <- Ht, words_trim.
  - rewrite Hnone by done. by rewrite app_nil_r.
Qed.

Lemma parseItems_words (st : ParserState) (i : nat) (items : list TextItem) :
  (st_currentSection st = None → st_currentText st = "") →
  let st' := parseItems fl detectSectionType st i items in
  (st_currentSection st' = None → st_currentText st' = "")
  ∧ (map ts_content (st_sections st') ≫= words) ++ words (st_currentText st')
    = ((map ts_content (st_sections st) ≫= words) ++ words (st_currentText st))
      ++ (map itemStr items ≫= words).
Proof.
  revert st i. induction items as [|item rest IH]; intros st i Hnone; cbn [parseItems map].
  - cbv zeta. change (@nil string ≫= words) with (@nil string). by rewrite !app_nil_r.
  - cbv zeta. assert ((st_currentSection (parseItem fl detectSectionType st i item) = None →
             st_currentText (parseItem fl detectSectionType st i item) = "")
            ∧ (map ts_content (st_sections (parseItem fl detectSectionType st i item)) ≫= words)
                ++ words (st_currentText (parseItem fl detectSectionType st i item))
              = ((map ts_content (st_sections st) ≫= words) ++ words (st_currentText st))
                ++ words (itemStr item)) as [Hnone' Hstep].
    { rewrite <- words_itemText. unfold parseItem.
      destruct (itemText item) as [|c r] eqn:Htext; [by rewrite app_nil_r|].
      assert (∀ b : bool,
                (b = false → is_Some (st_currentSection st)) →
                let st' :=
                  if b
                  then {| st_sections := pushSection (st_sections st) (st_currentSection st)
                                           (st_currentText st);
                          st_currentSection :=
                            Some {| type := detectSectionType (String c r) item (i =? 0)%nat
                                              (st_currentSection st);
                                    ts_content := ""; level := None;
                                    position := itemPosition item |};
                          st_currentText := String c r |}
                  else {| st_sections := st_sections st;
                          st_currentSection := st_currentSection st;
                          st_currentText := st_currentText st +:+ " " +:+ String c r |} in
                (st_currentSection st' = None → st_currentText st' = "")
                ∧ (map ts_content (st_sections st') ≫= words) ++ words (st_currentText st')
                  = ((map ts_content (st_sections st) ≫= words) ++ words (st_currentText st))
                    ++ words (String c r)) as Hcases.
      { intros [|] Hb; cbn [st_sections st_currentSection st_currentText].
        - split; [done|]. by rewrite pushSection_words.
        - split; [intros Hn; destruct (Hb eq_refl) as [cur Hcur]; congruence|].
          change (" " +:+ ?x) with (String " " x). by rewrite words_app_space, app_assoc. }
      apply Hcases. destruct (st_currentSection st); [by eauto|done]. }
    destruct (IH _ (S i) Hnone') as [Hfinal Hwords]. split; [exact Hfinal|].
    rewrite Hwords, Hstep, bind_cons. by rewrite <- !app_assoc.
Qed.

(** X20. Without [preserveStructure] the content that the structural page
    parser makes of the items of a page is the text that [LocalPDFParser]
    makes of them: however the items are classified and grouped into
    sections, the words of the page come out in the order of the items, one
    space apart, and none is lost or repeated. *)
Theorem combineTextSections_pageText (items : list TextItem) :
  combineTextSections (parseTextStructure fl detectSectionType items) false
  = LocalPDFParser.pageText (map itemStr items).
Proof.
  unfold combineTextSections, LocalPDFParser.pageText. simpl negb. cbv iota.
  rewrite !trim_normalizeWhitespace, !words_concat, words_nonblank.
  f_equal. unfold parseTextStructure.
  destruct (parseItems_words {| st_sections := []; st_currentSection := None;
                                st_currentText := "" |} 0 items (fun _ => eq_refl))
    as [Hnone Hwords].
  rewrite pushSection_words by exact Hnone. exact Hwords.
Qed.

End PageText.

(** ** Matching chapter names *)

Section ChapterMatch.

Lemma trimStart_split (s : string) :
  ∃ sp, s = sp +:+ JS.trimStart s ∧ (JS.trimStart s = "" ∨ starts_word (JS.trimStart s) = true).
Proof.
  induction s as [|c r IH]; [exists ""; by split; [|left]|].
  simpl JS.trimStart. destruct (JS.is_space c) eqn:Hc.
  - destruct IH as (sp & Hsp & Hw). exists (String c sp). split; [|done].
    rewrite append_cons. by f_equal.
  - exists "". split; [done|]. right. simpl. by rewrite Hc.
Qed.

Lemma trimEnd_split (s : string) :
  ∃ sp, s = JS.trimEnd s +:+ sp
        ∧ (JS.trimEnd s = "" ∨ ends_word (JS.trimEnd s) = true)
        ∧ (JS.trimEnd s ≠ "" → starts_word (JS.trimEnd s) = starts_word s).
Proof.
  induction s as [|c r IH]; [exists ""; by split; [|split; [left|]]|].
  destruct IH as (sp & Hsp & Hend & _). simpl JS.trimEnd.
  destruct (JS.trimEnd r) as [|d t] eqn:Hr.
  - destruct (JS.is_space c) eqn:Hc.
    + exists (String c sp). split; [|split; [by left|done]].
      rewrite append_nil. f_equal. by rewrite Hsp, append_nil.
    + exists sp. split; [|split; [right; simpl; by rewrite Hc|done]].
      rewrite append_cons. f_equal. by rewrite Hsp at 1.
  - exists sp. split; [|split; [|done]].
    + rewrite append_cons. f_equal. exact Hsp.
    + right. destruct Hend as [Hend|Hend]; [done|]. exact Hend.
Qed.

Lemma trimStart_app (pre s : string) :
  starts_word s = true → JS.trimStart (pre +:+ s) = JS.trimStart pre +:+ s.
Proof.
  intros Hs. induction pre as [|c r IH].
  - rewrite !append_nil. destruct s as [|d t]; [done|]. simpl in *.
    apply negb_true_iff in Hs. by rewrite Hs.
  - rewrite append_cons. simpl JS.trimStart. by destruct (JS.is_space c).
Qed.

Lemma trimEnd_app (s post : string) :
  ends_word s = true → JS.trimEnd (s +:+ post) = s +:+ JS.trimEnd post.
Proof.
  induction s as [|c r IH]; [done|]. intros Hs. destruct r as [|d t].
  - simpl in Hs. apply negb_true_iff in Hs. rewrite append_cons, append_nil.
    by apply trimEnd_cons_word.
  - rewrite append_cons. change (JS.trimEnd (String c ?x))
      with (match JS.trimEnd x with
            | "" => if JS.is_space c then "" else String c ""
            | r' => String c r'
            end).
    rewrite IH by exact Hs. by rewrite !append_cons.
Qed.

Lemma ends_word_app (pre s : string) : ends_word s = true → ends_word (pre +:+ s) = true.
Proof.
  intros Hs. induction pre as [|c r IH]; [by rewrite append_nil|].
  rewrite append_cons. destruct (r +:+ s) as [|d t] eqn:Hrs; [done|]. exact IH.
Qed.

Lemma starts_word_app_l (s post : string) :
  starts_word s = true → starts_word (s +:+ post) = true.
Proof. by destruct s. Qed.

(** Containment survives trimming both texts. *)
Lemma includes_trim (s p : string) :
  JS.includes s p = true → JS.includes (JS.trim s) (JS.trim p) = true.
Proof.
  intros H. apply includes_spec in H as (pre & post & ->).
  unfold JS.trim at 2.
  destruct (trimStart_split p) as (sp1 & Hp & Hstart).
  destruct (trimEnd_split (JS.trimStart p)) as (sp2 & Hp' & Hend & Hsame).
  destruct (JS.trimEnd (JS.trimStart p)) as [|c core] eqn:Hcore; [apply includes_empty|].
  destruct Hend as [Hend|Hend]; [done|].
  assert (starts_word (String c core) = true) as Hword.
  { rewrite Hsame by done. destruct Hstart as [Hstart|Hstart]; [|done].
    by rewrite Hstart in Hcore. }
  apply includes_spec.
  exists (JS.trimStart (pre +:+ sp1)), (JS.trimEnd (sp2 +:+ post)).
  rewrite Hp, Hp'. unfold JS.trim.
  replace (pre +:+ (sp1 +:+ String c core +:+ sp2) +:+ post)
    with ((pre +:+ sp1) +:+ (String c core +:+ (sp2 +:+ post)))
    by (by rewrite !append_assoc).
  rewrite trimStart_app by (by apply starts_word_app_l).
  rewrite <- (append_assoc (JS.trimStart (pre +:+ sp1)) (String c core) (sp2 +:+ post)).
  rewrite trimEnd_app by (by apply ends_word_app).
  apply append_assoc.
Qed.

(** X21. In [extractByChapters] a section of the outline is kept when
    [fuzzyMatch] accepts its title for a chapter name or the title, in
    lower case, contains the name in lower case. The second test never
    decides: a title that contains the name is accepted by [fuzzyMatch]
    already, so the sections kept are those that [fuzzyMatch] accepts. *)
Theorem extractByChapters_containment_redundant :
  (∀ title chapter,
     SelectivePDFParser.fuzzyMatch title chapter
     || JS.includes (JS.toLowerCase title) (JS.toLowerCase chapter)
     = SelectivePDFParser.fuzzyMatch title chapter)
  ∧ (∀ (chapters : list string) (outline : list PDFSection),
       List.filter (fun section =>
                      existsb (fun chapter =>
                                 SelectivePDFParser.fuzzyMatch (title section) chapter
                                 || JS.includes (JS.toLowerCase (title section))
                                                (JS.toLowerCase chapter))
                              chapters) outline
       = List.filter (fun section =>
                        existsb (SelectivePDFParser.fuzzyMatch (title section)) chapters)
                     outline).
Proof.
  assert (∀ title chapter,
            SelectivePDFParser.fuzzyMatch title chapter
            || JS.includes (JS.toLowerCase title) (JS.toLowerCase chapter)
            = SelectivePDFParser.fuzzyMatch title chapter) as Hsame.
  { intros title chapter.
    destruct (JS.includes (JS.toLowerCase title) (JS.toLowerCase chapter)) eqn:Hin;
      [|apply orb_false_r].
    rewrite orb_true_r. symmetry.
    unfold SelectivePDFParser.fuzzyMatch, SelectivePDFParser.fuzzyMatchAt.
    by rewrite (includes_trim _ _ Hin). }
  split; [exact Hsame|]. intros chapters outline.
  assert (∀ t, existsb (fun chapter =>
                          SelectivePDFParser.fuzzyMatch t chapter
                          || JS.includes (JS.toLowerCase t) (JS.toLowerCase chapter))
                       chapters
               = existsb (SelectivePDFParser.fuzzyMatch t) chapters) as Hexists.
  { intros t. induction chapters as [|chapter more IHc]; [done|]. cbn [existsb].
    by rewrite Hsame, IHc. }
  induction outline as [|section rest IH]; [done|]. cbn [List.filter].
  by rewrite Hexists, IH.
Qed.

End ChapterMatch.

(** ** Sections detected from the text *)

Section DetectedSections.

Import SelectivePDFParser.

Variable sectionPatternTest : string → bool.
Variable pdf : PDFDoc.
Variable options : PDFProcessingOptions.

Lemma open_section_hits (pageNum : Z) (st : list PDFSection * option PDFSection)
    (hds : list TextSection) :
  foldl (open_section sectionPatternTest pdf pageNum) st hds
  = foldl (fun st hit => open_section (fun _ => true) pdf hit.1 st
                           {| type := header; ts_content := hit.2; level := None;
                              position := {| pos_x := 0; pos_y := 0;
                                             pos_width := 0; pos_height := 0 |} |})
          st ((fun hd => (pageNum, ts_content hd))
                <$> List.filter (fun hd => sectionPatternTest (ts_content hd)) hds).
Proof.
  revert st. induction hds as [|hd rest IH]; intros st; [done|]. cbn [foldl List.filter].
  rewrite IH. unfold open_section at 2.
  destruct (sectionPatternTest (ts_content hd)); [|done]. reflexivity.
Qed.

Lemma hits_fold (st : list PDFSection * option PDFSection) (hits : list (Z * string)) :
  let st' :=
    foldl (fun st hit => open_section (fun _ => true) pdf hit.1 st
                           {| type := header; ts_content := hit.2; level := None;
                              position := {| pos_x := 0; pos_y := 0;
                                             pos_width := 0; pos_height := 0 |} |})
          st hits in
  match st'.2 with Some cur => st'.1 ++ [cur] | None => st'.1 end
  = st.1
    ++ match st.2 with
       | Some cur =>
           [{| title := title cur; startPage := startPage cur;
               endPage := match hits with next :: _ => next.1 - 1 | [] => endPage cur end;
               sec_content := sec_content cur; confidence := confidence cur |}]
       | None => []
       end
    ++ hit_sections (numPages pdf) hits.
Proof.
  revert st. induction hits as [|hit rest IH]; intros [closed cur]; cbn [foldl].
  - simpl. destruct cur as [[? ? ? ? ?]|]; simpl; by rewrite ?app_nil_r.
  - cbv zeta in IH. rewrite IH. unfold open_section. simpl.
    destruct cur as [cur|]; simpl; by rewrite <- ?app_assoc.
Qed.

Lemma detectSectionsFromText_hit_sections :
  detectSectionsFromText sectionPatternTest pdf options
  = hit_sections (numPages pdf) (section_hits sectionPatternTest pdf options).
Proof.
  unfold detectSectionsFromText, section_hits.
  pose proof (hits_fold ([], None)) as Hfold. cbv zeta in Hfold. simpl in Hfold.
  rewrite <- Hfold. clear Hfold.
  generalize (([], None) : list PDFSection * option PDFSection) as st.
  generalize (page_loop 1 (Z.min 20 (numPages pdf))) as pages.
  induction pages as [|n pages IH]; intros st; [done|]. cbn [foldl].
  rewrite bind_cons, foldl_app, IH.
  destruct (extractPageWithStructure pdf n options) as [p|]; [|done].
  by rewrite open_section_hits.
Qed.

Lemma hit_sections_contiguous (lastPage : Z) (hits : list (Z * string)) (i : nat)
    (s s' : PDFSection) :
  hit_sections lastPage hits !! i = Some s → hit_sections lastPage hits !! S i = Some s' →
  endPage s = startPage s' - 1.
Proof.
  revert i. induction hits as [|hit rest IH]; intros i; simpl; [done|].
  destruct i as [|i]; simpl.
  - intros [= <-]. destruct rest as [|next rest']; simpl; [done|]. by intros [= <-].
  - apply IH.
Qed.

Lemma hit_sections_last (lastPage : Z) (hits : list (Z * string)) (s : PDFSection) :
  last (hit_sections lastPage hits) = Some s → endPage s = lastPage.
Proof.
  induction hits as [|hit rest IH]; simpl; [done|].
  destruct rest as [|next rest']; simpl in *; [by intros [= <-]|]. exact IH.
Qed.

(** X22. [detectSectionsFromText] opens one section at every header of the
    first 20 pages that a section pattern accepts, in reading order, under
    the text of the header and with confidence 0.8. Each section ends on the
    page before the next one starts and the last one on the last page of the
    document; so of two such headers on one page the first gets a section
    that ends on the page before it starts. *)
Theorem detectSectionsFromText_contiguous :
  let sections := detectSectionsFromText sectionPatternTest pdf options in
  map (fun s => (startPage s, title s)) sections = section_hits sectionPatternTest pdf options
  ∧ (∀ i s s', sections !! i = Some s → sections !! S i = Some s' →
       endPage s = startPage s' - 1)
  ∧ (∀ s, last sections = Some s → endPage s = numPages pdf)
  ∧ Forall (fun s =>
              1 ≤ startPage s ≤ Z.min 20 (numPages pdf)
              ∧ sectionPatternTest (title s) = true
              ∧ confidence s = (8 # 10)%Q
              ∧ ∃ p hd, extractPageWithStructure pdf (startPage s) options = Some p
                        ∧ hd ∈ ps_sections p ∧ type hd = header ∧ ts_content hd = title s)
           sections.
Proof.
  intros sections. subst sections. rewrite detectSectionsFromText_hit_sections.
  split; [|split; [|split]].
  - generalize (section_hits sectionPatternTest pdf options) as hits.
    induction hits as [|[n t] rest IH]; [done|]. simpl. by rewrite IH.
  - apply hit_sections_contiguous.
  - apply hit_sections_last.
  - assert (Forall (fun hit =>
                      1 ≤ hit.1 ≤ Z.min 20 (numPages pdf)
                      ∧ sectionPatternTest hit.2 = true
                      ∧ ∃ p hd, extractPageWithStructure pdf hit.1 options = Some p
                                ∧ hd ∈ ps_sections p ∧ type hd = header
                                ∧ ts_content hd = hit.2)
                   (section_hits sectionPatternTest pdf options)) as Hhits.
    { apply Forall_forall. intros hit Hhit. unfold section_hits in Hhit.
      apply list_elem_of_bind in Hhit as (n & Hhit & Hn).
      unfold page_loop in Hn. apply elem_of_seqZ in Hn.
      destruct (extractPageWithStructure pdf n options) as [p|] eqn:Hp;
        [|by apply elem_of_nil in Hhit].
      apply list_elem_of_fmap in Hhit as (hd & -> & Hhd).
      apply list_elem_of_In, filter_In in Hhd as [Hhd Htest].
      apply list_elem_of_In in Hhd. unfold headers in Hhd.
      apply list_elem_of_filter in Hhd as [Htype Hin]. simpl.
      split; [lia|]. split; [by destruct (sectionPatternTest (ts_content hd))|].
      exists p, hd. by rewrite Hp. }
    induction Hhits as [|hit rest (Hn & Htest & Hpage) _ IH]; simpl; constructor; simpl; done.
Qed.

End DetectedSections.

(** ** Limits and strategies *)

Section LimitsIgnored.

Variable regexCount : string → string → Result nat.
Variable Math_log : Z → Q.
Variable fl : Q → Q.
Variable sectionPatternTest : string → bool.
Variable getDocument : string → Result PDFDoc.

(** X23. The limits are enforced by the automatic strategy alone. With
    chapter names, or with a page range and no search terms, the text
    returned is the same whatever [maxPages] and [maxCharacters] are: the
    chapters found, or the pages of the range, are extracted whole. With
    search terms and no chapter names [maxCharacters] is not read either;
    there only [maxPages] limits the pages. *)
Theorem limits_not_enforced (binaryContent : string) (options : PDFProcessingOptions)
    (pages characters : option jsint) :
  let extract :=
    SelectivePDFParser.extractTextFromPDF regexCount Math_log fl sectionPatternTest
      getDocument binaryContent in
  (no_names (chapters options) = false
   ∨ (no_names (searchTerms options) = true ∧ is_Some (pageRange options)) →
   extract (with_limits options pages characters) = extract options)
  ∧ (no_names (searchTerms options) = false →
     extract (with_limits options (maxPages options) characters) = extract options).
Proof.
  intros extract. subst extract. unfold SelectivePDFParser.extractTextFromPDF.
  destruct options as [range mp terms names mc cw mr ei ps]. simpl.
  destruct (getDocument binaryContent) as [pdf|message]; [|done]. simpl.
  split.
  - intros [Hnames|[Hterms [r Hrange]]].
    + destruct names as [[|name names]|]; try discriminate Hnames. reflexivity.
    + simpl in Hrange. subst range.
      destruct names as [[|name names]|]; destruct terms as [[|term terms]|];
        try discriminate Hterms; reflexivity.
  - intros Hterms. destruct terms as [[|term terms]|]; try discriminate Hterms.
    destruct names as [[|name names]|]; reflexivity.
Qed.

End LimitsIgnored.

(** ** The text of [LocalPDFParser] *)

Section LocalText.

Variable getDocument : string → Result PDFDoc.

Lemma extractPage_silent (pdf : PDFDoc) (fullText : string) (pages : list Z) :
  Forall (fun n => silent pdf n = true) pages →
  foldl (LocalPDFParser.extractPage pdf) fullText pages = fullText.
Proof.
  intros Hall. revert fullText. induction Hall as [|n rest Hn _ IH]; intros fullText; [done|].
  cbn [foldl]. rewrite <- (IH fullText) at 2. f_equal.
  unfold LocalPDFParser.extractPage. unfold silent in Hn.
  destruct (textItems pdf n) as [items|e]; [|done]. by rewrite Hn.
Qed.

Lemma extractPage_appends (pdf : PDFDoc) (fullText : string) (pages : list Z) :
  ∃ more, foldl (LocalPDFParser.extractPage pdf) fullText pages = fullText +:+ more.
Proof.
  revert fullText. induction pages as [|n rest IH]; intros fullText.
  - exists "". by rewrite append_empty_r.
  - cbn [foldl]. unfold LocalPDFParser.extractPage at 2.
    destruct (textItems pdf n) as [items|e].
    + destruct (String.length (LocalPDFParser.pageText items) =? 0)%nat; [apply IH|].
      destruct (IH (fullText +:+ LocalPDFParser.pageMarker n +:+ LocalPDFParser.pageText items))
        as [more ->].
      eexists. by rewrite !append_assoc.
    + destruct (IH (fullText +:+ LocalPDFParser.pageMarker n
                    +:+ "[Error: Could not extract text from this page]")) as [more ->].
      eexists. by rewrite !append_assoc.
Qed.

Lemma extractPage_first (pdf : PDFDoc) (n : Z) :
  silent pdf n = false →
  ∃ more, LocalPDFParser.extractPage pdf "" n = LocalPDFParser.pageMarker n +:+ more.
Proof.
  unfold silent, LocalPDFParser.extractPage. destruct (textItems pdf n) as [items|e].
  - intros ->. rewrite append_nil. by eexists.
  - intros _. rewrite append_nil. by eexists.
Qed.

Lemma trim_pageMarker (n : Z) (more : string) :
  ∃ rest, JS.trim (LocalPDFParser.pageMarker n +:+ more)
          = "--- Page " +:+ JS.string_of_Z n +:+ " ---" +:+ rest.
Proof.
  unfold LocalPDFParser.pageMarker, JS.trim.
  replace ((JS.LF +:+ JS.LF +:+ "--- Page " +:+ JS.string_of_Z n +:+ " ---" +:+ JS.LF) +:+ more)
    with (JS.LF +:+ JS.LF +:+ (("--- Page " +:+ JS.string_of_Z n +:+ " ---") +:+ JS.LF +:+ more))
    by (by rewrite !append_assoc).
  change (JS.trimStart (JS.LF +:+ JS.LF +:+ ?x)) with (JS.trimStart x).
  change (JS.trimStart (("--- Page " +:+ JS.string_of_Z n +:+ " ---") +:+ JS.LF +:+ more))
    with (("--- Page " +:+ JS.string_of_Z n +:+ " ---") +:+ JS.LF +:+ more).
  rewrite trimEnd_app.
  - eexists. by rewrite !append_assoc.
  - rewrite <- append_assoc. by apply ends_word_app.
Qed.

(** X24. When the document opens, [LocalPDFParser.extractTextFromPDF]
    returns a text that is not empty. It is the notice "[No text content
    found in PDF ...]" exactly when every page was read and held no word;
    otherwise the text begins with the marker "--- Page N ---" of the first
    page [N] that holds a word or could not be read, the blank lines before
    the marker being trimmed away. *)
Theorem extractTextFromPDF_local (binaryContent : string) (pdf : PDFDoc) :
  getDocument binaryContent = Ok pdf →
  (∃ c r, LocalPDFParser.extractTextFromPDF getDocument binaryContent = Ok (String c r))
  ∧ (LocalPDFParser.extractTextFromPDF getDocument binaryContent
       = Ok "[No text content found in PDF - may be image-based or encrypted]"
     ↔ ∀ n, 1 ≤ n ≤ numPages pdf → silent pdf n = true)
  ∧ (∀ n, 1 ≤ n ≤ numPages pdf → silent pdf n = false →
       (∀ k, 1 ≤ k < n → silent pdf k = true) →
       ∃ rest, LocalPDFParser.extractTextFromPDF getDocument binaryContent
               = Ok ("--- Page " +:+ JS.string_of_Z n +:+ " ---" +:+ rest)).
Proof.
  intros Hopen.
  assert (∀ n, 1 ≤ n ≤ numPages pdf → silent pdf n = false →
            (∀ k, 1 ≤ k < n → silent pdf k = true) →
            ∃ rest, LocalPDFParser.extractTextFromPDF getDocument binaryContent
                    = Ok ("--- Page " +:+ JS.string_of_Z n +:+ " ---" +:+ rest)) as Hfirst.
  { intros n Hn Hloud Hquiet. unfold LocalPDFParser.extractTextFromPDF. rewrite Hopen. simpl.
    replace (numPages pdf) with ((n - 1) + (1 + (numPages pdf - n))) by lia.
    rewrite seqZ_app, (seqZ_cons (1 + (n - 1))), foldl_app by lia. cbn [foldl].
    rewrite (extractPage_silent pdf "" (seqZ 1 (n - 1))).
    2:{ apply Forall_forall. intros k Hk. apply elem_of_seqZ in Hk. apply Hquiet. lia. }
    replace (1 + (n - 1)) with n by lia.
    destruct (extractPage_first pdf n Hloud) as [more ->].
    destruct (extractPage_appends pdf (LocalPDFParser.pageMarker n +:+ more)
                (seqZ (Z.succ n) (Z.pred (1 + (numPages pdf - n))))) as [more' ->].
    rewrite append_assoc.
    destruct (trim_pageMarker n (more +:+ more')) as [rest ->].
    rewrite append_cons. simpl. by eexists. }
  assert ((∀ n, 1 ≤ n ≤ numPages pdf → silent pdf n = true)
          ∨ ∃ n, 1 ≤ n ≤ numPages pdf ∧ silent pdf n = false
                 ∧ ∀ k, 1 ≤ k < n → silent pdf k = true) as Hcases.
  { assert (∀ m : nat, (∀ n, 1 ≤ n ≤ Z.of_nat m → silent pdf n = true)
                       ∨ ∃ n, 1 ≤ n ≤ Z.of_nat m ∧ silent pdf n = false
                              ∧ ∀ k, 1 ≤ k < n → silent pdf k = true) as Hscan.
    { induction m as [|m [IH|IH]].
      - left. intros n Hn. lia.
      - destruct (silent pdf (Z.of_nat (S m))) eqn:Hm.
        + left. intros n Hn. destruct (decide (n = Z.of_nat (S m))) as [->|]; [done|].
          apply IH. lia.
        + right. exists (Z.of_nat (S m)). split; [lia|]. split; [done|].
          intros k Hk. apply IH. lia.
      - right. destruct IH as (n & Hn & Hloud & Hquiet). exists n. split; [lia|]. done. }
    destruct (Z.le_gt_cases 0 (numPages pdf)) as [Hpos|Hneg].
    - rewrite <- (Z2Nat.id (numPages pdf)) by done. apply Hscan.
    - left. intros n Hn. lia. }
  assert ((∀ n, 1 ≤ n ≤ numPages pdf → silent pdf n = true) →
          LocalPDFParser.extractTextFromPDF getDocument binaryContent
          = Ok "[No text content found in PDF - may be image-based or encrypted]") as Hquiet.
  { intros Hall. unfold LocalPDFParser.extractTextFromPDF. rewrite Hopen. simpl.
    rewrite extractPage_silent; [done|].
    apply Forall_forall. intros k Hk. apply elem_of_seqZ in Hk. apply Hall. lia. }
  split; [|split; [split|exact Hfirst]].
  - destruct Hcases as [Hall|(n & Hn & Hloud & Hbefore)].
    + rewrite (Hquiet Hall). by eexists _, _.
    + destruct (Hfirst n Hn Hloud Hbefore) as [rest ->]. rewrite append_cons. by eexists _, _.
  - intros Hnotice. destruct Hcases as [Hall|(n & Hn & Hloud & Hbefore)]; [exact Hall|].
    destruct (Hfirst n Hn Hloud Hbefore) as [rest Hrest].
    rewrite Hrest in Hnotice. rewrite append_cons in Hnotice. discriminate Hnotice.
  - exact Hquiet.
Qed.

End LocalText.

Lemma extractTextFromPDF_local_witness :
  ∃ rest, LocalPDFParser.extractTextFromPDF Samples.renderer "%PDF-1.7"
          = Ok ("--- Page " +:+ JS.string_of_Z 1 +:+ " ---" +:+ rest).
Proof.
  refine (proj2 (proj2 (extractTextFromPDF_local Samples.renderer "%PDF-1.7" Samples.ten_pages
                          eq_refl)) 1 _ _ _).
  - vm_compute. split; discriminate.
  - reflexivity.
  - intros k Hk. lia.
Defined.

(** ** The metadata of a page *)

Section PageMetadataProperties.

Import PageParser.

Variable fl : Q → Q.
Variable referencesTest : string → bool.

Lemma split_ws_words (s : string) (inRun : bool) :
  List.filter (fun w => (0 <? String.length w)%nat) (split_ws inRun s) = words s
  ∧ ∃ piece rest, split_ws false s = piece :: rest
                  ∧ (starts_word s = true ↔ piece ≠ "").
Proof.
  revert inRun. induction s as [|c r IH]; intros inRun.
  - split; [done|]. exists "", []. by split.
  - destruct (IH true) as [Htrue _]. destruct (IH false) as [Hfalse (piece & rest & Hsplit & Hpiece)].
    destruct (JS.is_space c) eqn:Hc.
    + rewrite words_cons_space by done. simpl split_ws. rewrite Hc. split.
      * by destruct inRun.
      * exists "", (split_ws true r). split; [done|]. simpl. rewrite Hc. by split.
    + rewrite words_cons_word by done. simpl split_ws. rewrite Hc, Hsplit. split.
      * rewrite <- Hfalse, Hsplit.
        destruct (starts_word r) eqn:Hr.
        -- destruct piece as [|d piece]; [by destruct (proj1 Hpiece eq_refl)|]. done.
        -- destruct piece as [|d piece]; [done|].
           assert (false = true) as Habs by (by apply Hpiece). discriminate Habs.
      * exists (String c piece), rest. split; [done|]. simpl. rewrite Hc. by split.
Qed.

Lemma words_length (s : string) :
  (2 * length (words s) ≤ String.length s + (if starts_word s then 1 else 0))%nat.
Proof.
  induction s as [|c r IH]; [done|]. destruct (JS.is_space c) eqn:Hc.
  - rewrite words_cons_space by done. simpl. rewrite Hc. simpl. destruct (starts_word r); lia.
  - rewrite words_cons_word by done. simpl starts_word. rewrite Hc. simpl negb. cbv iota.
    simpl String.length. destruct (starts_word r) eqn:Hr.
    + destruct (words_starts r Hr) as (w & ws & Hws). rewrite Hws in *. simpl in *. lia.
    + simpl. lia.
Qed.

Lemma density_test (count len : Z) :
  0 ≤ count → 0 ≤ len →
  Qle_bool ((count # 1) / (Z.max len 1 # 1)) (1 # 2) = (2 * count <=? Z.max len 1).
Proof.
  intros Hcount Hlen. apply eq_true_iff_eq. rewrite Qle_bool_iff, Z.leb_le.
  destruct (Z.max len 1) as [|p|p] eqn:Hmax; try lia.
  unfold Qle, Qdiv, Qmult, Qinv; simpl. lia.
Qed.

(** X25. The word count of a page is the number of its words, and a
    text of n characters has at most (n + 1) / 2 of them. So, when rounding
    the quotient of the two does not move it across one half (as is the case
    for pages of fewer than 2^53 characters), the text density is above 0.5,
    the value from which the score is raised, only for a text with twice as
    many words as characters but one: words of one character each, one
    white-space character apart. *)
Theorem analyzePageMetadata_density (content : string) (sections : list TextSection) :
  let density :=
    ((Z.of_nat (length (words content)) # 1)
     / (Z.max (Z.of_nat (String.length content)) 1 # 1))%Q in
  Qle_bool (fl density) (1 # 2) = Qle_bool density (1 # 2) →
  let md := analyzePageMetadata fl referencesTest content sections in
  wordCount md = Z.of_nat (length (words content))
  ∧ 2 * wordCount md ≤ Z.of_nat (String.length content) + 1
  ∧ (negb (Qle_bool (textDensity md) (1 # 2)) = true
     ↔ 2 * wordCount md = Z.of_nat (String.length content) + 1).
Proof.
  intros density Hfl md. subst md density.
  unfold analyzePageMetadata. cbn [wordCount textDensity].
  rewrite (proj1 (split_ws_words content false)).
  pose proof (words_length content) as Hlen.
  assert (2 * Z.of_nat (length (words content)) ≤ Z.of_nat (String.length content) + 1) as Hbound.
  { destruct (starts_word content); lia. }
  split; [done|]. split; [exact Hbound|].
  rewrite Hfl, density_test by lia. rewrite negb_true_iff, Z.leb_gt.
  destruct content as [|c r]; [simpl; lia|].
  simpl String.length in *. lia.
Qed.

End PageMetadataProperties.

Lemma analyzePageMetadata_density_witness :
  negb (Qle_bool (textDensity (PageParser.analyzePageMetadata (fun q => q) (fun _ => false)
                                 "a b c" [])) (1 # 2)) = true
  ↔ 2 * wordCount (PageParser.analyzePageMetadata (fun q => q) (fun _ => false) "a b c" [])
    = Z.of_nat (String.length "a b c") + 1.
Proof.
  exact (proj2 (proj2 (analyzePageMetadata_density (fun q => q) (fun _ => false) "a b c" []
                         eq_refl))).
Defined.

(** ** Cache keys and modified files *)

Section CacheKeys.

Lemma no_colon_app (a b : string) : no_colon (a +:+ ":" +:+ b) = false.
Proof. induction a as [|c a IH]; [done|]. rewrite append_cons. simpl. by rewrite IH, andb_false_r. Qed.

(** A text is cut at its last colon in one way only. *)
Lemma last_colon_inj (a1 a2 b1 b2 : string) :
  no_colon b1 = true → no_colon b2 = true →
  a1 +:+ ":" +:+ b1 = a2 +:+ ":" +:+ b2 → a1 = a2 ∧ b1 = b2.
Proof.
  intros H1 H2. revert a2. induction a1 as [|c a1 IH]; intros [|d a2] H.
  - change (String ":" b1 = String ":" b2) in H. by injection H as ->.
  - change (String ":" b1 = String d (a2 +:+ ":" +:+ b2)) in H. injection H as Hd Hb.
    rewrite Hb in H1. by rewrite no_colon_app in H1.
  - change (String c (a1 +:+ ":" +:+ b1) = String ":" b2) in H. injection H as Hc Hb.
    rewrite <- Hb in H2. by rewrite no_colon_app in H2.
  - rewrite !append_cons in H. injection H as -> H. by destruct (IH a2 H) as [-> ->].
Qed.

Lemma pos_digits_value (fuel : nat) (n : Z) (acc : string) :
  0 ≤ n < 10 ^ Z.of_nat fuel →
  ∃ ds, JS.pos_digits fuel n acc = ds +:+ acc
        ∧ no_colon ds = true
        ∧ ∀ a, JS.decimal_value a ds = a * 10 ^ Z.of_nat (String.length ds) + n.
Proof.
  revert n acc. induction fuel as [|fuel IH]; intros n acc Hn.
  - simpl in Hn. exists "". split; [done|]. split; [done|]. intros a. simpl. lia.
  - simpl JS.pos_digits.
    assert (0 ≤ n mod 10 < 10) as Hmod by (apply Z.mod_pos_bound; lia).
    assert (no_colon (String (ascii_of_nat (Z.to_nat (48 + n mod 10))) "") = true
            ∧ JS.digit_val (ascii_of_nat (Z.to_nat (48 + n mod 10))) = n mod 10) as [Hc Hd].
    { assert (∃ k, (k < 10)%nat ∧ n mod 10 = Z.of_nat k) as (k & Hk & ->).
      { exists (Z.to_nat (n mod 10)). lia. }
      replace (Z.to_nat (48 + Z.of_nat k)) with (48 + k)%nat by lia.
      do 10 (destruct k as [|k]; [by vm_compute|]). lia. }
    destruct (Z.ltb_spec n 10) as [Hsmall|Hbig].
    + exists (String (ascii_of_nat (Z.to_nat (48 + n mod 10))) ""). split; [done|].
      split; [exact Hc|]. intros a. simpl. rewrite Hd, Z.mod_small by lia. lia.
    + destruct (IH (n / 10) (String (ascii_of_nat (Z.to_nat (48 + n mod 10))) acc))
        as (ds & Hds & Hcolon & Hvalue).
      { split; [apply Z.div_pos; lia|]. apply Z.div_lt_upper_bound; [lia|].
        rewrite Nat2Z.inj_succ, Z.pow_succ_r in Hn by lia. lia. }
      exists (ds +:+ String (ascii_of_nat (Z.to_nat (48 + n mod 10))) "").
      split; [by rewrite Hds, append_assoc|]. split.
      * clear -Hcolon Hc. induction ds as [|c ds IHd]; [exact Hc|].
        simpl in *. apply andb_true_iff in Hcolon as [-> Hrest]. by rewrite IHd.
      * intros a. rewrite append_length. simpl String.length.
        replace (Z.of_nat (String.length ds + 1)) with (Z.succ (Z.of_nat (String.length ds)))
          by lia.
        rewrite Z.pow_succ_r by lia.
        assert (∀ s t b, JS.decimal_value b (s +:+ t) = JS.decimal_value (JS.decimal_value b s) t)
          as Happ.
        { clear. induction s as [|c s IHs]; intros t b; [done|]. rewrite append_cons. simpl.
          apply IHs. }
        rewrite Happ, Hvalue. simpl. rewrite Hd.
        pose proof (Z.div_mod n 10 ltac:(lia)). lia.
Qed.

Lemma string_of_Z_inj (m n : Z) :
  0 ≤ m → 0 ≤ n → JS.string_of_Z m = JS.string_of_Z n → m = n.
Proof.
  intros Hm Hn. unfold JS.string_of_Z.
  rewrite (proj2 (Z.ltb_ge m 0)), (proj2 (Z.ltb_ge n 0)) by done.
  assert (∀ z, 0 ≤ z → 0 ≤ z < 10 ^ Z.of_nat (Z.to_nat (Z.log2 z) + 1)) as Hfuel.
  { intros z Hz. split; [done|].
    replace (Z.of_nat (Z.to_nat (Z.log2 z) + 1)) with (Z.succ (Z.log2 z))
      by (pose proof (Z.log2_nonneg z); lia).
    destruct (decide (z = 0)) as [->|Hz0]; [done|].
    pose proof (Z.log2_spec z ltac:(lia)) as [_ Hlt].
    eapply Z.lt_le_trans; [exact Hlt|].
    apply Z.pow_le_mono_l. pose proof (Z.log2_nonneg z). lia. }
  destruct (pos_digits_value _ m "" (Hfuel m Hm)) as (d1 & -> & _ & H1).
  destruct (pos_digits_value _ n "" (Hfuel n Hn)) as (d2 & -> & _ & H2).
  rewrite !append_empty_r. intros ->.
  specialize (H1 0). specialize (H2 0). lia.
Qed.

Lemma string_of_Z_no_colon (n : Z) : 0 ≤ n → no_colon (JS.string_of_Z n) = true.
Proof.
  intros Hn. unfold JS.string_of_Z. rewrite (proj2 (Z.ltb_ge n 0)) by done.
  destruct (pos_digits_value (Z.to_nat (Z.log2 n) + 1) n "") as (ds & -> & Hds & _).
  - split; [done|].
    replace (Z.of_nat (Z.to_nat (Z.log2 n) + 1)) with (Z.succ (Z.log2 n))
      by (pose proof (Z.log2_nonneg n); lia).
    destruct (decide (n = 0)) as [->|Hn0]; [done|].
    pose proof (Z.log2_spec n ltac:(lia)) as [_ Hlt].
    eapply Z.lt_le_trans; [exact Hlt|].
    apply Z.pow_le_mono_l. pose proof (Z.log2_nonneg n). lia.
  - by rewrite append_empty_r.
Qed.

Lemma fileMetadata_inj (file file' : TFile) :
  0 ≤ size file → 0 ≤ mtime file → 0 ≤ size file' → 0 ≤ mtime file' →
  PDFCache.fileMetadata file = PDFCache.fileMetadata file' →
  path file = path file' ∧ size file = size file' ∧ mtime file = mtime file'.
Proof.
  intros Hs Hm Hs' Hm'. unfold PDFCache.fileMetadata. intros H.
  rewrite <- !(append_assoc (path _) ":" (JS.string_of_Z (size _) +:+ ":" +:+ _)) in H.
  rewrite <- !(append_assoc (path _ +:+ ":") (JS.string_of_Z (size _))) in H.
  apply last_colon_inj in H as [H Hmtime]; [|by apply string_of_Z_no_colon..].
  rewrite !append_assoc in H.
  apply last_colon_inj in H as [Hpath Hsize]; [|by apply string_of_Z_no_colon..].
  split; [done|]. split; by apply string_of_Z_inj.
Qed.

Variable stringifyEntry : CacheEntry → string.
Variable parseEntry : string → Result (option CacheEntry).
Variable stringifyOptions : PDFProcessingOptions → string.

(** X26. The key under which [parseFile] caches determines the path, the
    size and the modification time of the file: for the same options, two
    files that differ in one of the three have different keys. So once a
    file is modified, the entry written for its earlier state is no longer
    found: what the cache answers for the modified file is what it answered
    before that entry was written. *)
Theorem modified_file_misses (file file' : TFile) (options : option PDFProcessingOptions)
    (entry : CacheEntry) (w : MemVault.FS) :
  0 ≤ size file → 0 ≤ mtime file → 0 ≤ size file' → 0 ≤ mtime file' →
  (path file ≠ path file' ∨ size file ≠ size file' ∨ mtime file ≠ mtime file') →
  let key := PDFParser.getCacheKeyWithOptions stringifyOptions file options in
  let key' := PDFParser.getCacheKeyWithOptions stringifyOptions file' options in
  key ≠ key'
  ∧ (PDFCache.getWithKey MemVault.vault parseEntry key'
       (PDFCache.setWithKey MemVault.vault stringifyEntry key entry w).2).1
    = (PDFCache.getWithKey MemVault.vault parseEntry key' w).1.
Proof.
  intros Hs Hm Hs' Hm' Hdiff key key'.
  assert (key ≠ key') as Hkeys.
  { subst key key'. unfold PDFParser.getCacheKeyWithOptions. intros Heq.
    assert (PDFCache.fileMetadata file = PDFCache.fileMetadata file') as Hmeta.
    { destruct options as [o|]; [|exact Heq].
      destruct (no_keys o); [exact Heq|]. by apply append_inj_l in Heq. }
    destruct (fileMetadata_inj file file' Hs Hm Hs' Hm' Hmeta) as (Hp & Hsz & Hmt).
    destruct Hdiff as [?|[?|?]]; done. }
  split; [exact Hkeys|]. apply getWithKey_frame.
  - rewrite setWithKey_files. apply lookup_insert_ne.
    intros H. by apply getCachePath_inj in H.
  - apply setWithKey_dirs; [exact parseEntry|apply getCachePath_not_cacheDir].
Qed.

(** X27. A blob that cannot be used, because it is not JSON or holds the
    JSON value null, counts as a miss: [parseFile] reads the file, extracts
    the text and overwrites the blob with the new entry. *)
Theorem parseFile_replaces_corrupt_entry
    (selectiveExtract : string → PDFProcessingOptions → Result string)
    (localExtract : string → Result string)
    (file : TFile) (options : option PDFProcessingOptions) (w : MemVault.FS)
    (data binaryContent text : string) :
  let cacheKey := PDFParser.getCacheKeyWithOptions stringifyOptions file options in
  let finalOptions := PDFParser.getProcessingOptions (size file) options in
  let entry := {| response := text; elapsed_time_ms := 0; options := Some finalOptions |} in
  MemVault.files w !! PDFCache.getCachePath cacheKey = Some data →
  (parseEntry data = Ok None ∨ ∃ message, parseEntry data = Throw message) →
  MemVault.files w !! path file = Some binaryContent →
  (if negb (no_keys finalOptions) then selectiveExtract binaryContent finalOptions
   else localExtract binaryContent) = Ok text →
  ∃ w',
    PDFParser.parseFile MemVault.vault stringifyEntry parseEntry stringifyOptions
      selectiveExtract localExtract file options w = (Ok text, w')
    ∧ MemVault.files w'
      = <[PDFCache.getCachePath cacheKey := stringifyEntry entry]> (MemVault.files w).
Proof.
  intros cacheKey finalOptions entry Hblob Hcorrupt Hbytes Htext.
  exists (PDFCache.setWithKey MemVault.vault stringifyEntry cacheKey entry w).2.
  split; [|apply setWithKey_files].
  unfold PDFParser.parseFile, io_try, io_bind. fold cacheKey.
  rewrite (getWithKey_hit parseEntry cacheKey data w Hblob).
  assert (match parseEntry data with Ok r => Ok r | Throw _ => Ok None end
          = (Ok None : Result (option CacheEntry))) as ->.
  { by destruct Hcorrupt as [->|[message ->]]. }
  simpl. unfold MemVault.fs_read. rewrite Hbytes. unfold io_lift.
  fold finalOptions. rewrite Htext. fold entry.
  pose proof (setWithKey_returns MemVault.vault stringifyEntry cacheKey entry w) as Hset.
  destruct (PDFCache.setWithKey MemVault.vault stringifyEntry cacheKey entry w) as [r w'].
  simpl in Hset. subst r. reflexivity.
Qed.

End CacheKeys.

Lemma modified_file_misses_witness :
  PDFParser.getCacheKeyWithOptions (fun _ => "{}") Samples.report None
  ≠ PDFParser.getCacheKeyWithOptions (fun _ => "{}") Samples.edited_report None.
Proof.
  refine (proj1 (modified_file_misses Samples.encode Samples.decode (fun _ => "{}")
                   Samples.report Samples.edited_report None Samples.entry
                   Samples.vault_with_report _ _ _ _ _)); simpl; lia.
Defined.

Lemma parseFile_replaces_corrupt_entry_witness :
  ∃ w',
    PDFParser.parseFile MemVault.vault Samples.encode (fun _ => Throw "Unexpected end of JSON input")
      (fun _ => "{}") (fun _ _ => Throw "not used") (fun _ => Ok "--- Page 1 ---")
      Samples.report None Samples.vault_with_corrupt_blob = (Ok "--- Page 1 ---", w').
Proof.
  destruct (parseFile_replaces_corrupt_entry Samples.encode
              (fun _ => Throw "Unexpected end of JSON input") (fun _ => "{}")
              (fun _ _ => Throw "not used") (fun _ => Ok "--- Page 1 ---")
              Samples.report None Samples.vault_with_corrupt_blob "{" "%PDF-1.7"
              "--- Page 1 ---") as (w' & Hrun & _).
  - vm_compute. reflexivity.
  - right. by eexists.
  - vm_compute. reflexivity.
  - reflexivity.
  - by exists w'.
Defined.

(** ** The sections of a page *)

Section PageSections.

Import PageParser.

Variable fl : Q → Q.
Variable detectSectionType : string → TextItem → bool → option TextSection → SectionType.

Lemma trimStart_word (s : string) : starts_word s = true → JS.trimStart s = s.
Proof. destruct s as [|c r]; [done|]. simpl. intros H. apply negb_true_iff in H. by rewrite H. Qed.

(** Trimming a trimmed text changes nothing. *)
Lemma trim_idemp (s : string) : JS.trim (JS.trim s) = JS.trim s.
Proof.
  unfold JS.trim at 2 3.
  destruct (trimStart_split s) as (sp1 & _ & Hstart).
  destruct (trimEnd_split (JS.trimStart s)) as (sp2 & _ & Hend & Hsame).
  destruct (JS.trimEnd (JS.trimStart s)) as [|c t] eqn:Ht; [done|].
  destruct Hend as [Hend|Hend]; [done|].
  assert (starts_word (String c t) = true) as Hword.
  { rewrite Hsame by done. destruct Hstart as [Hstart|Hstart]; [|done].
    by rewrite Hstart in Ht. }
  unfold JS.trim. rewrite trimStart_word by done.
  rewrite <- (append_empty_r (String c t)) at 1. rewrite trimEnd_app by done.
  apply append_empty_r.
Qed.

Lemma pushSection_closed (items : list TextItem) (sections : list TextSection)
    (currentSection : option TextSection) (currentText : string) :
  Forall (closed_section items) sections →
  (∀ cur, currentSection = Some cur → open_section_ok items cur) →
  Forall (closed_section items) (pushSection sections currentSection currentText)
  ∧ (length (pushSection sections currentSection currentText)
     ≤ length sections + open_count currentSection)%nat.
Proof.
  intros Hsections Hcur. unfold pushSection.
  destruct currentSection as [cur|]; [|split; [done|simpl; lia]].
  destruct (JS.trim currentText) as [|c r] eqn:Ht; [split; [done|simpl; lia]|].
  split; [|rewrite length_app; simpl; lia].
  apply Forall_app. split; [done|]. constructor; [|done].
  destruct (Hcur cur eq_refl) as [Hlevel Hitem].
  split; [done|]. split; [|done]. simpl. rewrite <- Ht. apply trim_idemp.
Qed.

Lemma parseItem_closed (items : list TextItem) (st : ParserState) (i : nat)
    (item : TextItem) (k : nat) :
  item ∈ items →
  Forall (closed_section items) (st_sections st) →
  (∀ cur, st_currentSection st = Some cur → open_section_ok items cur) →
  (length (st_sections st) + open_count (st_currentSection st) ≤ k)%nat →
  let st' := parseItem fl detectSectionType st i item in
  Forall (closed_section items) (st_sections st')
  ∧ (∀ cur, st_currentSection st' = Some cur → open_section_ok items cur)
  ∧ (length (st_sections st') + open_count (st_currentSection st')
     ≤ k + (if (String.length (itemText item) =? 0)%nat then 0 else 1))%nat.
Proof.
  intros Hitem Hsections Hcur Hcount. cbv zeta. unfold parseItem.
  destruct (itemText item) as [|c r] eqn:Htext.
  - split; [done|]. split; [done|]. simpl. lia.
  - destruct (pushSection_closed items (st_sections st) (st_currentSection st)
                (st_currentText st) Hsections Hcur) as [Hpushed Hlen].
    match goal with |- context [if ?b then _ else _] => destruct b end;
      cbn [st_sections st_currentSection st_currentText String.length Nat.eqb open_count].
    + split; [exact Hpushed|]. split; [|lia].
      intros cur [= <-]. split; [done|]. exists item. by rewrite Htext.
    + split; [done|]. split; [done|]. lia.
Qed.

Lemma parseItems_closed (items : list TextItem) (st : ParserState) (i : nat)
    (todo : list TextItem) (k : nat) :
  todo ⊆ items →
  Forall (closed_section items) (st_sections st) →
  (∀ cur, st_currentSection st = Some cur → open_section_ok items cur) →
  (length (st_sections st) + open_count (st_currentSection st) ≤ k)%nat →
  let st' := parseItems fl detectSectionType st i todo in
  Forall (closed_section items) (st_sections st')
  ∧ (∀ cur, st_currentSection st' = Some cur → open_section_ok items cur)
  ∧ (length (st_sections st') + open_count (st_currentSection st')
     ≤ k + length (List.filter (fun item => negb (String.length (itemText item) =? 0)%nat) todo))%nat.
Proof.
  revert st i k. induction todo as [|item rest IH]; intros st i k Hsub Hsections Hcur Hcount.
  - simpl. split; [done|]. split; [done|]. lia.
  - cbn [parseItems List.filter]. cbv zeta.
    assert (item ∈ items) as Hitem by (apply Hsub; left).
    assert (rest ⊆ items) as Hrest by (intros x Hx; apply Hsub; by right).
    destruct (parseItem_closed items st i item k Hitem Hsections Hcur Hcount)
      as (H1 & H2 & H3).
    destruct (IH _ (S i) _ Hrest H1 H2 H3) as (H4 & H5 & H6).
    split; [exact H4|]. split; [exact H5|].
    destruct (String.length (itemText item) =? 0)%nat; simpl in *; lia.
Qed.

(** X28. The sections of a page: there are at most as many as the page has
    items with text; the content of each is not empty and has no white
    space at either end; a section has no level, and its position is that
    of one of the items with text. A page without such an item has no
    section. *)
Theorem parseTextStructure_sections (items : list TextItem) :
  let sections := parseTextStructure fl detectSectionType items in
  (length sections
   ≤ length (List.filter (fun item => negb (String.length (itemText item) =? 0)%nat) items))%nat
  ∧ Forall (fun s =>
              ts_content s ≠ "" ∧ JS.trim (ts_content s) = ts_content s ∧ level s = None
              ∧ ∃ item, item ∈ items ∧ itemText item ≠ "" ∧ position s = itemPosition item)
           sections.
Proof.
  intros sections. subst sections. unfold parseTextStructure.
  destruct (parseItems_closed items
              {| st_sections := []; st_currentSection := None; st_currentText := "" |}
              0 items 0) as (Hclosed & Hcur & Hcount); try done.
  cbv zeta in Hclosed, Hcur, Hcount.
  destruct (pushSection_closed items _ _
              (st_currentText (parseItems fl detectSectionType
                 {| st_sections := []; st_currentSection := None; st_currentText := "" |}
                 0 items)) Hclosed Hcur) as [Hall Hlen].
  split; [simpl in *; lia|exact Hall].
Qed.

End PageSections.

(** ** The two key schemes *)

Section KeySchemes.

Variable stringifyEntry : CacheEntry → string.
Variable parseEntry : string → Result (option CacheEntry).
Variable stringifyOptions : PDFProcessingOptions → string.

Lemma no_colon_append (a b : string) :
  no_colon (a +:+ b) = no_colon a && no_colon b.
Proof.
  induction a as [|c a IH]; [done|]. rewrite append_cons. simpl. by rewrite IH, andb_assoc.
Qed.

Lemma hex_digit_no_colon (z : Z) :
  0 ≤ z < 16 → Ascii.eqb (MD5.hex_digit z) ":" = false.
Proof.
  intros Hz. assert (∃ k, (k < 16)%nat ∧ z = Z.of_nat k) as (k & Hk & ->).
  { exists (Z.to_nat z). lia. }
  do 16 (destruct k as [|k]; [by vm_compute|]). lia.
Qed.

Lemma hex_byte_no_colon (b : Z) : 0 ≤ b < 256 → no_colon (MD5.hex_byte b) = true.
Proof.
  intros Hb. unfold MD5.hex_byte. simpl.
  rewrite !hex_digit_no_colon; [done| |].
  - apply Z.mod_pos_bound. lia.
  - split; [apply Z.div_pos; lia|]. apply Z.div_lt_upper_bound; lia.
Qed.

Lemma le_bytes_range (n : nat) (z : Z) : Forall (fun b => 0 ≤ b < 256) (MD5.le_bytes n z).
Proof.
  unfold MD5.le_bytes. apply Forall_forall. intros b Hb.
  apply list_elem_of_fmap in Hb as (k & -> & _).
  change 255 with (Z.ones 8). rewrite Z.land_ones by lia.
  apply Z.mod_pos_bound. lia.
Qed.

Lemma digest_no_colon (s : string) : no_colon (MD5.digest s) = true.
Proof.
  unfold MD5.digest.
  match goal with |- context [map MD5.hex_byte ?l] =>
    assert (Forall (fun b => 0 ≤ b < 256) l) as Hbytes
      by (repeat (apply Forall_app; split); apply le_bytes_range);
    induction Hbytes as [|b rest Hb _ IH]
  end; [done|].
  cbn [map]. destruct rest as [|b' rest].
  - simpl. by apply hex_byte_no_colon.
  - change (String.concat "" (MD5.hex_byte b :: map MD5.hex_byte (b' :: rest)))
      with (MD5.hex_byte b +:+ "" +:+ String.concat "" (map MD5.hex_byte (b' :: rest))).
    rewrite !no_colon_append, IH, hex_byte_no_colon by done. done.
Qed.

Lemma getCacheKeyWithOptions_colon (file : TFile) (options : option PDFProcessingOptions) :
  no_colon (PDFParser.getCacheKeyWithOptions stringifyOptions file options) = false.
Proof.
  unfold PDFParser.getCacheKeyWithOptions, PDFCache.fileMetadata.
  destruct options as [o|]; [destruct (no_keys o)|]; rewrite ?append_assoc; apply no_colon_app.
Qed.

(** X29. [get] and [set] keep the entry of a file under the digest of
    its path, size and modification time: what [set] stores for a file,
    [get] returns for it. The digest is never the key that [parseFile] uses
    for any file and options, so the two schemes do not meet: an entry that
    [parseFile] has cached is not found by [get], and the answer of [get]
    is not changed by it. *)
Theorem get_set_apart (file file' : TFile) (options : option PDFProcessingOptions)
    (entry : CacheEntry) (w : MemVault.FS) :
  parseEntry (stringifyEntry entry) = Ok (Some entry) →
  (PDFCache.get MemVault.vault parseEntry file
     (PDFCache.set MemVault.vault stringifyEntry file entry w).2).1 = Ok (Some entry)
  ∧ PDFCache.getCacheKey file
    ≠ PDFParser.getCacheKeyWithOptions stringifyOptions file' options
  ∧ (PDFCache.get MemVault.vault parseEntry file
       (PDFCache.setWithKey MemVault.vault stringifyEntry
          (PDFParser.getCacheKeyWithOptions stringifyOptions file' options) entry w).2).1
    = (PDFCache.get MemVault.vault parseEntry file w).1.
Proof.
  intros Hjson.
  assert (PDFCache.getCacheKey file
          ≠ PDFParser.getCacheKeyWithOptions stringifyOptions file' options) as Hkeys.
  { intros Heq. pose proof (digest_no_colon (PDFCache.fileMetadata file)) as Hd.
    unfold PDFCache.getCacheKey in Heq. rewrite Heq in Hd.
    by rewrite getCacheKeyWithOptions_colon in Hd. }
  change (PDFCache.get MemVault.vault parseEntry file)
    with (PDFCache.getWithKey MemVault.vault parseEntry (PDFCache.getCacheKey file)).
  change (PDFCache.set MemVault.vault stringifyEntry file entry)
    with (PDFCache.setWithKey MemVault.vault stringifyEntry (PDFCache.getCacheKey file) entry).
  split; [|split; [exact Hkeys|]].
  - rewrite (getWithKey_hit parseEntry _ (stringifyEntry entry)).
    + simpl. by rewrite Hjson.
    + rewrite setWithKey_files. apply lookup_insert_eq.
  - apply getWithKey_frame.
    + rewrite setWithKey_files. apply lookup_insert_ne.
      intros H. apply getCachePath_inj in H. by symmetry in H.
    + apply setWithKey_dirs; [exact parseEntry|apply getCachePath_not_cacheDir].
Qed.

End KeySchemes.

Lemma get_set_apart_witness :
  (PDFCache.get MemVault.vault Samples.decode Samples.report
     (PDFCache.set MemVault.vault Samples.encode Samples.report Samples.entry
        Samples.vault_with_report).2).1 = Ok (Some Samples.entry).
Proof.
  exact (proj1 (get_set_apart Samples.encode Samples.decode (fun _ => "{}")
                  Samples.report Samples.report None Samples.entry
                  Samples.vault_with_report eq_refl)).
Defined.
